(** * hudy SDK (Python): year-keyed cache and business-day calculator

    A shallow embedding of [hudy/utils/date.py], [hudy/utils/business_days.py]
    and [hudy/cache.py], together with the part of Python's [datetime.date]
    those modules rely on, followed by [hudy/errors.py], the validator of
    [Holiday.date] in [hudy/types.py] and the methods of [hudy/client.py]
    over an abstract network and clock.

    Conventions.
    - A Python [int] is a [Z].  A Python [str] is a [string] holding its
      UTF-8 bytes; byte-wise lexicographic order on UTF-8 coincides with
      Python's code-point order on [str].
    - A [datetime.date] is represented by its proleptic Gregorian ordinal
      ([date.toordinal()]): 1 is 0001-01-01 and [_MAXORDINAL] is 9999-12-31.
      Year, month and day are recovered by [_ord2ymd], as in CPython.
      [strftime] is the one of CPython on glibc, which does not pad the
      year: [date(999, 1, 4)] is formatted as ["999-01-04"].
    - A Python [float] is an IEEE 754 binary64 number, as [SpecFloat] of
      the Standard Library specifies them, with rounding to nearest, ties to
      even.  The value read from [time.time()] by a call is an explicit
      argument [now] of the embedded method.
    - A method that mutates [self] returns the new object next to its result.
    - A raised exception is the [Raise] case of [result].  A [while] loop is
      a fixpoint over a [fuel] budget; [None] means the budget ran out before
      the loop finished. *)

From Stdlib Require Import ZArith QArith Lia Lqa Ascii String.
From Stdlib Require Import Floats.SpecFloat.
From stdpp Require Import gmap strings list list_numbers pretty sorting.

Local Open Scope Z_scope.

(** ** Exceptions and results *)

Inductive exn : Set :=
| ValueError
| OverflowError.

Inductive result (A : Type) : Type :=
| Ok (a : A)
| Raise (e : exn).
Arguments Ok {A} a.
Arguments Raise {A} e.

(** ** [datetime.date] *)

Module datetime.

(** [date.max.toordinal()] *)
Definition _MAXORDINAL : Z := 3652059.

(** A date is its ordinal. *)
Abbreviation date := Z (only parsing).

(** The ordinals that denote a [date]: 0001-01-01 .. 9999-12-31. *)
Definition valid_date (d : date) : Prop := 1 <= d <= _MAXORDINAL.

Definition _is_leap (year : Z) : bool :=
  (year mod 4 =? 0) && (negb (year mod 100 =? 0) || (year mod 400 =? 0)).

Definition _days_before_year (year : Z) : Z :=
  let y := year - 1 in
  y * 365 + y / 4 - y / 100 + y / 400.

Definition _DAYS_IN_MONTH (month : Z) : Z :=
  match month with
  | 1 => 31 | 2 => 28 | 3 => 31 | 4 => 30 | 5 => 31 | 6 => 30
  | 7 => 31 | 8 => 31 | 9 => 30 | 10 => 31 | 11 => 30 | 12 => 31
  | _ => -1
  end.

Definition _DAYS_BEFORE_MONTH (month : Z) : Z :=
  match month with
  | 1 => 0 | 2 => 31 | 3 => 59 | 4 => 90 | 5 => 120 | 6 => 151
  | 7 => 181 | 8 => 212 | 9 => 243 | 10 => 273 | 11 => 304 | 12 => 334
  | _ => -1
  end.

Definition _days_before_month (year month : Z) : Z :=
  _DAYS_BEFORE_MONTH month
  + (if (2 <? month) && _is_leap year then 1 else 0).

Definition _ymd2ord (year month day : Z) : Z :=
  _days_before_year year + _days_before_month year month + day.

Definition _DI400Y : Z := 146097.
Definition _DI100Y : Z := 36524.
Definition _DI4Y : Z := 1461.

Definition _ord2ymd (n : Z) : Z * Z * Z :=
  let n := n - 1 in
  let n400 := n / _DI400Y in
  let n := n mod _DI400Y in
  let year := n400 * 400 + 1 in
  let n100 := n / _DI100Y in
  let n := n mod _DI100Y in
  let n4 := n / _DI4Y in
  let n := n mod _DI4Y in
  let n1 := n / 365 in
  let n := n mod 365 in
  let year := year + (n100 * 100 + n4 * 4 + n1) in
  if (n1 =? 4) || (n100 =? 4) then (year - 1, 12, 31)
  else
    let leapyear := (n1 =? 3) && (negb (n4 =? 24) || (n100 =? 3)) in
    let month := Z.shiftr (n + 50) 5 in
    let preceding :=
      _DAYS_BEFORE_MONTH month
      + (if (2 <? month) && leapyear then 1 else 0) in
    if n <? preceding then
      let month := month - 1 in
      let preceding :=
        preceding
        - (_DAYS_IN_MONTH month
           + (if (month =? 2) && leapyear then 1 else 0)) in
      (year, month, n - preceding + 1)
    else (year, month, n - preceding + 1).

(** [date(year, month, day)], used to write dates down. *)
Definition mkdate (year month day : Z) : date := _ymd2ord year month day.

Definition year (d : date) : Z := (_ord2ymd d).1.1.
Definition month (d : date) : Z := (_ord2ymd d).1.2.
Definition day (d : date) : Z := (_ord2ymd d).2.

(** [date.weekday()]: Monday is 0, Sunday is 6. *)
Definition weekday (d : date) : Z := (d + 6) mod 7.

Definition digit (n : Z) : ascii := ascii_of_N (48 + Z.to_N (n mod 10)).

(** ["%02d"] and ["%04d"] for the fields of a date. *)
Definition pad2 (n : Z) : string :=
  String (digit (n / 10)) (String (digit n) EmptyString).

Definition pad4 (n : Z) : string :=
  String (digit (n / 1000)) (String (digit (n / 100)) (pad2 n)).

(** ["%Y"] for the year of a date, between 1 and 9999.  CPython hands the
    format to the [strftime] of the C library, and the one of glibc writes
    the year in decimal without padding: ["999"], not ["0999"]. *)
Definition strftime_Y (year : Z) : string :=
  if year <? 10 then String (digit year) EmptyString
  else if year <? 100 then pad2 year
  else if year <? 1000 then String (digit (year / 100)) (pad2 year)
  else pad4 year.

(** [d.strftime("%Y-%m-%d")] *)
Definition strftime_Ymd (d : date) : string :=
  strftime_Y (year d) +:+ "-" +:+ pad2 (month d) +:+ "-" +:+ pad2 (day d).

(** [d + timedelta(days=days)]: the sum of ordinals, [OverflowError] when
    it is not the ordinal of a date. *)
Definition add_timedelta_days (d : date) (days : Z) : result date :=
  let o := d + days in
  if (0 <? o) && (o <=? _MAXORDINAL) then Ok o else Raise OverflowError.

End datetime.

Import datetime.

(** ** [hudy/types.py] *)

Inductive HolidayType : Set := public | custom.

Module Holiday.
Record t : Set := mk {
  id : string;
  name : string;
  date : string;
  year : Z;
  month : Z;
  day : Z;
  day_of_week : string;
  type : HolidayType
}.
End Holiday.

(** ** [hudy/utils/date.py] *)

Definition format_date (d : date) : string := strftime_Ymd d.

Definition is_weekend (d : date) : bool :=
  (weekday d =? 5) || (weekday d =? 6).

Definition add_days (d : date) (days : Z) : result date :=
  add_timedelta_days d days.

(** ** [hudy/utils/business_days.py] *)

Module BusinessDayCalculator.

Record t : Type := mk { _holiday_set : gset string }.

Definition __init__ (holidays : list Holiday.t) : t :=
  {| _holiday_set := list_to_set (Holiday.date <$> holidays) |}.

Definition is_business_day (self : t) (d : date) : bool :=
  if is_weekend d then false
  else
    let date_str := format_date d in
    bool_decide (date_str ∉ _holiday_set self).

(** The loop of [count_business_days], from the state [(current, count)]. *)
Fixpoint count_business_days_loop (fuel : nat) (self : t) (to_date : date)
    (current : date) (count : Z) : option (result Z) :=
  match fuel with
  | O => None
  | S fuel =>
      if current <=? to_date then
        let count := if is_business_day self current then count + 1 else count in
        match add_days current 1 with
        | Ok current => count_business_days_loop fuel self to_date current count
        | Raise e => Some (Raise e)
        end
      else Some (Ok count)
  end.

Definition count_business_days (fuel : nat) (self : t)
    (from_date to_date : date) : option (result Z) :=
  if to_date <? from_date then Some (Raise ValueError)
  else count_business_days_loop fuel self to_date from_date 0.

(** The loop of [get_next_business_day] and of [get_previous_business_day]:
    [step] is the argument they give to [add_days]. *)
Fixpoint seek_business_day_loop (fuel : nat) (self : t) (step : Z)
    (current : date) : option (result date) :=
  match fuel with
  | O => None
  | S fuel =>
      if negb (is_business_day self current) then
        match add_days current step with
        | Ok current => seek_business_day_loop fuel self step current
        | Raise e => Some (Raise e)
        end
      else Some (Ok current)
  end.

Definition get_next_business_day (fuel : nat) (self : t)
    (from_date : date) : option (result date) :=
  match add_days from_date 1 with
  | Ok current => seek_business_day_loop fuel self 1 current
  | Raise e => Some (Raise e)
  end.

Definition get_previous_business_day (fuel : nat) (self : t)
    (from_date : date) : option (result date) :=
  match add_days from_date (-1) with
  | Ok current => seek_business_day_loop fuel self (-1) current
  | Raise e => Some (Raise e)
  end.

(** The loop of [add_business_days], from the state [(current, added)]. *)
Fixpoint add_business_days_loop (fuel : nat) (self : t)
    (direction remaining : Z) (current : date) (added : Z)
    : option (result date) :=
  match fuel with
  | O => None
  | S fuel =>
      if added <? remaining then
        match add_days current direction with
        | Ok current =>
            let added :=
              if is_business_day self current then added + 1 else added in
            add_business_days_loop fuel self direction remaining current added
        | Raise e => Some (Raise e)
        end
      else Some (Ok current)
  end.

Definition add_business_days (fuel : nat) (self : t)
    (from_date : date) (days : Z) : option (result date) :=
  if days =? 0 then Some (Ok from_date)
  else
    let direction := if 0 <? days then 1 else -1 in
    let remaining := Z.abs days in
    add_business_days_loop fuel self direction remaining from_date 0.

(** The loop of [get_business_days_in_range], from the state
    [(current, business_days)]. *)
Fixpoint get_business_days_in_range_loop (fuel : nat) (self : t)
    (to_date : date) (current : date) (business_days : list date)
    : option (result (list date)) :=
  match fuel with
  | O => None
  | S fuel =>
      if current <=? to_date then
        let business_days :=
          if is_business_day self current
          then business_days ++ [current] else business_days in
        match add_days current 1 with
        | Ok current =>
            get_business_days_in_range_loop fuel self to_date current
              business_days
        | Raise e => Some (Raise e)
        end
      else Some (Ok business_days)
  end.

Definition get_business_days_in_range (fuel : nat) (self : t)
    (from_date to_date : date) : option (result (list date)) :=
  if to_date <? from_date then Some (Raise ValueError)
  else get_business_days_in_range_loop fuel self to_date from_date [].

End BusinessDayCalculator.

(** ** [hudy/cache.py] *)

(** A Python [float]: 53 bits of precision, infinities at exponent 1024. *)
Definition binary64 : Set := spec_float.

(** The float nearest to the integer [n], ties to even; an infinity when
    [n] is beyond the largest float. *)
Definition round_int (n : Z) : binary64 := binary_normalize 53 1024 n 0 false.

(** [float(n)] for an [int] [n], as Python converts the [int] operand of
    [x + n]: the nearest float, [OverflowError] when there is none. *)
Definition float_of_int (n : Z) : result binary64 :=
  match round_int n with
  | S754_infinity _ => Raise OverflowError
  | x => Ok x
  end.

(** [x + y] on floats. *)
Definition float_add (x y : binary64) : binary64 := SFadd 53 1024 x y.

(** [x > y] on floats; [False] when one of them is a NaN. *)
Definition float_gt (x y : binary64) : bool := SFltb y x.

(** [x + n] for a float [x] and an [int] [n]. *)
Definition float_add_int (x : binary64) (n : Z) : result binary64 :=
  match float_of_int n with
  | Ok y => Ok (float_add x y)
  | Raise e => Raise e
  end.

(** [x > y] on rationals, for the delays of the scripted servers. *)
Definition Qgt_bool (x y : Q) : bool := negb (Qle_bool x y).

(** Python's [not v] for [v : Optional[List[_]]]: [None] and the empty list
    are falsy. *)
Definition py_not {A : Type} (v : option (list A)) : bool :=
  match v with
  | None => true
  | Some [] => true
  | Some (_ :: _) => false
  end.

Module CacheEntry.
Record t : Type := mk {
  data : list Holiday.t;
  expires_at : binary64
}.
End CacheEntry.

Module SmartCache.

Record t : Type := mk {
  _store : gmap string CacheEntry.t;
  _hits : Z;
  _misses : Z;
  _custom_ttl : option Z
}.

Definition __init__ (custom_ttl : option Z) : t :=
  {| _store := ∅; _hits := 0; _misses := 0; _custom_ttl := custom_ttl |}.

Definition _get_year_key (year : Z) : string := "year:" +:+ pretty year.

(** [current_year] is the value of [datetime.now().year] in this call. *)
Definition _get_ttl (current_year : Z) (self : t) (year : Z) : Z :=
  match _custom_ttl self with
  | Some custom_ttl => custom_ttl
  | None =>
      if year <? current_year then 365 * 24 * 60 * 60
      else if year =? current_year then 24 * 60 * 60
      else 7 * 24 * 60 * 60
  end.

Definition get (now : binary64) (self : t) (year : Z)
    : t * option (list Holiday.t) :=
  let key := _get_year_key year in
  match _store self !! key with
  | None =>
      ({| _store := _store self; _hits := _hits self;
          _misses := _misses self + 1; _custom_ttl := _custom_ttl self |},
       None)
  | Some entry =>
      if float_gt now (CacheEntry.expires_at entry) then
        ({| _store := delete key (_store self); _hits := _hits self;
            _misses := _misses self + 1; _custom_ttl := _custom_ttl self |},
         None)
      else
        ({| _store := _store self; _hits := _hits self + 1;
            _misses := _misses self; _custom_ttl := _custom_ttl self |},
         Some (CacheEntry.data entry))
  end.

(** [set] raises what [time.time() + ttl] raises, before it stores
    anything: the cache is then as it was. *)
Definition set (now : binary64) (current_year : Z) (self : t) (year : Z)
    (holidays : list Holiday.t) : t * result unit :=
  let key := _get_year_key year in
  let ttl := _get_ttl current_year self year in
  match float_add_int now ttl with
  | Raise e => (self, Raise e)
  | Ok expires_at =>
      ({| _store := <[key := CacheEntry.mk holidays expires_at]> (_store self);
          _hits := _hits self; _misses := _misses self;
          _custom_ttl := _custom_ttl self |},
       Ok ())
  end.

(** [from_str <= h.date <= to_str] *)
Definition in_range (from_str to_str : string) (h : Holiday.t) : bool :=
  String.leb from_str (Holiday.date h) && String.leb (Holiday.date h) to_str.

(** The [for year in range(from_year, to_year + 1)] loop of [get_range],
    over the years still to visit.  [now year] is the clock reading of the
    [get] made for [year]. *)
Fixpoint get_range_loop (now : Z → binary64) (self : t) (years : list Z)
    (all_holidays : list Holiday.t) : t * option (list Holiday.t) :=
  match years with
  | [] => (self, Some all_holidays)
  | year :: years =>
      let '(self, cached) := get (now year) self year in
      if py_not cached then (self, None)
      else
        get_range_loop now self years (all_holidays ++ default [] cached)
  end.

Definition get_range (now : Z → binary64) (self : t) (from_date to_date : date)
    : t * option (list Holiday.t) :=
  let from_year := datetime.year from_date in
  let to_year := datetime.year to_date in
  let from_str := strftime_Ymd from_date in
  let to_str := strftime_Ymd to_date in
  if from_year =? to_year then
    let '(self, cached) := get (now from_year) self from_year in
    if py_not cached then (self, None)
    else (self, Some (List.filter (in_range from_str to_str) (default [] cached)))
  else
    let '(self, all_holidays) :=
      get_range_loop now self (seqZ from_year (to_year + 1 - from_year)) [] in
    (self, List.filter (in_range from_str to_str) <$> all_holidays).

Definition clear (self : t) : t :=
  {| _store := ∅; _hits := 0; _misses := 0;
     _custom_ttl := _custom_ttl self |}.

(** The [hits], [misses] and [size] fields of [get_stats()], and the
    [(key, expiresAt)] pairs of its [entries]. *)
Definition get_stats (self : t) : Z * Z * Z * list (string * binary64) :=
  (_hits self, _misses self, Z.of_nat (size (_store self)),
   (λ kv, (kv.1, CacheEntry.expires_at kv.2)) <$> map_to_list (_store self)).

Definition prune (now : binary64) (self : t) : t * Z :=
  let to_remove :=
    (List.filter (λ kv, float_gt now (CacheEntry.expires_at kv.2))
       (map_to_list (_store self))).*1 in
  ({| _store := foldl (λ store key, delete key store) (_store self) to_remove;
      _hits := _hits self; _misses := _misses self;
      _custom_ttl := _custom_ttl self |},
   Z.of_nat (length to_remove)).

End SmartCache.

(** ** Reference notions used in the statements *)

(** The business days of the inclusive range [[from_date, to_date]], in
    chronological order. *)
Definition business_days_between (self : BusinessDayCalculator.t)
    (from_date to_date : date) : list date :=
  List.filter (BusinessDayCalculator.is_business_day self) (seqZ from_date (to_date + 1 - from_date)).

(** The number of business days among the [k] dates [current + step],
    [current + 2 * step], ..., [current + k * step]. *)
Fixpoint business_days_stepped (self : BusinessDayCalculator.t)
    (current step : Z) (k : nat) : Z :=
  match k with
  | O => 0
  | S k =>
      (if BusinessDayCalculator.is_business_day self (current + step)
       then 1 else 0)
      + business_days_stepped self (current + step) step k
  end.

(** [add_business_days(add_business_days(d, n), -n)] *)
Definition add_business_days_round_trip (fuel : nat)
    (self : BusinessDayCalculator.t) (d : date) (n : Z)
    : option (result date) :=
  match BusinessDayCalculator.add_business_days fuel self d n with
  | Some (Ok e) => BusinessDayCalculator.add_business_days fuel self e (- n)
  | r => r
  end.

(** The canonical ["YYYY-MM-DD"] string of a date, in the words of the
    specification: the year on four digits, the month and the day on two. *)
Definition canonical_date_string (d : date) : string :=
  pad4 (datetime.year d) +:+ "-" +:+ pad2 (datetime.month d) +:+ "-"
  +:+ pad2 (datetime.day d).

(** [x <= y] on floats, the comparison of the claim on [prune]. *)
Definition float_le (x y : binary64) : bool := SFleb x y.


(** The list cached for [year], when an entry is stored for it and the clock
    reading [now] is not past its [expires_at]. *)
Definition cached_unexpired (now : binary64)
    (store : gmap string CacheEntry.t)
    (year : Z) : option (list Holiday.t) :=
  match store !! SmartCache._get_year_key year with
  | Some entry =>
      if float_gt now (CacheEntry.expires_at entry) then None
      else Some (CacheEntry.data entry)
  | None => None
  end.

(** The years [range(from_year, to_year + 1)] spanned by a range of dates. *)
Definition years_spanned (from_date to_date : date) : list Z :=
  seqZ (datetime.year from_date)
    (datetime.year to_date + 1 - datetime.year from_date).

(** The end of [_ord2ymd]: month and day of the [n]-th day, counted from 0,
    of a year that is a leap year or not. *)
Definition month_day (n : Z) (leapyear : bool) : Z * Z :=
  let month := Z.shiftr (n + 50) 5 in
  let preceding :=
    _DAYS_BEFORE_MONTH month
    + (if (2 <? month) && leapyear then 1 else 0) in
  if n <? preceding then
    let month := month - 1 in
    let preceding :=
      preceding
      - (_DAYS_IN_MONTH month
         + (if (month =? 2) && leapyear then 1 else 0)) in
    (month, n - preceding + 1)
  else (month, n - preceding + 1).

(** The checks on [month_day] made day by day in [month_day_ok_all]. *)
Definition month_day_ok (leap : bool) (n : Z) : bool :=
  let '(m, d) := month_day n leap in
  (1 <=? m) && (m <=? 12) && (1 <=? d) && (d <=? 31)
  && (_DAYS_BEFORE_MONTH m + (if (2 <? m) && leap then 1 else 0) + d =? n + 1).

(** ** More of [datetime.date] and of [hudy/utils/date.py] *)

(** [_days_in_month(year, month)] *)
Definition _days_in_month (year month : Z) : Z :=
  if (month =? 2) && _is_leap year then 29 else _DAYS_IN_MONTH month.

(** The check on [month_day] and [_days_in_month] made day by day in
    [month_day_in_month_all]. *)
Definition month_day_in_month (leap : bool) (n : Z) : bool :=
  let '(m, d) := month_day n leap in
  d <=? (if (m =? 2) && leap then 29 else _DAYS_IN_MONTH m).

(** The check on the month table made month by month in
    [month_table_all]: each month starts where the one before it ends. *)
Definition month_table_ok (leap : bool) (m : Z) : bool :=
  let before m := _DAYS_BEFORE_MONTH m + (if (2 <? m) && leap then 1 else 0) in
  let within m := if (m =? 2) && leap then 29 else _DAYS_IN_MONTH m in
  (1 <=? within m)
  && (if m =? 12 then before m + within m =? (if leap then 366 else 365)
      else before m + within m =? before (m + 1)).

(** Python's order on tuples [(year, month, day)], which is how [date]
    values compare. *)
Definition ymd_compare (a b : Z * Z * Z) : comparison :=
  match a.1.1 ?= b.1.1 with
  | Eq => match a.1.2 ?= b.1.2 with
          | Eq => a.2 ?= b.2
          | c => c
          end
  | c => c
  end.

(** [delta = to_date - from_date; delta.days + 1] *)
Definition days_between (from_date to_date : date) : Z :=
  (to_date - from_date) + 1.

Definition is_same_day (date1 date2 : date) : bool := date1 =? date2.

(** [s.split(sep)] for a separator of one character. *)
Fixpoint str_split (sep : ascii) (s : string) : list string :=
  match s with
  | EmptyString => [EmptyString]
  | String c s =>
      if Ascii.eqb c sep then EmptyString :: str_split sep s
      else
        match str_split sep s with
        | part :: parts => String c part :: parts
        | [] => [String c EmptyString]
        end
  end.

(** The value of a string of ASCII digits read in base 10 after [acc];
    [None] when a character is not an ASCII digit. *)
Fixpoint digits_value (s : string) (acc : Z) : option Z :=
  match s with
  | EmptyString => Some acc
  | String c s =>
      let n := Z.of_N (N_of_ascii c) in
      if (48 <=? n) && (n <=? 57) then digits_value s (10 * acc + (n - 48))
      else None
  end.

(** [int(s)] on the strings this development needs: the empty string, for
    which [int] raises [ValueError], and the strings of at most 4300 ASCII
    digits, which [int] reads in base 10, leading zeros allowed.  The other
    strings, among which Python accepts signs, surrounding spaces,
    underscores between digits and digits of other scripts, and refuses the
    numbers longer than its limit on conversions, are outside this model:
    [None]. *)
Definition py_int (s : string) : option (result Z) :=
  match s with
  | EmptyString => Some (Raise ValueError)
  | _ =>
      if (4300 <? String.length s)%nat then None
      else
        match digits_value s 0 with
        | Some v => Some (Ok v)
        | None => None
        end
  end.

(** [date(year, month, day)]: [OverflowError] for an argument that does not
    fit a C [int], [ValueError] for one outside the calendar. *)
Definition date_new (year month day : Z) : result date :=
  let fits n := (-2147483648 <=? n) && (n <=? 2147483647) in
  if negb (fits year && fits month && fits day) then Raise OverflowError
  else if negb ((1 <=? year) && (year <=? 9999)) then Raise ValueError
  else if negb ((1 <=? month) && (month <=? 12)) then Raise ValueError
  else if negb ((1 <=? day) && (day <=? _days_in_month year month))
  then Raise ValueError
  else Ok (_ymd2ord year month day).

(** [parse_date] of [hudy/utils/date.py].  With other than three parts the
    unpacking raises [ValueError] whatever [int] does on the parts; with
    three, the result is [None] when a part is outside the model of
    [py_int]. *)
Definition parse_date (date_str : string) : option (result date) :=
  match str_split "-" date_str with
  | [y; m; d] =>
      match py_int y with
      | None => None
      | Some (Raise e) => Some (Raise e)
      | Some (Ok year) =>
          match py_int m with
          | None => None
          | Some (Raise e) => Some (Raise e)
          | Some (Ok month) =>
              match py_int d with
              | None => None
              | Some (Raise e) => Some (Raise e)
              | Some (Ok day) => Some (date_new year month day)
              end
          end
      end
  | _ => Some (Raise ValueError)
  end.

(** [Holiday.validate_date_format] of [hudy/types.py]: the string itself when
    it is accepted, [ValueError] when it is not, [None] when a part is
    outside the model of [py_int]. *)
Definition validate_date_format (v : string) : option (result string) :=
  match str_split "-" v with
  | [y; m; d] =>
      match py_int y with
      | None => None
      | Some (Raise _) => Some (Raise ValueError)
      | Some (Ok year) =>
          match py_int m with
          | None => None
          | Some (Raise _) => Some (Raise ValueError)
          | Some (Ok month) =>
              match py_int d with
              | None => None
              | Some (Raise _) => Some (Raise ValueError)
              | Some (Ok day) =>
                  if negb ((1900 <=? year) && (year <=? 2100)
                           && (1 <=? month) && (month <=? 12)
                           && (1 <=? day) && (day <=? 31))
                  then Some (Raise ValueError)
                  else Some (Ok v)
              end
          end
      end
  | _ => Some (Raise ValueError)
  end.

(** ** [hudy/errors.py] *)

Inductive ErrorCode : Set :=
| NETWORK_ERROR | TIMEOUT | UNAUTHORIZED | FORBIDDEN | NOT_FOUND
| RATE_LIMITED | BAD_REQUEST | INTERNAL_ERROR | INVALID_RESPONSE.

Module HudyError.

Record t : Set := mk {
  message : string;
  code : ErrorCode;
  status_code : option Z;
  retryable : bool
}.

Definition from_response (status : Z) (message : string) : t :=
  if status =? 401 then mk message UNAUTHORIZED (Some status) false
  else if status =? 403 then mk message FORBIDDEN (Some status) false
  else if status =? 404 then mk message NOT_FOUND (Some status) false
  else if status =? 429 then mk message RATE_LIMITED (Some status) true
  else if status =? 400 then mk message BAD_REQUEST (Some status) false
  else mk message INTERNAL_ERROR (Some status) (500 <=? status).

Definition network_error (message : string) : t :=
  mk message NETWORK_ERROR None true.

Definition timeout (message : string) : t :=
  mk message TIMEOUT None true.

Definition invalid_response (message : string) : t :=
  mk message INVALID_RESPONSE None false.

End HudyError.

(** ** [hudy/client.py] *)

(** What a client method can raise: a built-in [ValueError] or
    [OverflowError], a [HudyError], or the [TypeError] of [raise None]. *)
Inductive client_exn : Set :=
| Builtin (e : exn)
| Hudy (e : HudyError.t)
| TypeError.

Inductive outcome (A : Type) : Type :=
| Return (a : A)
| Throw (e : client_exn).
Arguments Return {A} a.
Arguments Throw {A} e.

(** The environment of a client.  [float] stands for Python's floats with
    the two operations the retry loop uses on them; [world] is the state of
    the network, the server and the clock.  [_execute_request url] is the
    HTTP exchange of [HudyClient._execute_request], which returns the
    holidays of the response or raises a [HudyError], every other exception
    being wrapped into one; [sleep] is [time.sleep], which raises
    [ValueError] on a negative delay ([None]); [time_time] and [now_year]
    are the readings of [time.time()] and [datetime.now().year] in a state
    of the world. *)
Record Env : Type := mkEnv {
  float : Type;
  fmul : float → float → float;
  fmin : float → float → float;
  world : Type;
  _execute_request : string → world → world * (HudyError.t + list Holiday.t);
  sleep : float → world → option world;
  time_time : world → binary64;
  now_year : world → Z
}.

Module RetryOptions.
Record t (float : Type) : Type := mk {
  enabled : bool;
  max_retries : Z;
  initial_delay : float;
  max_delay : float;
  backoff_factor : float
}.
Arguments mk {float}.
Arguments enabled {float}.
Arguments max_retries {float}.
Arguments initial_delay {float}.
Arguments max_delay {float}.
Arguments backoff_factor {float}.
End RetryOptions.

Module CacheOptions.
Record t : Type := mk {
  enabled : bool;
  ttl : option Z
}.
End CacheOptions.

Module ClientOptions.
Record t (float : Type) : Type := mk {
  api_key : string;
  base_url : string;
  timeout : float;
  cache : CacheOptions.t;
  retry : RetryOptions.t float
}.
Arguments mk {float}.
Arguments api_key {float}.
Arguments base_url {float}.
Arguments timeout {float}.
Arguments cache {float}.
Arguments retry {float}.
End ClientOptions.

Module HudyClient.

Record t (E : Env) : Type := mk {
  _options : ClientOptions.t (float E);
  _cache : option SmartCache.t
}.
Arguments mk {E}.
Arguments _options {E}.
Arguments _cache {E}.

(** [__init__], from options that [ClientOptions] has validated. *)
Definition __init__ {E : Env} (options : ClientOptions.t (float E)) : t E :=
  let cache_enabled := CacheOptions.enabled (ClientOptions.cache options) in
  let custom_ttl := CacheOptions.ttl (ClientOptions.cache options) in
  {| _options := options;
     _cache :=
       if cache_enabled then Some (SmartCache.__init__ custom_ttl) else None |}.

(** The [for attempt in range(max_retries + 1)] loop of
    [_request_with_retry], over the attempts still to make. *)
Fixpoint _request_with_retry_loop {E : Env} (self : t E) (url : string)
    (attempts : list Z) (last_error : option HudyError.t) (delay : float E)
    (w : world E) : world E * outcome (list Holiday.t) :=
  match attempts with
  | [] =>
      match last_error with
      | Some e => (w, Throw (Hudy e))
      | None => (w, Throw TypeError)
      end
  | attempt :: attempts =>
      let '(w, response) := _execute_request E url w in
      match response with
      | inr data => (w, Return data)
      | inl e =>
          if negb (HudyError.retryable e) then (w, Throw (Hudy e))
          else
            let retry := ClientOptions.retry (_options self) in
            if attempt <? RetryOptions.max_retries retry then
              match sleep E delay w with
              | None => (w, Throw (Builtin ValueError))
              | Some w =>
                  let delay :=
                    fmin E (fmul E delay (RetryOptions.backoff_factor retry))
                      (RetryOptions.max_delay retry) in
                  _request_with_retry_loop self url attempts (Some e) delay w
              end
            else
              _request_with_retry_loop self url attempts (Some e) delay w
      end
  end.

Definition _request_with_retry {E : Env} (self : t E) (url : string)
    (w : world E) : world E * outcome (list Holiday.t) :=
  let retry := ClientOptions.retry (_options self) in
  _request_with_retry_loop self url
    (seqZ 0 (RetryOptions.max_retries retry + 1)) None
    (RetryOptions.initial_delay retry) w.

Definition _request {E : Env} (self : t E) (url : string) (w : world E)
    : world E * outcome (list Holiday.t) :=
  if RetryOptions.enabled (ClientOptions.retry (_options self)) then
    _request_with_retry self url w
  else
    let '(w, response) := _execute_request E url w in
    match response with
    | inr data => (w, Return data)
    | inl e => (w, Throw (Hudy e))
    end.

Definition get_holidays {E : Env} (self : t E) (year : Z) (w : world E)
    : t E * world E * outcome (list Holiday.t) :=
  if negb ((1900 <=? year) && (year <=? 2100)) then
    (self, w, Throw (Builtin ValueError))
  else
    let '(self, cached) :=
      match _cache self with
      | Some cache =>
          let '(cache, cached) := SmartCache.get (time_time E w) cache year in
          ({| _options := _options self; _cache := Some cache |}, cached)
      | None => (self, None)
      end in
    if negb (py_not cached) then (self, w, Return (default [] cached))
    else
      let url :=
        ClientOptions.base_url (_options self)
        +:+ "/v1/holidays?year=" +:+ pretty year in
      let '(w, r) := _request self url w in
      match r with
      | Throw e => (self, w, Throw e)
      | Return holidays =>
          match _cache self with
          | Some cache =>
              let '(cache, r) :=
                SmartCache.set (time_time E w) (now_year E w) cache year
                  holidays in
              let self := {| _options := _options self; _cache := Some cache |} in
              match r with
              | Ok _ => (self, w, Return holidays)
              | Raise e => (self, w, Throw (Builtin e))
              end
          | None => (self, w, Return holidays)
          end
      end.

(** The [for year in range(from_year, to_year + 1)] loop of
    [get_holidays_by_range]. *)
Fixpoint get_holidays_by_range_loop {E : Env} (self : t E) (years : list Z)
    (all_holidays : list Holiday.t) (w : world E)
    : t E * world E * outcome (list Holiday.t) :=
  match years with
  | [] => (self, w, Return all_holidays)
  | year :: years =>
      let '(self, w, r) := get_holidays self year w in
      match r with
      | Throw e => (self, w, Throw e)
      | Return year_holidays =>
          get_holidays_by_range_loop self years
            (all_holidays ++ year_holidays) w
      end
  end.

Definition get_holidays_by_range {E : Env} (self : t E)
    (from_date to_date : date) (w : world E)
    : t E * world E * outcome (list Holiday.t) :=
  if to_date <? from_date then (self, w, Throw (Builtin ValueError))
  else
    let from_year := datetime.year from_date in
    let to_year := datetime.year to_date in
    let from_str := strftime_Ymd from_date in
    let to_str := strftime_Ymd to_date in
    if from_year =? to_year then
      let '(self, w, r) := get_holidays self from_year w in
      match r with
      | Throw e => (self, w, Throw e)
      | Return holidays =>
          (self, w,
           Return (List.filter (SmartCache.in_range from_str to_str) holidays))
      end
    else
      let '(self, w, r) :=
        get_holidays_by_range_loop self
          (seqZ from_year (to_year + 1 - from_year)) [] w in
      match r with
      | Throw e => (self, w, Throw e)
      | Return all_holidays =>
          (self, w,
           Return (List.filter (SmartCache.in_range from_str to_str)
                     all_holidays))
      end.

Definition is_holiday {E : Env} (self : t E) (check_date : date)
    (w : world E) : t E * world E * outcome bool :=
  let year := datetime.year check_date in
  let '(self, w, r) := get_holidays self year w in
  match r with
  | Throw e => (self, w, Throw e)
  | Return holidays =>
      let date_str := strftime_Ymd check_date in
      (self, w,
       Return (existsb (λ h, String.eqb (Holiday.date h) date_str) holidays))
  end.

(** The [for _ in range(366)] loop of [get_next_business_day], with [n]
    iterations left. *)
Fixpoint get_next_business_day_loop {E : Env} (n : nat) (self : t E)
    (year : Z) (holidays : list Holiday.t) (check_date : date) (w : world E)
    : t E * world E * outcome (list Holiday.t) :=
  match n with
  | O => (self, w, Return holidays)
  | S n =>
      match add_timedelta_days check_date 1 with
      | Raise e => (self, w, Throw (Builtin e))
      | Ok check_date =>
          if year <? datetime.year check_date then
            let '(self, w, r) := get_holidays self (year + 1) w in
            match r with
            | Throw e => (self, w, Throw e)
            | Return next_year_holidays =>
                (self, w, Return (holidays ++ next_year_holidays))
            end
          else get_next_business_day_loop n self year holidays check_date w
      end
  end.

Definition get_next_business_day {E : Env} (fuel : nat) (self : t E)
    (from_date : date) (w : world E)
    : option (t E * world E * outcome date) :=
  let year := datetime.year from_date in
  let '(self, w, r) := get_holidays self year w in
  match r with
  | Throw e => Some (self, w, Throw e)
  | Return holidays =>
      let '(self, w, r) :=
        get_next_business_day_loop 366 self year holidays from_date w in
      match r with
      | Throw e => Some (self, w, Throw e)
      | Return holidays =>
          let calculator := BusinessDayCalculator.__init__ holidays in
          match BusinessDayCalculator.get_next_business_day fuel calculator
                  from_date with
          | None => None
          | Some (Ok d) => Some (self, w, Return d)
          | Some (Raise e) => Some (self, w, Throw (Builtin e))
          end
      end
  end.

Definition is_business_day {E : Env} (self : t E) (check_date : date)
    (w : world E) : t E * world E * outcome bool :=
  let year := datetime.year check_date in
  let '(self, w, r) := get_holidays self year w in
  match r with
  | Throw e => (self, w, Throw e)
  | Return holidays =>
      let calculator := BusinessDayCalculator.__init__ holidays in
      (self, w,
       Return (BusinessDayCalculator.is_business_day calculator check_date))
  end.

Definition get_business_days {E : Env} (fuel : nat) (self : t E)
    (from_date to_date : date) (w : world E)
    : option (t E * world E * outcome Z) :=
  if to_date <? from_date then Some (self, w, Throw (Builtin ValueError))
  else
    let '(self, w, r) := get_holidays_by_range self from_date to_date w in
    match r with
    | Throw e => Some (self, w, Throw e)
    | Return holidays =>
        let calculator := BusinessDayCalculator.__init__ holidays in
        match BusinessDayCalculator.count_business_days fuel calculator
                from_date to_date with
        | None => None
        | Some (Ok c) => Some (self, w, Return c)
        | Some (Raise e) => Some (self, w, Throw (Builtin e))
        end
    end.

Definition get_cache_stats {E : Env} (self : t E)
    : Z * Z * Z * list (string * binary64) :=
  match _cache self with
  | Some cache => SmartCache.get_stats cache
  | None => (0, 0, 0, [])
  end.

Definition clear_cache {E : Env} (self : t E) : t E :=
  match _cache self with
  | Some cache =>
      {| _options := _options self; _cache := Some (SmartCache.clear cache) |}
  | None => self
  end.

Definition prune_cache {E : Env} (self : t E) (w : world E) : t E * Z :=
  match _cache self with
  | Some cache =>
      let '(cache, n) := SmartCache.prune (time_time E w) cache in
      ({| _options := _options self; _cache := Some cache |}, n)
  | None => (self, 0)
  end.

End HudyClient.


(** A server that answers its [n]-th request, counted from 0, with
    [script n].  The state of this world is the number of requests made and
    the delays slept so far; [negative] tells the delays [time.sleep]
    refuses. *)
Definition scripted_env (F : Type) (mul min : F → F → F) (negative : F → bool)
    (script : nat → HudyError.t + list Holiday.t) : Env :=
  {| float := F; fmul := mul; fmin := min;
     world := nat * list F;
     _execute_request := λ _ w, ((S w.1, w.2), script w.1);
     sleep := λ d w, if negative d then None else Some (w.1, w.2 ++ [d]);
     time_time := λ _, S754_zero false;
     now_year := λ _, 2024 |}.

(** * Properties *)

Section calendar_properties.

(** ** The calendar: [_ord2ymd] is inverted by [_ymd2ord] *)

Lemma month_day_ok_all :
  forallb (month_day_ok false) (seqZ 0 365) = true
  ∧ forallb (month_day_ok true) (seqZ 0 366) = true.
Proof. split; vm_compute; reflexivity. Qed.

Lemma _days_before_year_of_cycles n400 n100 n4 n1 :
  0 <= n400 -> 0 <= n100 <= 3 -> 0 <= n4 <= 24 -> 0 <= n1 <= 3 ->
  _days_before_year (n400 * 400 + 1 + (n100 * 100 + n4 * 4 + n1))
  = n400 * 146097 + n100 * 36524 + n4 * 1461 + n1 * 365.
Proof.
  intros. unfold _days_before_year.
  Z.div_mod_to_equations; lia.
Qed.

Lemma _is_leap_of_cycles n400 n100 n4 n1 :
  0 <= n400 -> 0 <= n100 <= 3 -> 0 <= n4 <= 24 -> 0 <= n1 <= 3 ->
  _is_leap (n400 * 400 + 1 + (n100 * 100 + n4 * 4 + n1))
  = (n1 =? 3) && (negb (n4 =? 24) || (n100 =? 3)).
Proof.
  intros. unfold _is_leap.
  repeat match goal with
    | |- context [?a =? ?b] => destruct (Z.eqb_spec a b)
    end; simpl; try reflexivity; exfalso; Z.div_mod_to_equations; lia.
Qed.

Lemma month_day_spec (leap : bool) (n : Z) :
  0 <= n < (if leap then 366 else 365) →
  let '(m, d) := month_day n leap in
  1 <= m <= 12 ∧ 1 <= d <= 31
  ∧ _DAYS_BEFORE_MONTH m + (if (2 <? m) && leap then 1 else 0) + d = n + 1.
Proof.
  intros Hn.
  assert (H : month_day_ok leap n = true).
  { destruct month_day_ok_all as [H0 H1].
    destruct leap.
    - rewrite forallb_forall in H1. apply H1, list_elem_of_In, elem_of_seqZ. lia.
    - rewrite forallb_forall in H0. apply H0, list_elem_of_In, elem_of_seqZ. lia. }
  unfold month_day_ok in H. destruct (month_day n leap) as [m d].
  rewrite !andb_true_iff, !Z.leb_le, Z.eqb_eq in H. lia.
Qed.

Lemma _ord2ymd_unfold n :
  _ord2ymd n =
    let n := n - 1 in
    let n400 := n / _DI400Y in
    let n := n mod _DI400Y in
    let n100 := n / _DI100Y in
    let n := n mod _DI100Y in
    let n4 := n / _DI4Y in
    let n := n mod _DI4Y in
    let n1 := n / 365 in
    let n := n mod 365 in
    let year := n400 * 400 + 1 + (n100 * 100 + n4 * 4 + n1) in
    if (n1 =? 4) || (n100 =? 4) then (year - 1, 12, 31)
    else
      let leapyear := (n1 =? 3) && (negb (n4 =? 24) || (n100 =? 3)) in
      let '(m, d) := month_day n leapyear in (year, m, d).
Proof.
  unfold _ord2ymd, month_day. cbv zeta.
  repeat match goal with |- context [if ?b then _ else _] => destruct b end; reflexivity.
Qed.

Lemma _ord2ymd_spec n :
  valid_date n →
  let '(y, m, d) := _ord2ymd n in
  _ymd2ord y m d = n ∧ 1 <= y <= 9999 ∧ 1 <= m <= 12 ∧ 1 <= d <= 31.
Proof.
  intros [Hn1 Hn2]. unfold _MAXORDINAL in Hn2.
  rewrite _ord2ymd_unfold. cbv zeta. unfold _DI400Y, _DI100Y, _DI4Y.
  pose proof (Z.div_mod (n - 1) 146097 ltac:(lia)) as E1.
  pose proof (Z.mod_pos_bound (n - 1) 146097 ltac:(lia)) as B1.
  set (n400 := (n - 1) / 146097) in *. set (r1 := (n - 1) mod 146097) in *.
  pose proof (Z.div_mod r1 36524 ltac:(lia)) as E2.
  pose proof (Z.mod_pos_bound r1 36524 ltac:(lia)) as B2.
  set (n100 := r1 / 36524) in *. set (r2 := r1 mod 36524) in *.
  pose proof (Z.div_mod r2 1461 ltac:(lia)) as E3.
  pose proof (Z.mod_pos_bound r2 1461 ltac:(lia)) as B3.
  set (n4 := r2 / 1461) in *. set (r3 := r2 mod 1461) in *.
  pose proof (Z.div_mod r3 365 ltac:(lia)) as E4.
  pose proof (Z.mod_pos_bound r3 365 ltac:(lia)) as B4.
  set (n1 := r3 / 365) in *. set (r4 := r3 mod 365) in *.
  clearbody n400 r1 n100 r2 n4 r3 n1 r4.
  assert (0 <= n400 <= 24) by lia.
  assert (0 <= n100 <= 4) by lia.
  assert (0 <= n4 <= 24) by lia.
  assert (0 <= n1 <= 4) by lia.
  destruct (Z.eqb_spec n1 4) as [H14|H14]; simpl.
  - unfold _ymd2ord, _days_before_month, _days_before_year, _is_leap. simpl.
    assert (n100 <= 3) by lia. assert (n4 <= 23) by lia.
    replace ((n400 * 400 + 1 + (n100 * 100 + n4 * 4 + n1) - 1) mod 4 =? 0) with true.
    2:{ symmetry. apply Z.eqb_eq. Z.div_mod_to_equations. lia. }
    replace ((n400 * 400 + 1 + (n100 * 100 + n4 * 4 + n1) - 1) mod 100 =? 0) with false.
    2:{ symmetry. apply Z.eqb_neq. Z.div_mod_to_equations. lia. }
    simpl. split; [|lia]. Z.div_mod_to_equations. lia.
  - destruct (Z.eqb_spec n100 4) as [H1004|H1004]; simpl.
    + unfold _ymd2ord, _days_before_month, _days_before_year, _is_leap. simpl.
      assert (n4 = 0 ∧ n1 = 0 ∧ r4 = 0) as (-> & -> & ->) by lia.
      replace ((n400 * 400 + 1 + (n100 * 100 + 0 * 4 + 0) - 1) mod 4 =? 0) with true.
      2:{ symmetry. apply Z.eqb_eq. Z.div_mod_to_equations. lia. }
      replace ((n400 * 400 + 1 + (n100 * 100 + 0 * 4 + 0) - 1) mod 400 =? 0) with true.
      2:{ symmetry. apply Z.eqb_eq. Z.div_mod_to_equations. lia. }
      rewrite orb_true_r. simpl. split; [|lia]. Z.div_mod_to_equations. lia.
    + set (leap := (n1 =? 3) && (negb (n4 =? 24) || (n100 =? 3))).
      assert (Hr4 : 0 <= r4 < (if leap then 366 else 365)).
      { destruct leap; lia. }
      pose proof (month_day_spec leap r4 Hr4) as Hmd.
      destruct (month_day r4 leap) as [m d].
      destruct Hmd as (Hm & Hd & Hsum).
      split; [|lia].
      unfold _ymd2ord, _days_before_month.
      rewrite _is_leap_of_cycles by lia. fold leap.
      rewrite _days_before_year_of_cycles by lia. lia.
Qed.

Lemma digit_inj a b : digit a = digit b → a mod 10 = b mod 10.
Proof.
  unfold digit. intros H.
  apply (f_equal N_of_ascii) in H.
  pose proof (Z.mod_pos_bound a 10 ltac:(lia)).
  pose proof (Z.mod_pos_bound b 10 ltac:(lia)).
  rewrite !N_ascii_embedding in H by lia. lia.
Qed.

Lemma pad2_inj a b :
  0 <= a < 100 → 0 <= b < 100 → pad2 a = pad2 b → a = b.
Proof.
  unfold pad2. intros Ha Hb [= H1 H2].
  apply digit_inj in H1, H2. Z.div_mod_to_equations. lia.
Qed.

Lemma pad4_inj a b :
  0 <= a < 10000 → 0 <= b < 10000 → pad4 a = pad4 b → a = b.
Proof.
  unfold pad4, pad2. intros Ha Hb [= H1 H2 H3 H4].
  apply digit_inj in H1, H2, H3, H4. Z.div_mod_to_equations. lia.
Qed.

Lemma append_String c s t : String c s +:+ t = String c (s +:+ t).
Proof. reflexivity. Qed.

Lemma append_empty s : "" +:+ s = s.
Proof. reflexivity. Qed.

Lemma digit_code n : Z.of_N (N_of_ascii (digit n)) = 48 + n mod 10.
Proof.
  unfold digit. pose proof (Z.mod_pos_bound n 10 ltac:(lia)).
  rewrite N_ascii_embedding by lia. lia.
Qed.

Lemma digit_neq_dash n : digit n ≠ "-"%char.
Proof.
  intros H. apply (f_equal (λ c, Z.of_N (N_of_ascii c))) in H.
  rewrite digit_code in H. simpl in H.
  pose proof (Z.mod_pos_bound n 10 ltac:(lia)). lia.
Qed.

(** From year 1000 on the year is written on four digits. *)
Lemma strftime_Y_pad4 y : 1000 <= y → strftime_Y y = pad4 y.
Proof.
  intros Hy. unfold strftime_Y.
  destruct (Z.ltb_spec y 10), (Z.ltb_spec y 100), (Z.ltb_spec y 1000);
    first [lia | done].
Qed.

(** The year is read off a formatted date up to its first ["-"]. *)
Lemma strftime_Y_inj a b s t :
  1 <= a <= 9999 → 1 <= b <= 9999 →
  strftime_Y a +:+ String "-" s = strftime_Y b +:+ String "-" t →
  a = b ∧ s = t.
Proof.
  intros Ha Hb. unfold strftime_Y, pad4, pad2.
  destruct (Z.ltb_spec a 10), (Z.ltb_spec a 100), (Z.ltb_spec a 1000);
    try lia;
    destruct (Z.ltb_spec b 10), (Z.ltb_spec b 100), (Z.ltb_spec b 1000);
    try lia;
    rewrite !append_String, !append_empty; intros Heq; simplify_eq;
    repeat match goal with
      | E : digit _ = "-"%char |- _ => by destruct (digit_neq_dash _ E)
      | E : "-"%char = digit _ |- _ =>
          symmetry in E; by destruct (digit_neq_dash _ E)
      | E : digit _ = digit _ |- _ => apply digit_inj in E
      end;
    (split; [Z.div_mod_to_equations; lia | done]).
Qed.

Lemma strftime_Ymd_inj a b :
  valid_date a → valid_date b → strftime_Ymd a = strftime_Ymd b → a = b.
Proof.
  intros Ha Hb. unfold strftime_Ymd, year, month, day.
  pose proof (_ord2ymd_spec a Ha) as Sa.
  pose proof (_ord2ymd_spec b Hb) as Sb.
  destruct (_ord2ymd a) as [[ya ma] da], (_ord2ymd b) as [[yb mb] db].
  simpl. intros H.
  destruct Sa as (<- & Rya & Rma & Rda), Sb as (<- & Ryb & Rmb & Rdb).
  apply strftime_Y_inj in H as [-> H]; [|lia..].
  unfold pad2 in H. rewrite !append_String, !append_empty in H.
  injection H as E1 E2 E3 E4.
  apply digit_inj in E1, E2, E3, E4.
  assert (ma = mb) as -> by (Z.div_mod_to_equations; lia).
  assert (da = db) as -> by (Z.div_mod_to_equations; lia).
  done.
Qed.

End calendar_properties.

Section calculator_properties.

Import BusinessDayCalculator.

(** ** The business-day predicate *)




Example canonical_date_string_examples :
  canonical_date_string (mkdate 2024 1 1) = "2024-01-01"
  ∧ format_date (mkdate 2024 1 1) = "2024-01-01"
  ∧ canonical_date_string (mkdate 999 1 4) = "0999-01-04"
  ∧ format_date (mkdate 999 1 4) = "999-01-04"
  ∧ format_date (mkdate 1 1 1) = "1-01-01".
Proof. repeat split; vm_compute; reflexivity. Qed.




(** Membership is by the characters of the string: a holiday whose [date]
    is written ["2024-1-1"] does not make Monday 2024-01-01 a holiday, one
    written ["2024-01-01"] does. *)
Example is_business_day_exact_string :
  let h s := Holiday.mk "h1" "New Year" s 2024 1 1 "Monday" public in
  is_business_day (__init__ [h "2024-1-1"]) (mkdate 2024 1 1) = true
  ∧ is_business_day (__init__ [h "2024-01-01"]) (mkdate 2024 1 1) = false.
Proof. split; vm_compute; reflexivity. Qed.

(** C9.  [add_business_days(d, 0)] returns [d], whatever the holidays and
    whether or not [d] is a business day. *)
Theorem add_business_days_zero (fuel : nat) (self : BusinessDayCalculator.t)
    (d : date) :
  add_business_days fuel self d 0 = Some (Ok d).
Proof. reflexivity. Qed.

(** ** Stepping through the calendar *)

Lemma add_days_Ok (d days e : Z) :
  add_days d days = Ok e ↔ e = d + days ∧ valid_date (d + days).
Proof.
  unfold add_days, add_timedelta_days, valid_date.
  destruct (Z.ltb_spec 0 (d + days)), (Z.leb_spec (d + days) _MAXORDINAL);
    simpl; split; try (intros [= <-]); try (intros [-> ?]);
    first [done | lia | split; [done|lia]].
Qed.

Lemma add_days_Raise (d days : Z) (e : exn) :
  add_days d days = Raise e ↔ e = OverflowError ∧ ¬ valid_date (d + days).
Proof.
  unfold add_days, add_timedelta_days, valid_date.
  destruct (Z.ltb_spec 0 (d + days)), (Z.leb_spec (d + days) _MAXORDINAL);
    simpl; split; try (intros [= <-]); try (intros [-> ?]);
    first [done | lia | split; [done|lia]].
Qed.

Lemma add_days_total (d days : Z) :
  (valid_date (d + days) ∧ add_days d days = Ok (d + days))
  ∨ (¬ valid_date (d + days) ∧ add_days d days = Raise OverflowError).
Proof.
  destruct (add_days d days) as [e|e] eqn:E.
  - apply add_days_Ok in E as [-> ?]. by left.
  - apply add_days_Raise in E as [-> ?]. by right.
Qed.

Lemma business_days_between_empty self from_date to_date :
  to_date < from_date → business_days_between self from_date to_date = [].
Proof.
  intros H. unfold business_days_between.
  rewrite seqZ_nil by lia. done.
Qed.

Lemma business_days_between_cons self from_date to_date :
  from_date <= to_date →
  business_days_between self from_date to_date =
    (if is_business_day self from_date then [from_date] else [])
    ++ business_days_between self (from_date + 1) to_date.
Proof.
  intros H. unfold business_days_between.
  rewrite seqZ_cons by lia. simpl.
  replace (Z.succ from_date) with (from_date + 1) by lia.
  replace (Z.pred (to_date + 1 - from_date))
    with (to_date + 1 - (from_date + 1)) by lia.
  by destruct (is_business_day self from_date).
Qed.

Lemma elem_of_business_days_between self from_date to_date d :
  d ∈ business_days_between self from_date to_date ↔
  from_date <= d <= to_date ∧ is_business_day self d = true.
Proof.
  unfold business_days_between.
  rewrite list_elem_of_In, filter_In, <- list_elem_of_In, elem_of_seqZ.
  intuition lia.
Qed.

Lemma count_business_days_loop_spec self to_date :
  to_date < _MAXORDINAL →
  ∀ fuel current count,
    1 <= current <= to_date + 1 →
    (Z.to_nat (to_date + 1 - current) < fuel)%nat →
    count_business_days_loop fuel self to_date current count =
      Some (Ok (count
                + Z.of_nat (length (business_days_between self current to_date)))).
Proof.
  intros Hmax fuel. induction fuel as [|fuel IH]; intros current count Hc Hf.
  - lia.
  - simpl. destruct (Z.leb_spec current to_date) as [Hle|Hgt].
    + destruct (add_days_total current 1) as [[_ ->]|[Hv _]];
        [|unfold valid_date in Hv; lia].
      rewrite IH by lia.
      rewrite (business_days_between_cons self current) by done.
      rewrite length_app, Nat2Z.inj_add.
      destruct (is_business_day self current); cbn [length];
        apply (f_equal Some), (f_equal Ok); lia.
    + rewrite business_days_between_empty by lia. cbn [length].
      apply (f_equal Some), (f_equal Ok). lia.
Qed.

Lemma get_business_days_in_range_loop_spec self to_date :
  to_date < _MAXORDINAL →
  ∀ fuel current business_days,
    1 <= current <= to_date + 1 →
    (Z.to_nat (to_date + 1 - current) < fuel)%nat →
    get_business_days_in_range_loop fuel self to_date current business_days =
      Some (Ok (business_days ++ business_days_between self current to_date)).
Proof.
  intros Hmax fuel. induction fuel as [|fuel IH];
    intros current business_days Hc Hf.
  - lia.
  - simpl. destruct (Z.leb_spec current to_date) as [Hle|Hgt].
    + destruct (add_days_total current 1) as [[_ ->]|[Hv _]];
        [|unfold valid_date in Hv; lia].
      rewrite IH by lia.
      rewrite (business_days_between_cons self current) by done.
      destruct (is_business_day self current); simpl;
        by rewrite <- ?app_assoc.
    + rewrite business_days_between_empty by lia.
      by rewrite app_nil_r.
Qed.

(** When the range ends on the last date there is, both loops step past it
    and [add_days] raises. *)
Lemma count_business_days_loop_overflow self :
  ∀ fuel current count,
    1 <= current <= _MAXORDINAL →
    (Z.to_nat (_MAXORDINAL - current) < fuel)%nat →
    count_business_days_loop fuel self _MAXORDINAL current count =
      Some (Raise OverflowError).
Proof.
  intros fuel. induction fuel as [|fuel IH]; intros current count Hc Hf.
  - lia.
  - simpl. destruct (Z.leb_spec current _MAXORDINAL) as [Hle|Hgt]; [|lia].
    destruct (add_days_total current 1) as [[Hv ->]|[_ ->]]; [|done].
    unfold valid_date in Hv. apply IH; lia.
Qed.

Lemma get_business_days_in_range_loop_overflow self :
  ∀ fuel current business_days,
    1 <= current <= _MAXORDINAL →
    (Z.to_nat (_MAXORDINAL - current) < fuel)%nat →
    get_business_days_in_range_loop fuel self _MAXORDINAL current business_days =
      Some (Raise OverflowError).
Proof.
  intros fuel. induction fuel as [|fuel IH];
    intros current business_days Hc Hf.
  - lia.
  - simpl. destruct (Z.leb_spec current _MAXORDINAL) as [Hle|Hgt]; [|lia].
    destruct (add_days_total current 1) as [[Hv ->]|[_ ->]]; [|done].
    unfold valid_date in Hv. apply IH; lia.
Qed.

Lemma count_business_days_loop_Raise self to_date e :
  ∀ fuel current count,
    count_business_days_loop fuel self to_date current count = Some (Raise e) →
    e = OverflowError.
Proof.
  intros fuel. induction fuel as [|fuel IH]; intros current count; simpl.
  - done.
  - destruct (current <=? to_date); [|done].
    destruct (add_days current 1) as [c|e'] eqn:E.
    + apply IH.
    + intros [= <-]. by apply add_days_Raise in E as [-> _].
Qed.

Lemma get_business_days_in_range_loop_Raise self to_date e :
  ∀ fuel current business_days,
    get_business_days_in_range_loop fuel self to_date current business_days
      = Some (Raise e) →
    e = OverflowError.
Proof.
  intros fuel. induction fuel as [|fuel IH]; intros current business_days; simpl.
  - done.
  - destruct (current <=? to_date); [|done].
    destruct (add_days current 1) as [c|e'] eqn:E.
    + apply IH.
    + intros [= <-]. by apply add_days_Raise in E as [-> _].
Qed.

(** [ValueError] is raised by the range check and by nothing else. *)
Lemma count_business_days_ValueError fuel self from_date to_date :
  count_business_days fuel self from_date to_date = Some (Raise ValueError)
  ↔ from_date > to_date.
Proof.
  unfold count_business_days.
  destruct (Z.ltb_spec to_date from_date) as [Hlt|Hge].
  - split; [lia|done].
  - split; [|lia]. intros H.
    by apply count_business_days_loop_Raise in H.
Qed.

Lemma get_business_days_in_range_ValueError fuel self from_date to_date :
  get_business_days_in_range fuel self from_date to_date
    = Some (Raise ValueError)
  ↔ from_date > to_date.
Proof.
  unfold get_business_days_in_range.
  destruct (Z.ltb_spec to_date from_date) as [Hlt|Hge].
  - split; [lia|done].
  - split; [|lia]. intros H.
    by apply get_business_days_in_range_loop_Raise in H.
Qed.

(** For a range that ends before 9999-12-31 the two methods return the count
    and the list of the business days of the range. *)
Lemma count_business_days_spec fuel self from_date to_date :
  valid_date from_date → from_date <= to_date → to_date < _MAXORDINAL →
  (Z.to_nat (to_date + 1 - from_date) < fuel)%nat →
  count_business_days fuel self from_date to_date =
    Some (Ok (Z.of_nat (length (business_days_between self from_date to_date))))
  ∧ get_business_days_in_range fuel self from_date to_date =
    Some (Ok (business_days_between self from_date to_date)).
Proof.
  intros [Hv1 Hv2] Hle Hmax Hf.
  unfold count_business_days, get_business_days_in_range.
  destruct (Z.ltb_spec to_date from_date) as [Hlt|_]; [lia|].
  rewrite count_business_days_loop_spec by (done || lia).
  rewrite get_business_days_in_range_loop_spec by (done || lia).
  done.
Qed.

(** For a range that ends on 9999-12-31 they raise [OverflowError]. *)
Lemma count_business_days_overflow fuel self from_date :
  valid_date from_date →
  (Z.to_nat (_MAXORDINAL - from_date) < fuel)%nat →
  count_business_days fuel self from_date _MAXORDINAL
    = Some (Raise OverflowError)
  ∧ get_business_days_in_range fuel self from_date _MAXORDINAL
    = Some (Raise OverflowError).
Proof.
  intros [Hv1 Hv2] Hf.
  unfold count_business_days, get_business_days_in_range.
  destruct (Z.ltb_spec _MAXORDINAL from_date) as [Hlt|_]; [lia|].
  rewrite count_business_days_loop_overflow by (done || lia).
  rewrite get_business_days_in_range_loop_overflow by (done || lia).
  done.
Qed.

(** C4 at the range [[9999-12-31, 9999-12-31]], with no holidays.  The day is
    a Friday and a business day, so the count the claim gives is 1 and the
    list is that one day; both methods raise [OverflowError] when the loop
    steps past the last date. *)
Theorem count_business_days_last_date :
  let self := __init__ [] in
  let d := mkdate 9999 12 31 in
  business_days_between self d d = [d]
  ∧ (∀ fuel, count_business_days (S fuel) self d d = Some (Raise OverflowError))
  ∧ (∀ fuel,
       get_business_days_in_range (S fuel) self d d = Some (Raise OverflowError)).
Proof.
  split; [vm_compute; reflexivity|].
  split; intros fuel; destruct fuel; vm_compute; reflexivity.
Qed.

(** ** Seeking the next or the previous business day *)

(** What the loop returns: the first business day met from [current] on, or
    [OverflowError] when there is none up to the end of the calendar. *)
Lemma seek_business_day_loop_sound self step :
  step = 1 ∨ step = -1 →
  ∀ fuel current r,
    valid_date current →
    seek_business_day_loop fuel self step current = Some r →
    match r with
    | Ok e =>
        ∃ k, 0 <= k ∧ e = current + step * k ∧ valid_date e
             ∧ is_business_day self e = true
             ∧ ∀ i, 0 <= i < k → is_business_day self (current + step * i) = false
    | Raise ex =>
        ex = OverflowError
        ∧ ∀ i, 0 <= i → valid_date (current + step * i) →
               is_business_day self (current + step * i) = false
    end.
Proof.
  intros Hstep fuel. induction fuel as [|fuel IH]; intros current r Hv; simpl.
  - done.
  - destruct (is_business_day self current) eqn:Hbd; simpl.
    + intros [= <-]. exists 0. rewrite Z.mul_0_r, Z.add_0_r.
      split; [lia|]. do 3 (split; [done|]). intros i Hi. lia.
    + destruct (add_days_total current step) as [[Hv' ->]|[Hv' ->]].
      * intros Hr. specialize (IH _ _ Hv' Hr). destruct r as [e|ex].
        -- destruct IH as (k & Hk & -> & Hve & Hbe & Hbefore).
           exists (k + 1). split; [lia|]. split; [lia|]. do 2 (split; [done|]).
           intros i Hi. destruct (decide (i = 0)) as [->|Hne].
           ++ by rewrite Z.mul_0_r, Z.add_0_r.
           ++ replace (current + step * i)
                with (current + step + step * (i - 1)) by lia.
              apply Hbefore. lia.
        -- destruct IH as (-> & Hall). split; [done|].
           intros i Hi Hvi. destruct (decide (i = 0)) as [->|Hne].
           ++ by rewrite Z.mul_0_r, Z.add_0_r.
           ++ replace (current + step * i)
                with (current + step + step * (i - 1)) by lia.
              apply Hall; [lia|].
              by replace (current + step + step * (i - 1))
                with (current + step * i) by lia.
      * intros [= <-]. split; [done|].
        intros i Hi Hvi. destruct (decide (i = 0)) as [->|Hne].
        -- by rewrite Z.mul_0_r, Z.add_0_r.
        -- exfalso. apply Hv'. unfold valid_date in *.
           destruct Hstep as [-> | ->]; lia.
Qed.

(** The loop finishes within the steps that are left before the end of the
    calendar in its direction. *)
Lemma seek_business_day_loop_terminates self step :
  step = 1 ∨ step = -1 →
  ∀ fuel current,
    valid_date current →
    (Z.to_nat (if decide (step = 1) then _MAXORDINAL - current
               else current - 1)%Z < fuel)%nat →
    ∃ r, seek_business_day_loop fuel self step current = Some r.
Proof.
  intros Hstep fuel. induction fuel as [|fuel IH]; intros current Hv Hf; simpl.
  - lia.
  - destruct (is_business_day self current); simpl; [eauto|].
    destruct (add_days_total current step) as [[Hv' ->]|[Hv' ->]]; [|eauto].
    apply IH; [done|].
    unfold valid_date in *.
    destruct Hstep as [-> | ->]; repeat case_decide; try done; lia.
Qed.

(** If a business day lies [k] steps ahead, the loop returns the first
    business day on the way to it. *)
Lemma seek_business_day_loop_finds self step :
  step = 1 ∨ step = -1 →
  ∀ fuel current k,
    0 <= k → (Z.to_nat k < fuel)%nat →
    valid_date current → valid_date (current + step * k) →
    is_business_day self (current + step * k) = true →
    ∃ j, 0 <= j <= k
         ∧ seek_business_day_loop fuel self step current
           = Some (Ok (current + step * j))
         ∧ is_business_day self (current + step * j) = true
         ∧ ∀ i, 0 <= i < j → is_business_day self (current + step * i) = false.
Proof.
  intros Hstep fuel. induction fuel as [|fuel IH];
    intros current k Hk Hf Hv Hvk Hbd; simpl.
  - lia.
  - destruct (is_business_day self current) eqn:H0; simpl.
    + exists 0. rewrite Z.mul_0_r, Z.add_0_r.
      split; [lia|]. do 2 (split; [done|]). intros i Hi. lia.
    + assert (Hne : k ≠ 0).
      { intros ->. rewrite Z.mul_0_r, Z.add_0_r in Hbd. congruence. }
      destruct (add_days_total current step) as [[Hv' ->]|[Hv' _]].
      * destruct (IH (current + step) (k - 1)) as (j & Hj & Hr & Hbj & Hbefore);
          try done; try lia.
        { by replace (current + step + step * (k - 1))
            with (current + step * k) by lia. }
        { by replace (current + step + step * (k - 1))
            with (current + step * k) by lia. }
        exists (j + 1).
        replace (current + step * (j + 1))
          with (current + step + step * j) by lia.
        split; [lia|]. do 2 (split; [done|]).
        intros i Hi. destruct (decide (i = 0)) as [->|Hi0].
        -- by rewrite Z.mul_0_r, Z.add_0_r.
        -- replace (current + step * i)
             with (current + step + step * (i - 1)) by lia.
           apply Hbefore. lia.
      * exfalso. apply Hv'. unfold valid_date in *.
        destruct Hstep as [-> | ->]; lia.
Qed.

(** C5, as the code has it.  When some business day lies after [from_date],
    [get_next_business_day(from_date)] returns the earliest business day
    strictly after [from_date], and so never [from_date] itself; when none
    does, up to 9999-12-31, it raises [OverflowError].  Symmetrically
    [get_previous_business_day(from_date)] returns the latest business day
    strictly before [from_date], and raises [OverflowError] when there is
    none back to 0001-01-01. *)
Theorem get_next_previous_business_day_spec (fuel : nat)
    (self : BusinessDayCalculator.t) (from_date : date) :
  valid_date from_date →
  (∀ x, valid_date x → from_date < x → is_business_day self x = true →
        (Z.to_nat (x - from_date) <= fuel)%nat →
        ∃ e, get_next_business_day fuel self from_date = Some (Ok e)
             ∧ from_date < e <= x
             ∧ is_business_day self e = true
             ∧ ∀ y, from_date < y < e → is_business_day self y = false)
  ∧ ((∀ x, valid_date x → from_date < x → is_business_day self x = false) →
     (Z.to_nat (_MAXORDINAL - from_date) <= fuel)%nat →
     get_next_business_day fuel self from_date = Some (Raise OverflowError))
  ∧ (∀ x, valid_date x → x < from_date → is_business_day self x = true →
        (Z.to_nat (from_date - x) <= fuel)%nat →
        ∃ e, get_previous_business_day fuel self from_date = Some (Ok e)
             ∧ x <= e < from_date
             ∧ is_business_day self e = true
             ∧ ∀ y, e < y < from_date → is_business_day self y = false)
  ∧ ((∀ x, valid_date x → x < from_date → is_business_day self x = false) →
     (Z.to_nat (from_date - 1) <= fuel)%nat →
     get_previous_business_day fuel self from_date = Some (Raise OverflowError)).
Proof.
  intros Hv. unfold get_next_business_day, get_previous_business_day.
  split; [|split; [|split]].
  - intros x Hvx Hlt Hbd Hf.
    destruct (add_days_total from_date 1) as [[Hv' ->]|[Hv' _]];
      [|unfold valid_date in *; lia].
    destruct (seek_business_day_loop_finds self 1 (or_introl eq_refl) fuel
                (from_date + 1) (x - (from_date + 1)))
      as (j & Hj & Hr & Hbj & Hbefore); try done; try lia.
    { by replace (from_date + 1 + 1 * (x - (from_date + 1))) with x by lia. }
    { by replace (from_date + 1 + 1 * (x - (from_date + 1))) with x by lia. }
    exists (from_date + 1 + 1 * j). split; [done|]. split; [lia|].
    split; [done|]. intros y Hy.
    replace y with (from_date + 1 + 1 * (y - (from_date + 1))) by lia.
    apply Hbefore. lia.
  - intros Hnone Hf.
    destruct (add_days_total from_date 1) as [[Hv' ->]|[_ ->]]; [|done].
    destruct (seek_business_day_loop_terminates self 1 (or_introl eq_refl)
                fuel (from_date + 1) Hv') as [r Hr].
    { rewrite decide_True by done. unfold valid_date in *. lia. }
    rewrite Hr.
    apply (seek_business_day_loop_sound self 1 (or_introl eq_refl)) in Hr;
      [|done].
    destruct r as [e|ex].
    + destruct Hr as (k & Hk & -> & Hve & Hbe & _).
      rewrite Hnone in Hbe; [done|done|lia].
    + by destruct Hr as [-> _].
  - intros x Hvx Hlt Hbd Hf.
    destruct (add_days_total from_date (-1)) as [[Hv' ->]|[Hv' _]];
      [|unfold valid_date in *; lia].
    destruct (seek_business_day_loop_finds self (-1) (or_intror eq_refl) fuel
                (from_date + -1) (from_date + -1 - x))
      as (j & Hj & Hr & Hbj & Hbefore); try done; try lia.
    { by replace (from_date + -1 + -1 * (from_date + -1 - x)) with x by lia. }
    { by replace (from_date + -1 + -1 * (from_date + -1 - x)) with x by lia. }
    exists (from_date + -1 + -1 * j). split; [done|]. split; [lia|].
    split; [done|]. intros y Hy.
    replace y with (from_date + -1 + -1 * (from_date + -1 - y)) by lia.
    apply Hbefore. lia.
  - intros Hnone Hf.
    destruct (add_days_total from_date (-1)) as [[Hv' ->]|[_ ->]]; [|done].
    destruct (seek_business_day_loop_terminates self (-1) (or_intror eq_refl)
                fuel (from_date + -1) Hv') as [r Hr].
    { rewrite decide_False by done. unfold valid_date in *. lia. }
    rewrite Hr.
    apply (seek_business_day_loop_sound self (-1) (or_intror eq_refl)) in Hr;
      [|done].
    destruct r as [e|ex].
    + destruct Hr as (k & Hk & -> & Hve & Hbe & _).
      rewrite Hnone in Hbe; [done|done|lia].
    + by destruct Hr as [-> _].
Qed.

Lemma get_next_previous_business_day_spec_witness :
  let h := Holiday.mk "h1" "New Year" "2024-01-01" 2024 1 1 "Monday" public in
  ∃ e, get_next_business_day 10 (__init__ [h]) (mkdate 2023 12 29) = Some (Ok e)
       ∧ mkdate 2023 12 29 < e <= mkdate 2024 1 5
       ∧ is_business_day (__init__ [h]) e = true
       ∧ ∀ y, mkdate 2023 12 29 < y < e → is_business_day (__init__ [h]) y = false.
Proof.
  intros h.
  apply (proj1 (get_next_previous_business_day_spec 10 (__init__ [h])
                  (mkdate 2023 12 29) ltac:(vm_compute; split; discriminate))
           (mkdate 2024 1 5)).
  - vm_compute. split; discriminate.
  - vm_compute. reflexivity.
  - vm_compute. reflexivity.
  - vm_compute. lia.
Defined.

(** C5 as the claim is worded, at 9999-12-31 with no holidays: there is no
    later date, and [get_next_business_day] raises [OverflowError] instead of
    returning one. *)
Lemma get_next_business_day_after_last_date :
  valid_date (mkdate 9999 12 31)
  ∧ get_next_business_day 10 (__init__ []) (mkdate 9999 12 31)
    = Some (Raise OverflowError).
Proof. split; [vm_compute; split; discriminate|reflexivity]. Qed.

(** ** Business days are never far apart *)

Lemma format_date_inj a b :
  valid_date a → valid_date b → format_date a = format_date b → a = b.
Proof. apply strftime_Ymd_inj. Qed.

Lemma monday_within_a_week (c step : Z) :
  step = 1 ∨ step = -1 →
  ∃ k0, 1 <= k0 <= 7 ∧ weekday (c + step * k0) = 0.
Proof.
  unfold weekday. intros [-> | ->].
  - exists (7 - (c + 6) mod 7). Z.div_mod_to_equations. lia.
  - exists (if decide ((c + 6) mod 7 = 0) then 7 else (c + 6) mod 7).
    case_decide; Z.div_mod_to_equations; lia.
Qed.

Lemma weekday_not_business_day self d :
  weekday d = 0 → is_business_day self d = false →
  format_date d ∈ _holiday_set self.
Proof.
  unfold is_business_day, is_weekend. intros ->. simpl.
  rewrite bool_decide_eq_false. intros H.
  by destruct (decide (format_date d ∈ _holiday_set self)).
Qed.

(** A window of [7 * (n + 1)] dates holds [n + 1] Mondays, one more than
    there are holidays. *)
Lemma business_day_within self (c step : Z) :
  step = 1 ∨ step = -1 →
  let w := 7 * (Z.of_nat (size (_holiday_set self)) + 1) in
  valid_date (c + step) → valid_date (c + step * w) →
  ∃ k, 1 <= k <= w ∧ is_business_day self (c + step * k) = true.
Proof.
  intros Hstep w Hv1 Hvw.
  set (n := Z.of_nat (size (_holiday_set self))) in *.
  destruct (monday_within_a_week c step Hstep) as (k0 & Hk0 & Hmon).
  set (p := λ i : Z, c + step * (k0 + 7 * i)).
  assert (Hvalid : ∀ i, 0 <= i <= n → valid_date (p i)).
  { intros i Hi. unfold p, valid_date in *. subst w.
    destruct Hstep as [-> | ->]; lia. }
  assert (Hmonday : ∀ i, weekday (p i) = 0).
  { intros i. unfold p, weekday in *.
    destruct Hstep as [-> | ->]; Z.div_mod_to_equations; lia. }
  destruct (decide (Forall (λ i, is_business_day self (p i) = false)
                      (seqZ 0 (n + 1)))) as [Hall|Hex].
  - exfalso.
    set (L := (λ i, format_date (p i)) <$> seqZ 0 (n + 1)).
    assert (Hnd : NoDup L).
    { apply NoDup_fmap_2_strong; [|apply NoDup_seqZ].
      intros i j Hi Hj Heq. apply elem_of_seqZ in Hi, Hj.
      apply format_date_inj in Heq; [| apply Hvalid; lia | apply Hvalid; lia].
      unfold p in Heq. destruct Hstep as [-> | ->]; lia. }
    assert (Hsub : list_to_set L ⊆ _holiday_set self).
    { intros s Hs. apply elem_of_list_to_set in Hs.
      apply list_elem_of_fmap in Hs as (i & -> & Hi).
      apply weekday_not_business_day; [apply Hmonday|].
      rewrite Forall_forall in Hall. by apply Hall. }
    apply subseteq_size in Hsub.
    rewrite size_list_to_set in Hsub by done.
    unfold L in Hsub. rewrite length_fmap, length_seqZ in Hsub. lia.
  - apply not_Forall_Exists in Hex; [|intros i; apply _].
    apply Exists_exists in Hex as (i & Hi & Hbd).
    apply elem_of_seqZ in Hi.
    exists (k0 + 7 * i). split; [subst w; lia|].
    simpl in Hbd. fold (p i). by destruct (is_business_day self (p i)).
Qed.

(** ** Adding business days *)

Lemma business_days_stepped_nonneg self current step k :
  0 <= business_days_stepped self current step k.
Proof.
  revert current. induction k as [|k IH]; intros current; simpl; [lia|].
  specialize (IH (current + step)).
  destruct (is_business_day self (current + step)); lia.
Qed.

Lemma business_days_stepped_snoc self current step k :
  business_days_stepped self current step (S k) =
    business_days_stepped self current step k
    + (if is_business_day self (current + step * Z.of_nat (S k)) then 1 else 0).
Proof.
  revert current. induction k as [|k IH]; intros current.
  - cbn [business_days_stepped].
    replace (current + step * Z.of_nat 1) with (current + step) by lia. lia.
  - cbn [business_days_stepped] in *. rewrite IH.
    replace (current + step + step * Z.of_nat (S k))
      with (current + step * Z.of_nat (S (S k))) by lia.
    lia.
Qed.

Lemma business_days_stepped_mono self current step j k :
  (j <= k)%nat →
  business_days_stepped self current step j
  <= business_days_stepped self current step k.
Proof.
  induction 1 as [|k Hle IH]; [lia|].
  rewrite business_days_stepped_snoc.
  destruct (is_business_day self _); lia.
Qed.

(** Walking back over the dates just walked: the same dates are met, with the
    end of one walk traded for the start of the other. *)
Lemma business_days_stepped_reverse self current step k :
  business_days_stepped self (current + step * Z.of_nat k) (- step) k
  + (if is_business_day self (current + step * Z.of_nat k) then 1 else 0)
  = (if is_business_day self current then 1 else 0)
    + business_days_stepped self current step k.
Proof.
  induction k as [|k IH].
  - simpl. rewrite Z.mul_0_r, Z.add_0_r. lia.
  - rewrite (business_days_stepped_snoc self current step k).
    cbn [business_days_stepped].
    replace (current + step * Z.of_nat (S k) + - step)
      with (current + step * Z.of_nat k) by lia.
    lia.
Qed.

Lemma add_business_days_loop_sound self direction remaining :
  direction = 1 ∨ direction = -1 →
  ∀ fuel current added e,
    valid_date current → added <= remaining →
    add_business_days_loop fuel self direction remaining current added
      = Some (Ok e) →
    ∃ k : nat,
      (k < fuel)%nat
      ∧ e = current + direction * Z.of_nat k
      ∧ valid_date e
      ∧ added + business_days_stepped self current direction k = remaining
      ∧ ((0 < k)%nat → is_business_day self e = true).
Proof.
  intros Hdir fuel. induction fuel as [|fuel IH];
    intros current added e Hv Hle; simpl.
  - done.
  - destruct (Z.ltb_spec added remaining) as [Hlt|Hge].
    + destruct (add_days_total current direction) as [[Hv' ->]|[_ ->]];
        [|done].
      intros Hr. apply IH in Hr; [|done|].
      * destruct Hr as (k & Hk & -> & Hve & Hcount & Hbd).
        exists (S k). split; [lia|]. split; [lia|]. split; [done|].
        split.
        { cbn [business_days_stepped].
          destruct (is_business_day self (current + direction)); lia. }
        intros _. destruct k as [|k]; [|apply Hbd; lia].
        cbn [business_days_stepped] in Hcount.
        rewrite Z.mul_0_r, Z.add_0_r.
        destruct (is_business_day self (current + direction)); [done|lia].
      * destruct (is_business_day self (current + direction)); lia.
    + intros [= <-]. exists O. simpl. rewrite Z.mul_0_r, Z.add_0_r.
      split; [lia|]. split; [done|]. split; [done|]. split; [lia|]. lia.
Qed.

Lemma add_business_days_loop_complete self direction remaining :
  direction = 1 ∨ direction = -1 →
  ∀ (k fuel : nat) current added,
    (k < fuel)%nat →
    valid_date current → valid_date (current + direction * Z.of_nat k) →
    added + business_days_stepped self current direction k = remaining →
    (∀ j, (j < k)%nat →
          added + business_days_stepped self current direction j < remaining) →
    add_business_days_loop fuel self direction remaining current added
      = Some (Ok (current + direction * Z.of_nat k)).
Proof.
  intros Hdir k. induction k as [|k IH];
    intros fuel current added Hf Hv Hvk Hcount Hearly;
    (destruct fuel as [|fuel]; [lia|]); simpl.
  - simpl in Hcount. rewrite Z.mul_0_r, Z.add_0_r.
    destruct (Z.ltb_spec added remaining); [lia|done].
  - pose proof (Hearly O ltac:(lia)) as H0. simpl in H0.
    destruct (Z.ltb_spec added remaining); [|lia].
    destruct (add_days_total current direction) as [[Hv' ->]|[Hv' _]].
    + replace (current + direction * Z.of_nat (S k))
        with (current + direction + direction * Z.of_nat k) in * by lia.
      cbn [business_days_stepped] in Hcount.
      apply IH; try done; try lia.
      * destruct (is_business_day self (current + direction)); lia.
      * intros j Hj. specialize (Hearly (S j) ltac:(lia)).
        cbn [business_days_stepped] in Hearly.
        destruct (is_business_day self (current + direction)); lia.
    + exfalso. apply Hv'. unfold valid_date in *.
      destruct Hdir as [-> | ->]; lia.
Qed.

Lemma add_business_days_loop_terminates self direction remaining :
  direction = 1 ∨ direction = -1 →
  ∀ fuel current added,
    valid_date current →
    (Z.to_nat (if decide (direction = 1) then _MAXORDINAL - current
               else current - 1)%Z < fuel)%nat →
    ∃ r, add_business_days_loop fuel self direction remaining current added
         = Some r
         ∧ match r with
           | Ok e => valid_date e
           | Raise ex => ex = OverflowError
           end.
Proof.
  intros Hdir fuel. induction fuel as [|fuel IH];
    intros current added Hv Hf; simpl.
  - lia.
  - destruct (added <? remaining); [|by exists (Ok current)].
    destruct (add_days_total current direction) as [[Hv' ->]|[Hv' ->]];
      [|by exists (Raise OverflowError)].
    apply IH; [done|].
    unfold valid_date in *.
    destruct Hdir as [-> | ->]; repeat case_decide; try done; lia.
Qed.

Lemma business_days_stepped_app self current step j k :
  business_days_stepped self current step (j + k) =
    business_days_stepped self current step j
    + business_days_stepped self (current + step * Z.of_nat j) step k.
Proof.
  revert current. induction j as [|j IH]; intros current.
  - simpl. by rewrite Z.mul_0_r, Z.add_0_r.
  - cbn [Nat.add business_days_stepped]. rewrite IH.
    replace (current + step + step * Z.of_nat j)
      with (current + step * Z.of_nat (S j)) by lia.
    lia.
Qed.

Lemma business_days_stepped_window self current step :
  step = 1 ∨ step = -1 →
  let w := 7 * (Z.of_nat (size (_holiday_set self)) + 1) in
  valid_date (current + step) → valid_date (current + step * w) →
  1 <= business_days_stepped self current step (Z.to_nat w).
Proof.
  intros Hstep w Hv1 Hvw.
  destruct (business_day_within self current step Hstep Hv1 Hvw)
    as (k & Hk & Hbd). fold w in Hk.
  pose proof (business_days_stepped_mono self current step
                (Z.to_nat k) (Z.to_nat w) ltac:(lia)) as Hmono.
  pose proof (business_days_stepped_snoc self current step
                (Z.to_nat (k - 1))) as Hsnoc.
  replace (S (Z.to_nat (k - 1))) with (Z.to_nat k) in Hsnoc by lia.
  replace (Z.of_nat (Z.to_nat k)) with k in Hsnoc by lia.
  rewrite Hbd in Hsnoc.
  pose proof (business_days_stepped_nonneg self current step
                (Z.to_nat (k - 1))).
  lia.
Qed.

Lemma business_days_stepped_windows self step :
  step = 1 ∨ step = -1 →
  let w := 7 * (Z.of_nat (size (_holiday_set self)) + 1) in
  ∀ (r : nat) current,
    valid_date current → valid_date (current + step * (w * Z.of_nat r)) →
    Z.of_nat r <= business_days_stepped self current step (Z.to_nat w * r).
Proof.
  intros Hstep w r. induction r as [|r IH]; intros current Hv Hvr.
  - rewrite Nat.mul_0_r. simpl. lia.
  - replace (Z.to_nat w * S r)%nat with (Z.to_nat w + Z.to_nat w * r)%nat
      by lia.
    rewrite business_days_stepped_app.
    assert (Hw : 7 <= w) by (subst w; lia).
    replace (Z.of_nat (Z.to_nat w)) with w by lia.
    assert (Hmid : valid_date (current + step * w)).
    { unfold valid_date in *. destruct Hstep as [-> | ->]; nia. }
    assert (Hone : valid_date (current + step)).
    { unfold valid_date in *. destruct Hstep as [-> | ->]; nia. }
    pose proof (business_days_stepped_window self current step Hstep
                  Hone Hmid) as H1. fold w in H1.
    specialize (IH (current + step * w) Hmid).
    replace (current + step * w + step * (w * Z.of_nat r))
      with (current + step * (w * Z.of_nat (S r))) in IH by lia.
    specialize (IH Hvr). lia.
Qed.

Lemma add_business_days_loop_reaches self direction remaining :
  direction = 1 ∨ direction = -1 →
  ∀ (k fuel : nat) current added,
    (k < fuel)%nat →
    valid_date current → valid_date (current + direction * Z.of_nat k) →
    remaining - added <= business_days_stepped self current direction k →
    ∃ e, add_business_days_loop fuel self direction remaining current added
         = Some (Ok e).
Proof.
  intros Hdir k. induction k as [|k IH];
    intros fuel current added Hf Hv Hvk Hcount;
    (destruct fuel as [|fuel]; [lia|]); simpl.
  - simpl in Hcount. destruct (Z.ltb_spec added remaining); [lia|eauto].
  - destruct (Z.ltb_spec added remaining); [|eauto].
    destruct (add_days_total current direction) as [[Hv' ->]|[Hv' _]].
    + cbn [business_days_stepped] in Hcount.
      apply IH; try done; try lia.
      * by replace (current + direction + direction * Z.of_nat k)
          with (current + direction * Z.of_nat (S k)) by lia.
      * destruct (is_business_day self (current + direction)); lia.
    + exfalso. apply Hv'. unfold valid_date in *.
      destruct Hdir as [-> | ->]; lia.
Qed.

(** C8, as the code has it.  For a business day [d] and any [n], whenever
    [add_business_days(d, n)] returns a date, adding [-n] business days to
    that date returns [d].  From a day [d] that is not a business day and
    with [n] other than 0, the round trip, when it returns a date, returns a
    business day and so never [d]. *)
Theorem add_business_days_round_trip_spec :
  (∀ fuel self d n e,
     valid_date d → is_business_day self d = true →
     add_business_days fuel self d n = Some (Ok e) →
     add_business_days_round_trip fuel self d n = Some (Ok d))
  ∧ (∀ fuel self d n d',
       valid_date d → is_business_day self d = false → n ≠ 0 →
       add_business_days_round_trip fuel self d n = Some (Ok d') →
       is_business_day self d' = true ∧ d' ≠ d).
Proof.
  split.
  - intros fuel self d n e Hv Hbd Hfwd.
    unfold add_business_days_round_trip. rewrite Hfwd.
    unfold add_business_days in *.
    destruct (Z.eqb_spec n 0) as [->|Hn].
    { simpl. congruence. }
    destruct (Z.eqb_spec (- n) 0) as [?|_]; [lia|].
    set (direction := if 0 <? n then 1 else -1) in *.
    assert (Hdir : direction = 1 ∨ direction = -1).
    { unfold direction. destruct (0 <? n); auto. }
    replace (if 0 <? - n then 1 else -1) with (- direction).
    2:{ unfold direction.
        destruct (Z.ltb_spec 0 n), (Z.ltb_spec 0 (- n)); lia. }
    rewrite Z.abs_opp.
    apply (add_business_days_loop_sound self direction (Z.abs n) Hdir)
      in Hfwd as (k & Hk & -> & Hve & Hcount & Hbe); [|done|lia].
    destruct k as [|k]; [simpl in Hcount; lia|].
    specialize (Hbe ltac:(lia)).
    pose proof (business_days_stepped_reverse self d direction (S k)) as Hrev.
    rewrite Hbd, Hbe in Hrev.
    pose proof (business_days_stepped_snoc self
                  (d + direction * Z.of_nat (S k)) (- direction) k) as Hsnoc.
    replace (d + direction * Z.of_nat (S k) + - direction * Z.of_nat (S k))
      with d in Hsnoc by lia.
    rewrite Hbd in Hsnoc.
    replace (Some (Ok d))
      with (Some (Ok (d + direction * Z.of_nat (S k)
                      + - direction * Z.of_nat (S k)))).
    2:{ do 2 f_equal. lia. }
    apply add_business_days_loop_complete.
    + destruct Hdir as [-> | ->]; auto.
    + done.
    + done.
    + by replace (d + direction * Z.of_nat (S k)
                  + - direction * Z.of_nat (S k)) with d by lia.
    + lia.
    + intros j Hj.
      pose proof (business_days_stepped_mono self
                    (d + direction * Z.of_nat (S k)) (- direction) j k
                    ltac:(lia)).
      lia.
  - intros fuel self d n d' Hv Hbd Hn.
    unfold add_business_days_round_trip.
    destruct (add_business_days fuel self d n) as [[e|ex]|] eqn:Hfwd;
      [|done|done].
    intros Hback.
    assert (Hve : valid_date e).
    { unfold add_business_days in Hfwd.
      destruct (Z.eqb_spec n 0); [done|].
      apply add_business_days_loop_sound in Hfwd
        as (k & _ & _ & Hve & _); [done| |done|lia].
      destruct (0 <? n); auto. }
    unfold add_business_days in Hback.
    destruct (Z.eqb_spec (- n) 0); [lia|].
    apply add_business_days_loop_sound in Hback
      as (k & _ & _ & _ & Hcount & Hbd'); [| |done|lia].
    2:{ destruct (0 <? - n); auto. }
    destruct k as [|k]; [simpl in Hcount; lia|].
    specialize (Hbd' ltac:(lia)).
    split; [done|]. intros ->. congruence.
Qed.

Lemma add_business_days_round_trip_spec_witness :
  add_business_days_round_trip 10 (__init__ []) (mkdate 2024 1 5) 3
  = Some (Ok (mkdate 2024 1 5)).
Proof.
  apply (proj1 add_business_days_round_trip_spec 10%nat (__init__ [])
           (mkdate 2024 1 5) 3 (mkdate 2024 1 10)).
  - vm_compute. split; discriminate.
  - vm_compute. reflexivity.
  - vm_compute. reflexivity.
Defined.

(** From Saturday 2024-01-06 one business day forward is Monday 2024-01-08,
    and one business day back from there is Friday 2024-01-05. *)
Example add_business_days_round_trip_from_saturday :
  is_business_day (__init__ []) (mkdate 2024 1 6) = false
  ∧ add_business_days_round_trip 10 (__init__ []) (mkdate 2024 1 6) 1
    = Some (Ok (mkdate 2024 1 5)).
Proof. split; vm_compute; reflexivity. Qed.

(** C8 as the claim is worded, at Friday 9999-12-31 with no holidays: the
    day is a business day, and adding one business day raises
    [OverflowError], so the round trip does not return it. *)
Lemma add_business_days_round_trip_last_date :
  is_business_day (__init__ []) (mkdate 9999 12 31) = true
  ∧ ∀ fuel,
      add_business_days_round_trip (S fuel) (__init__ []) (mkdate 9999 12 31) 1
      = Some (Raise OverflowError).
Proof. split; [vm_compute; reflexivity|]. intros fuel. reflexivity. Qed.

(** ** Far enough from the ends of the calendar a business day is reached *)

Lemma get_next_business_day_reaches fuel self from_date :
  let w := 7 * (Z.of_nat (size (_holiday_set self)) + 1) in
  valid_date from_date → from_date + w <= _MAXORDINAL →
  (Z.to_nat w <= fuel)%nat →
  ∃ e, get_next_business_day fuel self from_date = Some (Ok e).
Proof.
  intros w Hv Hw Hf. unfold get_next_business_day.
  assert (H7 : 7 <= w) by (subst w; lia).
  destruct (add_days_total from_date 1) as [[Hv' ->]|[Hv' _]];
    [|unfold valid_date in *; lia].
  destruct (business_day_within self from_date 1 (or_introl eq_refl))
    as (k & Hk & Hbd); [done|unfold valid_date in *; fold w; lia|].
  fold w in Hk.
  destruct (seek_business_day_loop_finds self 1 (or_introl eq_refl) fuel
              (from_date + 1) (k - 1)) as (j & _ & Hr & _);
    try done; try lia.
  - unfold valid_date in *. lia.
  - by replace (from_date + 1 + 1 * (k - 1)) with (from_date + 1 * k) by lia.
  - eauto.
Qed.

Lemma get_previous_business_day_reaches fuel self from_date :
  let w := 7 * (Z.of_nat (size (_holiday_set self)) + 1) in
  valid_date from_date → 1 <= from_date - w →
  (Z.to_nat w <= fuel)%nat →
  ∃ e, get_previous_business_day fuel self from_date = Some (Ok e).
Proof.
  intros w Hv Hw Hf. unfold get_previous_business_day.
  assert (H7 : 7 <= w) by (subst w; lia).
  destruct (add_days_total from_date (-1)) as [[Hv' ->]|[Hv' _]];
    [|unfold valid_date in *; lia].
  destruct (business_day_within self from_date (-1) (or_intror eq_refl))
    as (k & Hk & Hbd); [done|unfold valid_date in *; fold w; lia|].
  fold w in Hk.
  destruct (seek_business_day_loop_finds self (-1) (or_intror eq_refl) fuel
              (from_date + -1) (k - 1)) as (j & _ & Hr & _);
    try done; try lia.
  - unfold valid_date in *. lia.
  - by replace (from_date + -1 + -1 * (k - 1))
      with (from_date + -1 * k) by lia.
  - eauto.
Qed.

Lemma add_business_days_reaches fuel self from_date days :
  let w := 7 * (Z.of_nat (size (_holiday_set self)) + 1) in
  valid_date from_date → valid_date (from_date + w * days) →
  (Z.to_nat (w * Z.abs days) < fuel)%nat →
  ∃ e, add_business_days fuel self from_date days = Some (Ok e).
Proof.
  intros w Hv Hvw Hf. unfold add_business_days.
  destruct (Z.eqb_spec days 0) as [->|Hn]; [eauto|].
  assert (H7 : 7 <= w) by (subst w; lia).
  set (direction := if 0 <? days then 1 else -1).
  assert (Hdir : direction = 1 ∨ direction = -1).
  { unfold direction. destruct (0 <? days); auto. }
  assert (Hdays : direction * Z.abs days = days).
  { unfold direction. destruct (Z.ltb_spec 0 days); lia. }
  pose proof (business_days_stepped_windows self direction Hdir
                (Z.to_nat (Z.abs days)) from_date Hv) as Hcount.
  cbv zeta in Hcount. fold w in Hcount.
  replace (Z.of_nat (Z.to_nat (Z.abs days))) with (Z.abs days) in Hcount
    by lia.
  replace (from_date + direction * (w * Z.abs days))
    with (from_date + w * days) in Hcount by nia.
  specialize (Hcount Hvw).
  apply (add_business_days_loop_reaches self direction (Z.abs days) Hdir
           (Z.to_nat w * Z.to_nat (Z.abs days))).
  - nia.
  - done.
  - replace (from_date
             + direction * Z.of_nat (Z.to_nat w * Z.to_nat (Z.abs days)))
      with (from_date + w * days) by nia.
    done.
  - lia.
Qed.

(** ** Termination of the stepping loops *)

(** C10, as the code has it.  From any date, with a budget of one loop
    iteration per date left in the calendar in the direction of travel, the
    loops of [get_next_business_day], [get_previous_business_day] and
    [add_business_days] finish: each method returns a date, which is a
    business day (for [add_business_days] when [days] is not 0, and then
    the one that has [|days|] business days among the dates stepped over,
    itself included), or raises
    [OverflowError] because [add_days] was asked to step out of the calendar;
    for the first two that happens only when no business day is left in that
    direction.  Because the holiday set is finite and every week has a
    Monday, a business day is met within [w = 7 * (h + 1)] steps, [h] being
    the number of holiday strings: with [w] dates left in the direction of
    travel ([w * |days|] for [add_business_days]) the methods return a
    date. *)
Theorem stepping_loops_terminate (fuel : nat) (self : BusinessDayCalculator.t)
    (from_date : date) :
  valid_date from_date →
  ((Z.to_nat (_MAXORDINAL - from_date) <= fuel)%nat →
   ∃ r, get_next_business_day fuel self from_date = Some r
        ∧ match r with
          | Ok e => valid_date e ∧ is_business_day self e = true
          | Raise ex =>
              ex = OverflowError
              ∧ ∀ x, valid_date x → from_date < x →
                     is_business_day self x = false
          end)
  ∧ ((Z.to_nat (from_date - 1) <= fuel)%nat →
     ∃ r, get_previous_business_day fuel self from_date = Some r
          ∧ match r with
            | Ok e => valid_date e ∧ is_business_day self e = true
            | Raise ex =>
                ex = OverflowError
                ∧ ∀ x, valid_date x → x < from_date →
                       is_business_day self x = false
            end)
  ∧ (∀ days,
       (Z.to_nat (if decide (0 < days) then _MAXORDINAL - from_date
                  else from_date - 1)%Z < fuel)%nat →
       ∃ r, add_business_days fuel self from_date days = Some r
            ∧ match r with
              | Ok e =>
                  valid_date e ∧ (days ≠ 0 → is_business_day self e = true)
                  ∧ ∃ k : nat,
                      let direction := if decide (0 < days) then 1 else -1 in
                      e = from_date + direction * Z.of_nat k
                      ∧ business_days_stepped self from_date direction k
                        = Z.abs days
              | Raise ex => ex = OverflowError
              end)
  ∧ (let w := 7 * (Z.of_nat (size (_holiday_set self)) + 1) in
     (from_date + w <= _MAXORDINAL → (Z.to_nat w <= fuel)%nat →
      ∃ e, get_next_business_day fuel self from_date = Some (Ok e))
     ∧ (1 <= from_date - w → (Z.to_nat w <= fuel)%nat →
        ∃ e, get_previous_business_day fuel self from_date = Some (Ok e))
     ∧ (∀ days,
          valid_date (from_date + w * days) →
          (Z.to_nat (w * Z.abs days) < fuel)%nat →
          ∃ e, add_business_days fuel self from_date days = Some (Ok e))).
Proof.
  intros Hv. split; [|split; [|split]]; cycle 3.
  { split; [|split].
    - by apply get_next_business_day_reaches.
    - by apply get_previous_business_day_reaches.
    - intros days. by apply add_business_days_reaches. }
  - intros Hf. unfold get_next_business_day.
    destruct (add_days_total from_date 1) as [[Hv' ->]|[Hv' ->]].
    + destruct (seek_business_day_loop_terminates self 1 (or_introl eq_refl)
                  fuel (from_date + 1) Hv') as [r Hr].
      { rewrite decide_True by done. unfold valid_date in *. lia. }
      exists r. split; [done|].
      apply (seek_business_day_loop_sound self 1 (or_introl eq_refl)) in Hr;
        [|done].
      destruct r as [e|ex].
      * destruct Hr as (k & _ & _ & Hve & Hbe & _). done.
      * destruct Hr as [-> Hall]. split; [done|]. intros x Hvx Hlt.
        replace x with (from_date + 1 + 1 * (x - (from_date + 1))) by lia.
        apply Hall; [lia|].
        by replace (from_date + 1 + 1 * (x - (from_date + 1))) with x by lia.
    + exists (Raise OverflowError). split; [done|]. split; [done|].
      intros x Hvx Hlt. exfalso. apply Hv'. unfold valid_date in *. lia.
  - intros Hf. unfold get_previous_business_day.
    destruct (add_days_total from_date (-1)) as [[Hv' ->]|[Hv' ->]].
    + destruct (seek_business_day_loop_terminates self (-1) (or_intror eq_refl)
                  fuel (from_date + -1) Hv') as [r Hr].
      { rewrite decide_False by done. unfold valid_date in *. lia. }
      exists r. split; [done|].
      apply (seek_business_day_loop_sound self (-1) (or_intror eq_refl)) in Hr;
        [|done].
      destruct r as [e|ex].
      * destruct Hr as (k & _ & _ & Hve & Hbe & _). done.
      * destruct Hr as [-> Hall]. split; [done|]. intros x Hvx Hlt.
        replace x with (from_date + -1 + -1 * (from_date + -1 - x)) by lia.
        apply Hall; [lia|].
        by replace (from_date + -1 + -1 * (from_date + -1 - x)) with x by lia.
    + exists (Raise OverflowError). split; [done|]. split; [done|].
      intros x Hvx Hlt. exfalso. apply Hv'. unfold valid_date in *. lia.
  - intros days Hf. unfold add_business_days.
    destruct (Z.eqb_spec days 0) as [->|Hn].
    { exists (Ok from_date). split; [done|]. split; [done|]. split; [done|].
      exists O. simpl. split; [lia|done]. }
    assert (Hd : (if decide (0 < days) then 1 else -1)
                 = (if 0 <? days then 1 else -1)).
    { destruct (Z.ltb_spec 0 days); case_decide; first [done | lia]. }
    rewrite Hd.
    set (direction := if 0 <? days then 1 else -1) in *.
    assert (Hdir : direction = 1 ∨ direction = -1).
    { unfold direction. destruct (0 <? days); auto. }
    destruct (add_business_days_loop_terminates self direction (Z.abs days)
                Hdir fuel from_date 0 Hv) as (r & Hr & Hout).
    { unfold direction. destruct (Z.ltb_spec 0 days);
        repeat case_decide; try lia; try done. }
    exists r. split; [done|]. destruct r as [e|ex]; [|done].
    split; [done|].
    apply add_business_days_loop_sound in Hr
      as (k & _ & He & _ & Hcount & Hbd); [|done|done|lia].
    split.
    + intros _. destruct k as [|k]; [simpl in Hcount; lia|].
      apply Hbd. lia.
    + exists k. cbv zeta. split; [done|lia].
Qed.

Lemma stepping_loops_terminate_witness :
  ∃ r, get_next_business_day 3 (__init__ []) (mkdate 9999 12 29) = Some r
       ∧ match r with
         | Ok e => valid_date e ∧ is_business_day (__init__ []) e = true
         | Raise ex =>
             ex = OverflowError
             ∧ ∀ x, valid_date x → mkdate 9999 12 29 < x →
                    is_business_day (__init__ []) x = false
         end.
Proof.
  apply (proj1 (stepping_loops_terminate 3 (__init__ []) (mkdate 9999 12 29)
                  ltac:(vm_compute; split; discriminate))).
  vm_compute. lia.
Defined.

(** C10 as the claim is worded, at Monday 0001-01-01 with no holidays: the
    step back from the first date raises [OverflowError], and no business
    day is reached. *)
Lemma get_previous_business_day_before_first_date :
  valid_date (mkdate 1 1 1)
  ∧ get_previous_business_day 10 (__init__ []) (mkdate 1 1 1)
    = Some (Raise OverflowError).
Proof. split; [vm_compute; split; discriminate|reflexivity]. Qed.

End calculator_properties.

Section cache_properties.

Import SmartCache.

(** ** Floats *)

(** The integers below [2 ^ 53] in absolute value are floats, the TTLs of
    the policy among them; [2 ^ 1024] has no float; and the comparison is
    the one of the numbers. *)
Example float_examples :
  float_of_int 86400 = Ok (S754_finite false 5937362789990400 (-36))
  ∧ float_of_int (365 * 86400) = Ok (S754_finite false 8465380540416000 (-28))
  ∧ float_of_int (7 * 86400) = Ok (S754_finite false 5195192441241600 (-33))
  ∧ float_of_int (2 ^ 1024) = Raise OverflowError
  ∧ float_gt (round_int 150) (round_int 100) = true
  ∧ float_gt (round_int 100) (round_int 100) = false
  ∧ float_gt (round_int 100) (round_int 150) = false
  ∧ float_add (round_int 100) (round_int 86400) = round_int 86500.
Proof. repeat split; vm_compute; reflexivity. Qed.

(** ** The cache *)

(** Distinct years have distinct keys, so each year has at most one entry. *)
Lemma _get_year_key_inj (year1 year2 : Z) :
  _get_year_key year1 = _get_year_key year2 → year1 = year2.
Proof.
  unfold _get_year_key. intros H.
  apply (inj (String.append "year:")) in H. by apply (inj pretty) in H.
Qed.

(** What [set] does with the time-to-live [ttl] of the year. *)
Lemma set_unfold now current_year self year holidays :
  set now current_year self year holidays =
    match float_of_int (_get_ttl current_year self year) with
    | Ok ttl =>
        ({| _store :=
              <[_get_year_key year := CacheEntry.mk holidays (float_add now ttl)]>
                (_store self);
            _hits := _hits self; _misses := _misses self;
            _custom_ttl := _custom_ttl self |},
         Ok ())
    | Raise e => (self, Raise e)
    end.
Proof.
  unfold set, float_add_int.
  by destruct (float_of_int (_get_ttl current_year self year)).
Qed.

Lemma float_of_int_Raise n e : float_of_int n = Raise e → e = OverflowError.
Proof. unfold float_of_int. destruct (round_int n); congruence. Qed.

(** Without an override the time-to-live has a float and [set] returns. *)
Lemma float_of_int_policy current_year self year :
  _custom_ttl self = None →
  ∃ ttl, float_of_int (_get_ttl current_year self year) = Ok ttl.
Proof.
  intros Hnone. unfold _get_ttl. rewrite Hnone.
  destruct (year <? current_year); [by eexists|].
  destruct (year =? current_year); by eexists.
Qed.

Lemma set_policy_Ok now current_year self year holidays :
  _custom_ttl self = None →
  (set now current_year self year holidays).2 = Ok ().
Proof.
  intros Hnone. rewrite set_unfold.
  by destruct (float_of_int_policy current_year self year Hnone) as [ttl ->].
Qed.

Lemma get_custom_ttl now self year :
  _custom_ttl (get now self year).1 = _custom_ttl self.
Proof.
  unfold get.
  destruct (_store self !! _get_year_key year) as [entry|]; [|done].
  by destruct (float_gt now (CacheEntry.expires_at entry)).
Qed.

Lemma set_other_year now current_year self year holidays year' :
  year' ≠ year →
  _store (set now current_year self year holidays).1 !! _get_year_key year'
  = _store self !! _get_year_key year'.
Proof.
  intros Hne. rewrite set_unfold.
  destruct (float_of_int _); [|done]. simpl. apply lookup_insert_ne.
  intros H. by apply _get_year_key_inj in H.
Qed.

(** C2.  [get(year)]: with no entry stored for [year] it counts a miss and
    returns [None]; with an entry whose [expires_at] is strictly before the
    clock reading ([now > expires_at]) it deletes the entry, counts a miss
    and returns [None]; otherwise it counts a hit and returns the stored list
    as it is.  A [get(year)] that follows a [set(year, holidays)] that
    returned returns [holidays] as long as the clock has not passed the
    [expires_at] that [set] computed. *)
Theorem get_spec (now : binary64) (self : SmartCache.t) (year : Z) :
  let key := _get_year_key year in
  (_store self !! key = None →
   get now self year =
     ({| _store := _store self; _hits := _hits self;
         _misses := _misses self + 1; _custom_ttl := _custom_ttl self |},
      None))
  ∧ (∀ entry, _store self !! key = Some entry →
     float_gt now (CacheEntry.expires_at entry) = true →
     get now self year =
       ({| _store := delete key (_store self); _hits := _hits self;
           _misses := _misses self + 1; _custom_ttl := _custom_ttl self |},
        None))
  ∧ (∀ entry, _store self !! key = Some entry →
     float_gt now (CacheEntry.expires_at entry) = false →
     get now self year =
       ({| _store := _store self; _hits := _hits self + 1;
           _misses := _misses self; _custom_ttl := _custom_ttl self |},
        Some (CacheEntry.data entry)))
  ∧ (∀ now0 current_year holidays ttl,
     float_of_int (_get_ttl current_year self year) = Ok ttl →
     float_gt now (float_add now0 ttl) = false →
     let self' := (set now0 current_year self year holidays).1 in
     (set now0 current_year self year holidays).2 = Ok ()
     ∧ get now self' year =
         ({| _store := _store self'; _hits := _hits self + 1;
             _misses := _misses self; _custom_ttl := _custom_ttl self |},
          Some holidays)).
Proof.
  intros key. split; [|split; [|split]].
  - intros Hk. unfold get. fold key. by rewrite Hk.
  - intros entry Hk Hlt. unfold get. fold key. by rewrite Hk, Hlt.
  - intros entry Hk Hle. unfold get. fold key. by rewrite Hk, Hle.
  - intros now0 current_year holidays ttl Httl Hle self'. subst self'.
    rewrite set_unfold, Httl. split; [done|].
    unfold get. fold key. simpl.
    rewrite lookup_insert_eq. simpl. by rewrite Hle.
Qed.

Lemma get_spec_witness :
  let h := Holiday.mk "h1" "New Year" "2020-01-01" 2020 1 1 "Wednesday" public in
  let self' :=
    (set (round_int 100) 2024 (__init__ None) 2020 [h]).1 in
  (set (round_int 100) 2024 (__init__ None) 2020 [h]).2 = Ok ()
  ∧ get (round_int 150) self' 2020 =
      ({| _store := _store self'; _hits := 1; _misses := 0;
          _custom_ttl := None |},
       Some [h]).
Proof.
  intros h.
  apply (proj2 (proj2 (proj2 (get_spec (round_int 150) (__init__ None) 2020)))
           (round_int 100) 2024 [h] (round_int (365 * 86400))).
  - vm_compute. reflexivity.
  - vm_compute. reflexivity.
Defined.




(** Deleting a list of keys one after the other. *)
Lemma lookup_foldl_delete {V : Type} (keys : list string)
    (store : gmap string V) (k : string) :
  foldl (λ store key, delete key store) store keys !! k =
    if decide (k ∈ keys) then None else store !! k.
Proof.
  revert store. induction keys as [|key keys IH]; intros store; cbn [foldl].
  - case_decide as Hin; [|done]. by apply not_elem_of_nil in Hin.
  - rewrite IH, lookup_delete.
    destruct (decide (k ∈ keys)) as [Hin|Hin].
    + rewrite decide_True; [done|]. by apply list_elem_of_further.
    + destruct (decide (key = k)) as [->|Hne].
      * rewrite decide_True; [done|]. apply list_elem_of_here.
      * rewrite decide_False; [done|].
        rewrite elem_of_cons. intros [?|?]; congruence.
Qed.

Lemma elem_of_to_remove {V : Type} (f : string * V → bool)
    (store : gmap string V) (k : string) :
  k ∈ (List.filter f (map_to_list store)).*1 ↔
  ∃ v, store !! k = Some v ∧ f (k, v) = true.
Proof.
  rewrite list_elem_of_fmap. split.
  - intros ([k' v] & -> & Hin). simpl.
    apply list_elem_of_In, filter_In in Hin as [Hin Hf].
    apply list_elem_of_In, elem_of_map_to_list in Hin. eauto.
  - intros (v & Hk & Hf). exists (k, v). split; [done|].
    apply list_elem_of_In, filter_In. split; [|done].
    by apply list_elem_of_In, elem_of_map_to_list.
Qed.

Lemma size_foldl_delete_filter {V : Type} (f : string * V → bool)
    (l : list (string * V)) (store : gmap string V) :
  NoDup l.*1 →
  (∀ k v, (k, v) ∈ l → store !! k = Some v) →
  (size (foldl (λ store key, delete key store) store (List.filter f l).*1)
   + length (List.filter f l).*1 = size store)%nat.
Proof.
  revert store. induction l as [|[k v] l IH]; intros store Hnd Hl; simpl.
  - lia.
  - apply NoDup_cons in Hnd as [Hk Hnd]. simpl in Hk.
    assert (Hkv : store !! k = Some v) by (apply Hl, list_elem_of_here).
    destruct (f (k, v)); simpl.
    + rewrite Nat.add_succ_r, IH; [| done |].
      * rewrite map_size_delete, Hkv. simpl.
        assert (size store ≠ 0)%nat; [|lia].
        intros H0. apply map_size_empty_inv in H0. subst store.
        by rewrite lookup_empty in Hkv.
      * intros k' v' Hin. rewrite lookup_delete_ne.
        { apply Hl. by apply list_elem_of_further. }
        intros ->. apply Hk. apply list_elem_of_fmap. by exists (k', v').
    + apply IH; [done|]. intros k' v' Hin. apply Hl.
      by apply list_elem_of_further.
Qed.

(** C7, as the code has it.  [prune()] deletes exactly the entries whose
    [expires_at] is strictly before the clock reading ([now > expires_at])
    and keeps the others unchanged, returns the number of entries it
    deleted, and leaves [hits] and [misses] alone.  No entry that remains
    has [now > expires_at]; an entry with [expires_at = now] remains. *)
Theorem prune_spec (now : binary64) (self : SmartCache.t) :
  let self' := (prune now self).1 in
  let removed := (prune now self).2 in
  (∀ key,
     _store self' !! key =
       match _store self !! key with
       | Some entry =>
           if float_gt now (CacheEntry.expires_at entry) then None
           else Some entry
       | None => None
       end)
  ∧ (∀ key entry, _store self !! key = Some entry →
       float_gt now (CacheEntry.expires_at entry) = true →
       _store self' !! key = None)
  ∧ (∀ key entry, _store self' !! key = Some entry →
       float_gt now (CacheEntry.expires_at entry) = false)
  ∧ Z.of_nat (size (_store self)) = Z.of_nat (size (_store self')) + removed
  ∧ _hits self' = _hits self
  ∧ _misses self' = _misses self.
Proof.
  intros self' removed.
  assert (Hlookup : ∀ key,
     _store self' !! key =
       match _store self !! key with
       | Some entry =>
           if float_gt now (CacheEntry.expires_at entry) then None
           else Some entry
       | None => None
       end).
  { intros key. subst self'. unfold prune. simpl.
    rewrite lookup_foldl_delete.
    case_decide as Hin.
    - apply elem_of_to_remove in Hin as (entry & -> & Hf). simpl in Hf.
      by rewrite Hf.
    - destruct (_store self !! key) as [entry|] eqn:Hk; [|done].
      destruct (float_gt now (CacheEntry.expires_at entry)) eqn:Hf; [|done].
      exfalso. apply Hin. apply elem_of_to_remove. eauto. }
  split; [done|]. split; [|split; [|split; [|done]]].
  - intros key entry Hk Hlt. by rewrite Hlookup, Hk, Hlt.
  - intros key entry Hk. rewrite Hlookup in Hk.
    destruct (_store self !! key) as [entry'|]; [|done].
    destruct (float_gt now (CacheEntry.expires_at entry')) eqn:Hf; [done|].
    by injection Hk as <-.
  - subst self' removed. unfold prune. simpl.
    rewrite <- Nat2Z.inj_add. f_equal. symmetry.
    apply size_foldl_delete_filter.
    + apply NoDup_fst_map_to_list.
    + intros k v Hin. by apply elem_of_map_to_list.
Qed.

Lemma prune_spec_witness :
  let self :=
    (set (round_int 100) 2024
       (set (round_int 100) 2024 (__init__ None) 2020 []).1 2024 []).1 in
  _store (prune (round_int 86501) self).1 !! _get_year_key 2024 = None.
Proof.
  intros self.
  apply (proj1 (proj2 (prune_spec (round_int 86501) self)) (_get_year_key 2024)
           (CacheEntry.mk [] (round_int 86500))).
  - vm_compute. reflexivity.
  - vm_compute. reflexivity.
Defined.

(** C7, as the claim is worded: an entry whose [expires_at] equals the clock
    reading is still in the cache after [prune()], so that an entry with
    [expires_at <= now] remains. *)
Lemma prune_keeps_entry_expiring_now :
  let self := (set (round_int 100) 2024 (__init__ (Some 0)) 2024 []).1 in
  let now : binary64 := round_int 100 in
  ∃ entry,
    _store (prune now self).1 !! _get_year_key 2024 = Some entry
    ∧ float_le (CacheEntry.expires_at entry) now = true
    ∧ (prune now self).2 = 0.
Proof.
  exists (CacheEntry.mk [] (round_int 100)).
  split; [vm_compute; reflexivity|].
  split; vm_compute; reflexivity.
Qed.

(** ** Ranges over several cached years *)

Lemma get_result now self year :
  (get now self year).2 = cached_unexpired now (_store self) year.
Proof.
  unfold get, cached_unexpired.
  destruct (_store self !! _get_year_key year) as [entry|]; [|done].
  by destruct (float_gt now (CacheEntry.expires_at entry)).
Qed.

Lemma get_hit_store now self year holidays :
  (get now self year).2 = Some holidays →
  _store (get now self year).1 = _store self.
Proof.
  unfold get.
  destruct (_store self !! _get_year_key year) as [entry|]; [|done].
  by destruct (float_gt now (CacheEntry.expires_at entry)).
Qed.

Lemma get_range_loop_result now years :
  ∀ self all_holidays,
    (get_range_loop now self years all_holidays).2 =
      if forallb
           (λ y, negb (py_not (cached_unexpired (now y) (_store self) y)))
           years
      then Some (all_holidays
                 ++ concat ((λ y, default [] (cached_unexpired (now y)
                                                (_store self) y)) <$> years))
      else None.
Proof.
  induction years as [|year years IH]; intros self all_holidays.
  - simpl. by rewrite app_nil_r.
  - cbn [get_range_loop forallb fmap list_fmap concat].
    pose proof (get_result (now year) self year) as Hres.
    pose proof (get_hit_store (now year) self year) as Hstore.
    destruct (get (now year) self year) as [self' cached]. simpl in *.
    rewrite <- Hres.
    destruct cached as [[|h cached]|]; simpl; try done.
    rewrite IH, (Hstore _ eq_refl).
    destruct (forallb _ years); [|done].
    by rewrite <- app_assoc.
Qed.

(** What [get_range] returns: the holidays in range of the spanned years,
    provided every spanned year is stored, unexpired and cached with a list
    that is not empty; [None] otherwise. *)
Lemma get_range_result now self from_date to_date :
  (get_range now self from_date to_date).2 =
    if forallb
         (λ y, negb (py_not (cached_unexpired (now y) (_store self) y)))
         (years_spanned from_date to_date)
    then Some (List.filter
                 (in_range (strftime_Ymd from_date) (strftime_Ymd to_date))
                 (concat ((λ y, default [] (cached_unexpired (now y)
                                              (_store self) y))
                            <$> years_spanned from_date to_date)))
    else None.
Proof.
  unfold get_range, years_spanned.
  destruct (Z.eqb_spec (year from_date) (year to_date)) as [Heq|Hne].
  - rewrite <- Heq.
    replace (year from_date + 1 - year from_date) with 1 by lia.
    change (seqZ (year from_date) 1) with [year from_date].
    cbn [forallb fmap list_fmap concat].
    pose proof (get_result (now (year from_date)) self (year from_date)) as Hres.
    destruct (get (now (year from_date)) self (year from_date))
      as [self' cached].
    simpl in *. rewrite <- Hres.
    destruct cached as [[|h cached]|]; simpl; try done.
    by rewrite app_nil_r.
  - pose proof (get_range_loop_result now
                  (seqZ (year from_date) (year to_date + 1 - year from_date))
                  self []) as Hloop.
    destruct (get_range_loop now self _ []) as [self' all_holidays].
    simpl in *. rewrite Hloop.
    by destruct (forallb _ _).
Qed.

(** C6 at a year cached with an empty list.  The year 2024 is stored and
    unexpired with the list [[]], so the holidays the claim gives for the
    range 2024-01-01 .. 2024-12-31 are [[]]; [get_range] returns [None], and
    the [get] it made counted a hit.  The same happens over two years when
    one of them is cached with an empty list. *)
Theorem get_range_empty_year :
  let h := Holiday.mk "h1" "Christmas" "2023-12-25" 2023 12 25 "Monday" public in
  let now : Z → binary64 := λ _, round_int 101 in
  let self1 := (set (round_int 100) 2024 (__init__ None) 2024 []).1 in
  let self2 :=
    (set (round_int 100) 2024
       (set (round_int 100) 2024 (__init__ None) 2023 [h]).1 2024 []).1 in
  cached_unexpired (round_int 101) (_store self1) 2024 = Some []
  ∧ (get_range now self1 (mkdate 2024 1 1) (mkdate 2024 12 31)).2 = None
  ∧ _hits (get_range now self1 (mkdate 2024 1 1) (mkdate 2024 12 31)).1 = 1
  ∧ _misses (get_range now self1 (mkdate 2024 1 1) (mkdate 2024 12 31)).1 = 0
  ∧ cached_unexpired (round_int 101) (_store self2) 2023 = Some [h]
  ∧ cached_unexpired (round_int 101) (_store self2) 2024 = Some []
  ∧ (get_range now self2 (mkdate 2023 12 1) (mkdate 2024 1 31)).2 = None.
Proof. repeat split; vm_compute; reflexivity. Qed.

End cache_properties.

Section calendar_order_properties.

Lemma month_day_in_month_all :
  forallb (month_day_in_month false) (seqZ 0 365) = true
  ∧ forallb (month_day_in_month true) (seqZ 0 366) = true.
Proof. split; vm_compute; reflexivity. Qed.

Lemma month_table_all :
  forallb (month_table_ok false) (seqZ 1 12) = true
  ∧ forallb (month_table_ok true) (seqZ 1 12) = true.
Proof. split; vm_compute; reflexivity. Qed.

Lemma _ord2ymd_day_in_month n :
  valid_date n →
  let '(y, m, d) := _ord2ymd n in d <= _days_in_month y m.
Proof.
  intros [Hn1 Hn2]. unfold _MAXORDINAL in Hn2.
  rewrite _ord2ymd_unfold. cbv zeta. unfold _DI400Y, _DI100Y, _DI4Y.
  pose proof (Z.div_mod (n - 1) 146097 ltac:(lia)) as E1.
  pose proof (Z.mod_pos_bound (n - 1) 146097 ltac:(lia)) as B1.
  set (n400 := (n - 1) / 146097) in *. set (r1 := (n - 1) mod 146097) in *.
  pose proof (Z.div_mod r1 36524 ltac:(lia)) as E2.
  pose proof (Z.mod_pos_bound r1 36524 ltac:(lia)) as B2.
  set (n100 := r1 / 36524) in *. set (r2 := r1 mod 36524) in *.
  pose proof (Z.div_mod r2 1461 ltac:(lia)) as E3.
  pose proof (Z.mod_pos_bound r2 1461 ltac:(lia)) as B3.
  set (n4 := r2 / 1461) in *. set (r3 := r2 mod 1461) in *.
  pose proof (Z.div_mod r3 365 ltac:(lia)) as E4.
  pose proof (Z.mod_pos_bound r3 365 ltac:(lia)) as B4.
  set (n1 := r3 / 365) in *. set (r4 := r3 mod 365) in *.
  clearbody n400 r1 n100 r2 n4 r3 n1 r4.
  assert (0 <= n400 <= 24) by lia.
  assert (0 <= n100 <= 4) by lia.
  assert (0 <= n4 <= 24) by lia.
  assert (0 <= n1 <= 4) by lia.
  destruct ((n1 =? 4) || (n100 =? 4)) eqn:Hlast.
  - unfold _days_in_month. simpl. lia.
  - apply orb_false_iff in Hlast as [H14 H1004].
    apply Z.eqb_neq in H14, H1004.
    set (leap := (n1 =? 3) && (negb (n4 =? 24) || (n100 =? 3))).
    assert (Hr4 : 0 <= r4 < (if leap then 366 else 365)).
    { destruct leap; lia. }
    assert (Hin : month_day_in_month leap r4 = true).
    { destruct month_day_in_month_all as [Hcommon Hleap].
      destruct leap.
      - rewrite forallb_forall in Hleap.
        apply Hleap, list_elem_of_In, elem_of_seqZ. lia.
      - rewrite forallb_forall in Hcommon.
        apply Hcommon, list_elem_of_In, elem_of_seqZ. lia. }
    unfold month_day_in_month in Hin.
    destruct (month_day r4 leap) as [m d].
    unfold _days_in_month. rewrite _is_leap_of_cycles by lia. fold leap.
    by apply Z.leb_le.
Qed.

(** A year has 365 days, or 366 when it is a leap year. *)
Lemma _days_before_year_succ y :
  _days_before_year (y + 1) =
    _days_before_year y + (if _is_leap y then 366 else 365).
Proof.
  unfold _days_before_year, _is_leap. cbv zeta.
  replace (y + 1 - 1) with y by lia.
  destruct (Z.eqb_spec (y mod 4) 0) as [H4|H4];
    destruct (Z.eqb_spec (y mod 100) 0) as [H100|H100];
    destruct (Z.eqb_spec (y mod 400) 0) as [H400|H400]; simpl.
  all: Z.div_mod_to_equations; lia.
Qed.

Lemma _days_before_year_lt y y' :
  y < y' → _days_before_year (y + 1) <= _days_before_year y'.
Proof.
  intros H.
  assert (Hall : ∀ k, 0 <= k →
            _days_before_year (y + 1) <= _days_before_year (y + 1 + k)).
  { apply natlike_ind.
    - rewrite Z.add_0_r. lia.
    - intros k Hk IH.
      replace (y + 1 + Z.succ k) with (y + 1 + k + 1) by lia.
      rewrite (_days_before_year_succ (y + 1 + k)).
      destruct (_is_leap (y + 1 + k)); lia. }
  specialize (Hall (y' - (y + 1)) ltac:(lia)).
  by replace (y + 1 + (y' - (y + 1))) with y' in Hall by lia.
Qed.

Lemma month_table_spec y m :
  1 <= m <= 12 →
  1 <= _days_in_month y m
  ∧ (m = 12 →
     _days_before_month y m + _days_in_month y m
     = if _is_leap y then 366 else 365)
  ∧ (m < 12 →
     _days_before_month y m + _days_in_month y m
     = _days_before_month y (m + 1)).
Proof.
  intros Hm. unfold _days_before_month, _days_in_month.
  assert (H : month_table_ok (_is_leap y) m = true).
  { destruct month_table_all as [H0 H1].
    destruct (_is_leap y).
    - rewrite forallb_forall in H1.
      apply H1, list_elem_of_In, elem_of_seqZ. lia.
    - rewrite forallb_forall in H0.
      apply H0, list_elem_of_In, elem_of_seqZ. lia. }
  unfold month_table_ok in H. cbv zeta in H.
  apply andb_true_iff in H as [H1 H2]. apply Z.leb_le in H1.
  split; [done|].
  destruct (Z.eqb_spec m 12) as [->|Hne].
  - apply Z.eqb_eq in H2. split; [done|lia].
  - apply Z.eqb_eq in H2. split; [lia|done].
Qed.

Lemma _days_before_month_lt y m m' :
  1 <= m → m < m' → m' <= 12 →
  _days_before_month y m + _days_in_month y m <= _days_before_month y m'.
Proof.
  intros H1 Hlt H12.
  assert (Hall : ∀ k, 0 <= k → m + 1 + k <= 12 →
            _days_before_month y m + _days_in_month y m
            <= _days_before_month y (m + 1 + k)).
  { apply (natlike_ind (λ k, m + 1 + k <= 12 → _)).
    - intros Hk. rewrite Z.add_0_r.
      destruct (month_table_spec y m ltac:(lia)) as (_ & _ & ->); lia.
    - intros k Hk IH Hk12.
      destruct (month_table_spec y (m + 1 + k) ltac:(lia)) as (? & _ & Hn).
      replace (m + 1 + Z.succ k) with (m + 1 + k + 1) by lia.
      rewrite <- Hn by lia. specialize (IH ltac:(lia)). lia. }
  specialize (Hall (m' - (m + 1)) ltac:(lia) ltac:(lia)).
  by replace (m + 1 + (m' - (m + 1))) with m' in Hall by lia.
Qed.

Lemma _days_before_month_year y m :
  1 <= m <= 12 →
  0 <= _days_before_month y m
  ∧ _days_before_month y m + _days_in_month y m
    <= (if _is_leap y then 366 else 365).
Proof.
  intros Hm. split.
  - unfold _days_before_month.
    assert (0 <= _DAYS_BEFORE_MONTH m).
    { assert (m = 1 ∨ m = 2 ∨ m = 3 ∨ m = 4 ∨ m = 5 ∨ m = 6 ∨ m = 7 ∨ m = 8
              ∨ m = 9 ∨ m = 10 ∨ m = 11 ∨ m = 12) as Hc by lia.
      repeat destruct Hc as [->|Hc]; try subst m; simpl; lia. }
    destruct (_ && _); lia.
  - destruct (decide (m = 12)) as [->|Hne].
    + destruct (month_table_spec y 12 ltac:(lia)) as (_ & -> & _); [done|lia].
    + pose proof (_days_before_month_lt y m 12 ltac:(lia) ltac:(lia)
                    ltac:(lia)) as H1.
      destruct (month_table_spec y 12 ltac:(lia)) as (? & H2 & _).
      specialize (H2 eq_refl). lia.
Qed.

(** The tuples of two dates compare as their ordinals do. *)
Lemma _ymd2ord_compare ya ma da yb mb db :
  1 <= ma <= 12 → 1 <= da <= _days_in_month ya ma →
  1 <= mb <= 12 → 1 <= db <= _days_in_month yb mb →
  ymd_compare (ya, ma, da) (yb, mb, db)
  = (_ymd2ord ya ma da ?= _ymd2ord yb mb db).
Proof.
  intros Hma Hda Hmb Hdb. unfold ymd_compare, _ymd2ord. simpl.
  pose proof (_days_before_month_year ya ma Hma) as [Ha0 Ha1].
  pose proof (_days_before_month_year yb mb Hmb) as [Hb0 Hb1].
  destruct (Z.compare_spec ya yb) as [->|Hy|Hy].
  - destruct (Z.compare_spec ma mb) as [->|Hm|Hm].
    + destruct (Z.compare_spec da db) as [->|Hd|Hd]; symmetry.
      * apply Z.compare_refl.
      * apply Z.compare_lt_iff. lia.
      * apply Z.compare_gt_iff. lia.
    + symmetry. apply Z.compare_lt_iff.
      pose proof (_days_before_month_lt yb ma mb ltac:(lia) Hm ltac:(lia)).
      lia.
    + symmetry. apply Z.compare_gt_iff.
      pose proof (_days_before_month_lt yb mb ma ltac:(lia) Hm ltac:(lia)).
      lia.
  - symmetry. apply Z.compare_lt_iff.
    pose proof (_days_before_year_lt ya yb Hy) as H.
    rewrite _days_before_year_succ in H. destruct (_is_leap ya); lia.
  - symmetry. apply Z.compare_gt_iff.
    pose proof (_days_before_year_lt yb ya Hy) as H.
    rewrite _days_before_year_succ in H. destruct (_is_leap yb); lia.
Qed.

Lemma _ord2ymd_compare a b :
  valid_date a → valid_date b →
  ymd_compare (_ord2ymd a) (_ord2ymd b) = (a ?= b).
Proof.
  intros Ha Hb.
  pose proof (_ord2ymd_spec a Ha) as Sa.
  pose proof (_ord2ymd_spec b Hb) as Sb.
  pose proof (_ord2ymd_day_in_month a Ha) as Da.
  pose proof (_ord2ymd_day_in_month b Hb) as Db.
  destruct (_ord2ymd a) as [[ya ma] da], (_ord2ymd b) as [[yb mb] db].
  destruct Sa as (Ea & Rya & Rma & Rda), Sb as (Eb & Ryb & Rmb & Rdb).
  rewrite _ymd2ord_compare by lia. by rewrite Ea, Eb.
Qed.

End calendar_order_properties.

Section format_date_properties.

Lemma ascii_compare_digit a b :
  Ascii.compare (digit a) (digit b) = (a mod 10 ?= b mod 10).
Proof.
  unfold Ascii.compare, digit.
  pose proof (Z.mod_pos_bound a 10 ltac:(lia)).
  pose proof (Z.mod_pos_bound b 10 ltac:(lia)).
  rewrite !N_ascii_embedding by lia.
  destruct (Z.compare_spec (a mod 10) (b mod 10)) as [E|L|G].
  - rewrite E. apply N.compare_refl.
  - apply N.compare_lt_iff. lia.
  - apply N.compare_gt_iff. lia.
Qed.

Lemma string_compare_digit a b s t :
  String.compare (String (digit a) s) (String (digit b) t) =
    match a mod 10 ?= b mod 10 with
    | Eq => String.compare s t
    | c => c
    end.
Proof. simpl. by rewrite ascii_compare_digit. Qed.

Lemma string_compare_pad2 a b s t :
  0 <= a < 100 → 0 <= b < 100 →
  String.compare (pad2 a +:+ s) (pad2 b +:+ t) =
    match a ?= b with
    | Eq => String.compare s t
    | c => c
    end.
Proof.
  intros Ha Hb. unfold pad2. rewrite !append_String, !append_empty.
  rewrite !string_compare_digit.
  destruct (Z.compare_spec ((a / 10) mod 10) ((b / 10) mod 10)) as [E1|L1|G1].
  - destruct (Z.compare_spec (a mod 10) (b mod 10)) as [E0|L0|G0].
    + replace (a ?= b) with Eq; [done|].
      symmetry. apply Z.compare_eq_iff. Z.div_mod_to_equations. lia.
    + replace (a ?= b) with Lt; [done|].
      symmetry. apply Z.compare_lt_iff. Z.div_mod_to_equations. lia.
    + replace (a ?= b) with Gt; [done|].
      symmetry. apply Z.compare_gt_iff. Z.div_mod_to_equations. lia.
  - replace (a ?= b) with Lt; [done|].
    symmetry. apply Z.compare_lt_iff. Z.div_mod_to_equations. lia.
  - replace (a ?= b) with Gt; [done|].
    symmetry. apply Z.compare_gt_iff. Z.div_mod_to_equations. lia.
Qed.

Lemma string_compare_pad4 a b s t :
  0 <= a < 10000 → 0 <= b < 10000 →
  String.compare (pad4 a +:+ s) (pad4 b +:+ t) =
    match a ?= b with
    | Eq => String.compare s t
    | c => c
    end.
Proof.
  intros Ha Hb. unfold pad4. rewrite !append_String.
  rewrite !string_compare_digit.
  assert (Hlo : 0 <= a mod 100 < 100 ∧ 0 <= b mod 100 < 100).
  { split; apply Z.mod_pos_bound; lia. }
  assert (Hpad : ∀ n, pad2 n = pad2 (n mod 100)).
  { intros n. unfold pad2.
    assert (Hd : ∀ x y, x mod 10 = y mod 10 → digit x = digit y).
    { intros x y Hxy. unfold digit. by rewrite Hxy. }
    rewrite (Hd (n / 10) (n mod 100 / 10))
      by (Z.div_mod_to_equations; lia).
    rewrite (Hd n (n mod 100)) by (Z.div_mod_to_equations; lia).
    done. }
  rewrite (Hpad a), (Hpad b).
  rewrite string_compare_pad2 by lia.
  destruct (Z.compare_spec ((a / 1000) mod 10) ((b / 1000) mod 10))
    as [E3|L3|G3].
  - destruct (Z.compare_spec ((a / 100) mod 10) ((b / 100) mod 10))
      as [E2|L2|G2].
    + destruct (Z.compare_spec (a mod 100) (b mod 100)) as [E0|L0|G0].
      * replace (a ?= b) with Eq; [done|].
        symmetry. apply Z.compare_eq_iff. Z.div_mod_to_equations. lia.
      * replace (a ?= b) with Lt; [done|].
        symmetry. apply Z.compare_lt_iff. Z.div_mod_to_equations. lia.
      * replace (a ?= b) with Gt; [done|].
        symmetry. apply Z.compare_gt_iff. Z.div_mod_to_equations. lia.
    + replace (a ?= b) with Lt; [done|].
      symmetry. apply Z.compare_lt_iff. Z.div_mod_to_equations. lia.
    + replace (a ?= b) with Gt; [done|].
      symmetry. apply Z.compare_gt_iff. Z.div_mod_to_equations. lia.
  - replace (a ?= b) with Lt; [done|].
    symmetry. apply Z.compare_lt_iff. Z.div_mod_to_equations. lia.
  - replace (a ?= b) with Gt; [done|].
    symmetry. apply Z.compare_gt_iff. Z.div_mod_to_equations. lia.
Qed.

(** From year 1000 on, the strings of two dates compare as the dates do. *)
Lemma format_date_compare a b :
  valid_date a → valid_date b → 1000 <= year a → 1000 <= year b →
  String.compare (format_date a) (format_date b) = (a ?= b).
Proof.
  intros Ha Hb. rewrite <- (_ord2ymd_compare a b Ha Hb).
  unfold format_date, strftime_Ymd, year, month, day.
  pose proof (_ord2ymd_spec a Ha) as Sa.
  pose proof (_ord2ymd_spec b Hb) as Sb.
  destruct (_ord2ymd a) as [[ya ma] da], (_ord2ymd b) as [[yb mb] db].
  destruct Sa as (_ & Rya & Rma & Rda), Sb as (_ & Ryb & Rmb & Rdb).
  unfold ymd_compare. simpl fst. simpl snd. intros Hya Hyb.
  rewrite !strftime_Y_pad4 by done.
  rewrite string_compare_pad4 by lia.
  destruct (ya ?= yb); try done.
  rewrite !(append_String "-"), !append_empty.
  cbn [String.compare]. change (Ascii.compare "-" "-") with Eq. cbv iota.
  rewrite string_compare_pad2 by lia.
  destruct (ma ?= mb); try done.
  cbn [String.compare]. change (Ascii.compare "-" "-") with Eq. cbv iota.
  replace (pad2 da) with (pad2 da +:+ "") by (unfold pad2; reflexivity).
  replace (pad2 db) with (pad2 db +:+ "") by (unfold pad2; reflexivity).
  rewrite string_compare_pad2 by lia.
  by destruct (da ?= db).
Qed.

End format_date_properties.

Section date_utils_properties.

(** X1.  From year 1000 on [format_date] keeps the order of dates: the
    strings of two such dates compare, character by character, as the dates
    do, so [<=] and [<] on the strings are [<=] and [<] on the dates.  Before
    year 1000 the year is written without padding and the order is lost:
    ["1000-01-01"] is below ["999-12-31"].  Two dates with the same string
    are the same date, whatever their years. *)
Theorem format_date_order (a b : date) :
  valid_date a → valid_date b →
  (1000 <= year a → 1000 <= year b →
   (String.leb (format_date a) (format_date b) = true ↔ a <= b)
   ∧ (String.ltb (format_date a) (format_date b) = true ↔ a < b))
  ∧ (format_date a = format_date b ↔ a = b)
  ∧ String.ltb (format_date (mkdate 1000 1 1)) (format_date (mkdate 999 12 31))
    = true.
Proof.
  intros Ha Hb. split; [|split].
  - intros Hya Hyb. pose proof (format_date_compare a b Ha Hb Hya Hyb) as Hc.
    unfold String.leb, String.ltb. rewrite Hc.
    split; destruct (Z.compare_spec a b); split; (done || lia).
  - split; [|by intros ->]. by apply strftime_Ymd_inj.
  - vm_compute. reflexivity.
Qed.

Lemma format_date_order_witness :
  String.leb (format_date (mkdate 2023 12 31)) (format_date (mkdate 2024 1 1))
  = true ↔ mkdate 2023 12 31 <= mkdate 2024 1 1.
Proof.
  apply (proj1 (proj1 (format_date_order (mkdate 2023 12 31) (mkdate 2024 1 1)
                         ltac:(vm_compute; split; discriminate)
                         ltac:(vm_compute; split; discriminate))
                  ltac:(vm_compute; discriminate)
                  ltac:(vm_compute; discriminate))).
Defined.

(** X2.  [days_between] undoes [add_days]: stepping [days_between(a, b) - 1]
    days from [a] lands on [b], and the dates [add_days(a, n)] returns are
    [n + 1] days from [a], counted inclusively.  Two dates are the same day
    exactly when they are 1 day apart in that count. *)
Theorem days_between_add_days (a b : date) :
  valid_date a → valid_date b →
  add_days a (days_between a b - 1) = Ok b
  ∧ (∀ n e, add_days a n = Ok e → days_between a e = n + 1)
  ∧ (is_same_day a b = true ↔ days_between a b = 1).
Proof.
  intros Ha Hb. unfold days_between. split; [|split].
  - apply add_days_Ok. replace (a + (b - a + 1 - 1)) with b by lia. done.
  - intros n e He. apply add_days_Ok in He as [-> _]. lia.
  - unfold is_same_day. rewrite Z.eqb_eq. lia.
Qed.

Lemma days_between_add_days_witness :
  add_days (mkdate 2024 2 28)
    (days_between (mkdate 2024 2 28) (mkdate 2024 3 1) - 1)
  = Ok (mkdate 2024 3 1).
Proof.
  apply (proj1 (days_between_add_days (mkdate 2024 2 28) (mkdate 2024 3 1)
                  ltac:(vm_compute; split; discriminate)
                  ltac:(vm_compute; split; discriminate))).
Defined.

End date_utils_properties.

Section calculator_more_properties.

Import BusinessDayCalculator.

Lemma business_days_between_app self a b c :
  a <= b + 1 → b <= c →
  business_days_between self a c =
    business_days_between self a b ++ business_days_between self (b + 1) c.
Proof.
  intros Hab Hbc. unfold business_days_between.
  replace (c + 1 - a) with ((b + 1 - a) + (c + 1 - (b + 1))) by lia.
  rewrite seqZ_app by lia. rewrite List.filter_app.
  by replace (a + (b + 1 - a)) with (b + 1) by lia.
Qed.

Lemma length_business_days_between_le self a b :
  a <= b + 1 →
  (length (business_days_between self a b) <= Z.to_nat (b + 1 - a))%nat.
Proof.
  intros Hab. unfold business_days_between.
  etrans; [apply List.filter_length_le|].
  by rewrite length_seqZ.
Qed.

(** X3.  For a range that ends before 9999-12-31, [count_business_days]
    returns a count between 0 and [days_between(from_date, to_date)], and the
    count of a range is the sum of the counts of the two parts it is cut into
    at any day [mid]. *)
Theorem count_business_days_bounds_and_split (fuel : nat)
    (self : BusinessDayCalculator.t) (from_date mid to_date : date) :
  valid_date from_date → from_date <= mid → mid < to_date →
  to_date < _MAXORDINAL →
  (Z.to_nat (to_date + 1 - from_date) < fuel)%nat →
  ∃ c1 c2,
    count_business_days fuel self from_date mid = Some (Ok c1)
    ∧ count_business_days fuel self (mid + 1) to_date = Some (Ok c2)
    ∧ count_business_days fuel self from_date to_date = Some (Ok (c1 + c2))
    ∧ 0 <= c1 + c2 <= days_between from_date to_date.
Proof.
  intros Hv Hm Ht Hmax Hf.
  destruct (count_business_days_spec fuel self from_date mid)
    as [H1 _]; [done|lia|lia|lia|].
  destruct (count_business_days_spec fuel self (mid + 1) to_date)
    as [H2 _]; [unfold valid_date in *; lia|lia|lia|lia|].
  destruct (count_business_days_spec fuel self from_date to_date)
    as [H3 _]; [done|lia|lia|lia|].
  eexists _, _. split; [exact H1|]. split; [exact H2|].
  rewrite H3, (business_days_between_app self from_date mid to_date) by lia.
  rewrite length_app, Nat2Z.inj_add. split; [done|].
  pose proof (length_business_days_between_le self from_date mid ltac:(lia)).
  pose proof (length_business_days_between_le self (mid + 1) to_date
                ltac:(lia)).
  unfold days_between. lia.
Qed.

Lemma count_business_days_bounds_and_split_witness :
  ∃ c1 c2,
    count_business_days 20 (__init__ []) (mkdate 2024 1 1) (mkdate 2024 1 5)
      = Some (Ok c1)
    ∧ count_business_days 20 (__init__ []) (mkdate 2024 1 5 + 1)
        (mkdate 2024 1 14) = Some (Ok c2)
    ∧ count_business_days 20 (__init__ []) (mkdate 2024 1 1) (mkdate 2024 1 14)
      = Some (Ok (c1 + c2))
    ∧ 0 <= c1 + c2 <= days_between (mkdate 2024 1 1) (mkdate 2024 1 14).
Proof.
  apply (count_business_days_bounds_and_split 20 (__init__ [])
           (mkdate 2024 1 1) (mkdate 2024 1 5) (mkdate 2024 1 14)).
  - vm_compute. split; discriminate.
  - vm_compute. discriminate.
  - vm_compute. reflexivity.
  - vm_compute. reflexivity.
  - vm_compute. lia.
Defined.

Lemma is_business_day_no_holiday self d :
  format_date d ∉ _holiday_set self →
  is_business_day self d = negb ((weekday d =? 5) || (weekday d =? 6)).
Proof.
  intros Hd. unfold is_business_day, is_weekend.
  destruct ((weekday d =? 5) || (weekday d =? 6)); [done|].
  simpl. by apply bool_decide_eq_true.
Qed.

Lemma seqZ_week d :
  seqZ d 7 = [d; d + 1; d + 2; d + 3; d + 4; d + 5; d + 6].
Proof.
  unfold seqZ. simpl.
  repeat (apply (f_equal2 cons); [lia|]). done.
Qed.

(** Any seven consecutive days without a holiday hold five business days. *)
Lemma business_days_between_week self d :
  (∀ x, d <= x <= d + 6 → format_date x ∉ _holiday_set self) →
  length (business_days_between self d (d + 6)) = 5%nat.
Proof.
  intros Hno. unfold business_days_between.
  replace (d + 6 + 1 - d) with 7 by lia. rewrite seqZ_week.
  cbn [List.filter].
  rewrite !is_business_day_no_holiday by (apply Hno; lia).
  unfold weekday.
  pose proof (Z.mod_pos_bound (d + 6) 7 ltac:(lia)) as Hr.
  assert (Hi : ∀ i, 0 <= i < 7 →
            (d + i + 6) mod 7 = ((d + 6) mod 7 + i) mod 7).
  { intros i Hi. Z.div_mod_to_equations. lia. }
  rewrite !Hi by lia. replace ((d + 6) mod 7) with ((d + 6) mod 7 + 0) at 1
    by lia.
  replace (d + 6) with (d + 0 + 6) at 1 by lia. rewrite (Hi 0) by lia.
  assert (Hc : (d + 6) mod 7 = 0 ∨ (d + 6) mod 7 = 1 ∨ (d + 6) mod 7 = 2
               ∨ (d + 6) mod 7 = 3 ∨ (d + 6) mod 7 = 4 ∨ (d + 6) mod 7 = 5
               ∨ (d + 6) mod 7 = 6) by lia.
  destruct Hc as [-> | [-> | [-> | [-> | [-> | [-> | ->]]]]]]; reflexivity.
Qed.

Lemma business_days_between_weeks self (k : nat) :
  ∀ d,
    (∀ x, d <= x <= d + 7 * Z.of_nat k - 1 →
          format_date x ∉ _holiday_set self) →
    length (business_days_between self d (d + 7 * Z.of_nat k - 1))
    = (5 * k)%nat.
Proof.
  induction k as [|k IH]; intros d Hno.
  - rewrite business_days_between_empty by lia. done.
  - rewrite (business_days_between_app self d (d + 6)) by lia.
    rewrite length_app, business_days_between_week
      by (intros x Hx; apply Hno; lia).
    replace (d + 7 * Z.of_nat (S k) - 1)
      with (d + 6 + 1 + 7 * Z.of_nat k - 1) by lia.
    rewrite IH; [lia|].
    intros x Hx. apply Hno. lia.
Qed.

(** X4.  Over [k >= 1] whole weeks that hold no holiday and end before
    9999-12-31, [count_business_days] returns [5 * k], whatever the weekday
    the range starts on. *)
Theorem count_business_days_whole_weeks (fuel : nat)
    (self : BusinessDayCalculator.t) (from_date k : Z) :
  valid_date from_date → 1 <= k →
  from_date + 7 * k - 1 < _MAXORDINAL →
  (∀ x, from_date <= x <= from_date + 7 * k - 1 →
        format_date x ∉ _holiday_set self) →
  (Z.to_nat (7 * k) < fuel)%nat →
  count_business_days fuel self from_date (from_date + 7 * k - 1)
  = Some (Ok (5 * k)).
Proof.
  intros Hv Hk Hmax Hno Hf.
  destruct (count_business_days_spec fuel self from_date
              (from_date + 7 * k - 1)) as [-> _]; [done|lia|lia|lia|].
  replace k with (Z.of_nat (Z.to_nat k)) at 1 by lia.
  rewrite business_days_between_weeks.
  - apply (f_equal Some), (f_equal Ok). lia.
  - intros x Hx. apply Hno. lia.
Qed.

Lemma count_business_days_whole_weeks_witness :
  count_business_days 30 (__init__ []) (mkdate 2024 1 3)
    (mkdate 2024 1 3 + 7 * 2 - 1) = Some (Ok (5 * 2)).
Proof.
  apply (count_business_days_whole_weeks 30 (__init__ []) (mkdate 2024 1 3) 2).
  - vm_compute. split; discriminate.
  - lia.
  - vm_compute. reflexivity.
  - intros x _. apply not_elem_of_empty.
  - vm_compute. lia.
Defined.

End calculator_more_properties.

Section calculator_algebra_properties.

Import BusinessDayCalculator.

(** X5.  A calculator depends on its holidays only through the set of their
    [date] strings: two lists with the same date strings, in any order, with
    or without repetitions and whatever the other fields, build the same
    calculator. *)
Theorem calculator_depends_on_date_strings (holidays1 holidays2 : list Holiday.t) :
  (∀ s, s ∈ Holiday.date <$> holidays1 ↔ s ∈ Holiday.date <$> holidays2) →
  __init__ holidays1 = __init__ holidays2.
Proof.
  intros H. unfold __init__. f_equal. apply set_eq. intros s.
  rewrite !elem_of_list_to_set. apply H.
Qed.

Lemma calculator_depends_on_date_strings_witness :
  let h1 := Holiday.mk "a" "New Year" "2024-01-01" 2024 1 1 "Monday" public in
  let h2 := Holiday.mk "b" "Samiljeol" "2024-03-01" 2024 3 1 "Friday" public in
  let h1' := Holiday.mk "c" "Founding" "2024-01-01" 2024 1 1 "Monday" custom in
  __init__ [h1; h2] = __init__ [h2; h1'; h1].
Proof.
  intros h1 h2 h1'.
  apply (calculator_depends_on_date_strings [h1; h2] [h2; h1'; h1]).
  intros s. subst h1 h2 h1'. cbn [fmap list_fmap Holiday.date].
  rewrite !elem_of_cons, !elem_of_nil. tauto.
Defined.

Lemma is_business_day_antitone self1 self2 d :
  _holiday_set self1 ⊆ _holiday_set self2 →
  is_business_day self2 d = true → is_business_day self1 d = true.
Proof.
  intros Hsub. unfold is_business_day.
  destruct (is_weekend d); [done|]. simpl.
  rewrite !bool_decide_eq_true. intros H2 H1. apply H2. by apply Hsub.
Qed.

Lemma count_business_days_loop_antitone self1 self2 to_date :
  _holiday_set self1 ⊆ _holiday_set self2 →
  ∀ fuel current count1 count2 c1 c2,
    count2 <= count1 →
    count_business_days_loop fuel self1 to_date current count1 = Some (Ok c1) →
    count_business_days_loop fuel self2 to_date current count2 = Some (Ok c2) →
    c2 <= c1.
Proof.
  intros Hsub fuel. induction fuel as [|fuel IH];
    intros current count1 count2 c1 c2 Hle; simpl; [done|].
  destruct (current <=? to_date).
  - destruct (add_days current 1) as [current'|e]; [|done].
    apply IH.
    pose proof (is_business_day_antitone self1 self2 current Hsub) as Hbd.
    destruct (is_business_day self2 current).
    + rewrite Hbd by done. lia.
    + destruct (is_business_day self1 current); lia.
  - intros [= <-] [= <-]. done.
Qed.

(** X6.  More holidays never make more business days: when the holiday
    strings of one calculator are among those of another, every business day
    of the second is a business day of the first, and over any range the
    second counts at most as many business days as the first. *)
Theorem more_holidays_fewer_business_days (fuel : nat)
    (self1 self2 : BusinessDayCalculator.t) (from_date to_date : date)
    (c1 c2 : Z) :
  _holiday_set self1 ⊆ _holiday_set self2 →
  count_business_days fuel self1 from_date to_date = Some (Ok c1) →
  count_business_days fuel self2 from_date to_date = Some (Ok c2) →
  c2 <= c1
  ∧ ∀ d, is_business_day self2 d = true → is_business_day self1 d = true.
Proof.
  intros Hsub H1 H2. split.
  - unfold count_business_days in *.
    destruct (to_date <? from_date); [done|].
    by eapply (count_business_days_loop_antitone self1 self2 to_date Hsub
                 fuel from_date 0 0).
  - intros d. by apply is_business_day_antitone.
Qed.

Lemma more_holidays_fewer_business_days_witness :
  let h := Holiday.mk "a" "New Year" "2024-01-01" 2024 1 1 "Monday" public in
  4 <= 5
  ∧ ∀ d, is_business_day (__init__ [h]) d = true →
         is_business_day (__init__ []) d = true.
Proof.
  intros h.
  apply (more_holidays_fewer_business_days 10 (__init__ []) (__init__ [h])
           (mkdate 2024 1 1) (mkdate 2024 1 5) 5 4).
  - intros s Hs. by apply elem_of_empty in Hs.
  - vm_compute. reflexivity.
  - vm_compute. reflexivity.
Defined.

Lemma add_business_days_loop_one self direction :
  ∀ fuel current,
    add_business_days_loop (S fuel) self direction 1 current 0 =
      match add_days current direction with
      | Ok current' => seek_business_day_loop fuel self direction current'
      | Raise e => Some (Raise e)
      end.
Proof.
  intros fuel. induction fuel as [|fuel IH]; intros current.
  - simpl. by destruct (add_days current direction).
  - cbn [add_business_days_loop]. change (0 <? 1) with true. cbv iota.
    destruct (add_days current direction) as [current'|e]; [|done].
    cbn [seek_business_day_loop].
    destruct (is_business_day self current') eqn:Hbd; simpl.
    + done.
    + apply IH.
Qed.

(** X7.  Adding one business day is taking the next business day, and
    adding minus one is taking the previous one: the two methods return the
    same date or raise the same error, [add_business_days] using one loop
    iteration more. *)
Theorem add_business_days_one (fuel : nat) (self : BusinessDayCalculator.t)
    (from_date : date) :
  add_business_days (S fuel) self from_date 1
  = get_next_business_day fuel self from_date
  ∧ add_business_days (S fuel) self from_date (-1)
    = get_previous_business_day fuel self from_date.
Proof.
  unfold add_business_days, get_next_business_day, get_previous_business_day.
  split.
  - change (1 =? 0) with false. change (0 <? 1) with true.
    change (Z.abs 1) with 1. cbv iota.
    apply add_business_days_loop_one.
  - change (-1 =? 0) with false. change (0 <? -1) with false.
    change (Z.abs (-1)) with 1. cbv iota.
    apply add_business_days_loop_one.
Qed.

Lemma add_business_days_loop_first self direction remaining :
  direction = 1 ∨ direction = -1 →
  ∀ fuel current e,
    valid_date current → 0 < remaining →
    add_business_days_loop fuel self direction remaining current 0
      = Some (Ok e) →
    ∃ k : nat,
      (k < fuel)%nat ∧ (0 < k)%nat
      ∧ e = current + direction * Z.of_nat k
      ∧ valid_date e
      ∧ business_days_stepped self current direction k = remaining
      ∧ ∀ j, (j < k)%nat →
             business_days_stepped self current direction j < remaining.
Proof.
  intros Hdir fuel current e Hv Hr Hloop.
  apply add_business_days_loop_sound in Hloop
    as (k & Hk & -> & Hve & Hcount & Hbd); [|done|done|lia].
  destruct k as [|k]; [simpl in Hcount; lia|].
  exists (S k). split; [done|]. split; [lia|]. split; [done|].
  split; [done|]. split; [lia|].
  intros j Hj. specialize (Hbd ltac:(lia)).
  pose proof (business_days_stepped_snoc self current direction k) as Hs.
  rewrite Hbd in Hs.
  pose proof (business_days_stepped_mono self current direction j k
                ltac:(lia)).
  lia.
Qed.

(** X8.  Business days add up: for [m] and [n] of the same sign, when
    [add_business_days(d, m)] returns [e] and [add_business_days(e, n)]
    returns [e'], then [add_business_days(d, m + n)] returns [e'] too. *)
Theorem add_business_days_add (fuel : nat) (self : BusinessDayCalculator.t)
    (d e e' : date) (m n : Z) :
  valid_date d → 0 < m * n →
  add_business_days fuel self d m = Some (Ok e) →
  add_business_days fuel self e n = Some (Ok e') →
  add_business_days (fuel + fuel) self d (m + n) = Some (Ok e').
Proof.
  intros Hv Hsign H1 H2. unfold add_business_days in *.
  destruct (Z.eqb_spec m 0) as [->|Hm]; [lia|].
  destruct (Z.eqb_spec n 0) as [->|Hn]; [lia|].
  destruct (Z.eqb_spec (m + n) 0) as [?|_]; [nia|].
  set (direction := if 0 <? m then 1 else -1) in *.
  assert (Hdir : direction = 1 ∨ direction = -1).
  { unfold direction. destruct (0 <? m); auto. }
  replace (if 0 <? n then 1 else -1) with direction in H2.
  2:{ unfold direction. destruct (Z.ltb_spec 0 m), (Z.ltb_spec 0 n); nia. }
  replace (if 0 <? m + n then 1 else -1) with direction.
  2:{ unfold direction. destruct (Z.ltb_spec 0 m), (Z.ltb_spec 0 (m + n));
        nia. }
  apply (add_business_days_loop_first self direction (Z.abs m) Hdir) in H1
    as (k1 & Hk1 & Hp1 & -> & Hve & Hc1 & He1); [|done|lia].
  apply (add_business_days_loop_first self direction (Z.abs n) Hdir) in H2
    as (k2 & Hk2 & Hp2 & -> & Hve' & Hc2 & He2); [|done|lia].
  replace (d + direction * Z.of_nat k1 + direction * Z.of_nat k2)
    with (d + direction * Z.of_nat (k1 + k2)) in * by lia.
  assert (Habs : Z.abs (m + n) = Z.abs m + Z.abs n) by nia.
  apply add_business_days_loop_complete; try done; try lia.
  - rewrite business_days_stepped_app. lia.
  - intros j Hj. destruct (decide (j < k1)%nat) as [Hlt|Hge].
    + specialize (He1 j Hlt). lia.
    + replace j with (k1 + (j - k1))%nat by lia.
      rewrite business_days_stepped_app.
      specialize (He2 (j - k1)%nat ltac:(lia)). lia.
Qed.

Lemma add_business_days_add_witness :
  add_business_days (10 + 10) (__init__ []) (mkdate 2024 1 4) (2 + 3)
  = Some (Ok (mkdate 2024 1 11)).
Proof.
  apply (add_business_days_add 10 (__init__ []) (mkdate 2024 1 4)
           (mkdate 2024 1 8) (mkdate 2024 1 11) 2 3).
  - vm_compute. split; discriminate.
  - lia.
  - vm_compute. reflexivity.
  - vm_compute. reflexivity.
Defined.

End calculator_algebra_properties.

Section cache_more_properties.

Import SmartCache.

(** X9.  [set] overwrites without merging and touches one year only: a
    second [set] for a year leaves the cache as if the first had not been
    made, and a [set] for one year leaves what [get] returns for any other
    year as it was. *)
Theorem set_overwrites_and_isolates (now1 now2 : binary64) (cy1 cy2 : Z)
    (self : SmartCache.t) (year : Z) (holidays1 holidays2 : list Holiday.t) :
  set now2 cy2 (set now1 cy1 self year holidays1).1 year holidays2
  = set now2 cy2 self year holidays2
  ∧ ∀ year' now,
      year' ≠ year →
      (get now (set now1 cy1 self year holidays1).1 year').2
      = (get now self year').2.
Proof.
  split.
  - assert (Hsame : ∀ store,
              _get_ttl cy2
                {| _store := store; _hits := _hits self;
                   _misses := _misses self; _custom_ttl := _custom_ttl self |}
                year
              = _get_ttl cy2 self year) by done.
    rewrite (set_unfold now1).
    destruct (float_of_int (_get_ttl cy1 self year)) as [ttl1|e1] eqn:Hf1;
      [|reflexivity].
    cbn [fst]. rewrite !set_unfold, Hsame.
    destruct (float_of_int (_get_ttl cy2 self year)) as [ttl2|e2] eqn:Hf2.
    + simpl. by rewrite insert_insert_eq.
    + exfalso. unfold _get_ttl in Hf1, Hf2.
      destruct (_custom_ttl self); [congruence|].
      destruct (year <? cy2); [done|]. by destruct (year =? cy2).
  - intros year' now Hne. rewrite !get_result.
    unfold cached_unexpired. by rewrite set_other_year.
Qed.

Lemma set_overwrites_and_isolates_witness :
  let h := Holiday.mk "a" "New Year" "2024-01-01" 2024 1 1 "Monday" public in
  (get (round_int 150)
     (set (round_int 100) 2024 (__init__ None) 2024 [h]).1 2023).2
  = (get (round_int 150) (__init__ None) 2023).2.
Proof.
  intros h.
  apply (proj2 (set_overwrites_and_isolates (round_int 100) (round_int 100)
                  2024 2024 (__init__ None) 2024 [h] [h])
           2023 (round_int 150)).
  lia.
Defined.

(** X10.  [get_stats] is a faithful snapshot: it reports the two counters,
    [size] is the number of [entries], and [entries] lists every stored key
    exactly once, with the [expires_at] of its entry, and nothing else. *)
Theorem get_stats_snapshot (self : SmartCache.t) :
  let '(hits, misses, size, entries) := get_stats self in
  hits = _hits self ∧ misses = _misses self
  ∧ size = Z.of_nat (length entries)
  ∧ NoDup entries.*1
  ∧ ∀ key expires_at,
      (key, expires_at) ∈ entries ↔
      ∃ entry, _store self !! key = Some entry
               ∧ CacheEntry.expires_at entry = expires_at.
Proof.
  unfold get_stats. split; [done|]. split; [done|].
  split; [by rewrite length_fmap, length_map_to_list|].
  split.
  - rewrite <- list_fmap_compose.
    replace (fst ∘ (λ kv : string * CacheEntry.t,
                      (kv.1, CacheEntry.expires_at kv.2)))
      with (fst : string * CacheEntry.t → string) by done.
    apply NoDup_fst_map_to_list.
  - intros key expires_at. rewrite list_elem_of_fmap. split.
    + intros ([k entry] & [= -> ->] & Hin).
      apply elem_of_map_to_list in Hin. eauto.
    + intros (entry & Hk & <-). exists (key, entry). split; [done|].
      by apply elem_of_map_to_list.
Qed.

Lemma get_counters now self year :
  let self' := (get now self year).1 in
  match (get now self year).2 with
  | Some _ =>
      _hits self' = _hits self + 1 ∧ _misses self' = _misses self
      ∧ _store self' = _store self
  | None => _hits self' = _hits self ∧ _misses self' = _misses self + 1
  end.
Proof.
  unfold get.
  destruct (_store self !! _get_year_key year) as [entry|]; [|done].
  by destruct (float_gt now (CacheEntry.expires_at entry)).
Qed.

Lemma get_range_loop_accounting now years :
  ∀ self all_holidays,
    let self' := (get_range_loop now self years all_holidays).1 in
    match (get_range_loop now self years all_holidays).2 with
    | Some _ =>
        _hits self' = _hits self + Z.of_nat (length years)
        ∧ _misses self' = _misses self ∧ _store self' = _store self
    | None =>
        _hits self <= _hits self' <= _hits self + Z.of_nat (length years)
        ∧ _misses self <= _misses self' <= _misses self + 1
        ∧ _hits self' + _misses self' - (_hits self + _misses self)
          <= Z.of_nat (length years)
    end.
Proof.
  induction years as [|year years IH]; intros self all_holidays.
  - simpl. split; [lia|done].
  - cbn [get_range_loop].
    pose proof (get_counters (now year) self year) as Hc.
    destruct (get (now year) self year) as [self1 cached]. simpl in Hc.
    destruct cached as [[|h cached]|]; cbn [py_not].
    + cbn [fst snd length]. lia.
    + specialize (IH self1 (all_holidays ++ default [] (Some (h :: cached)))).
      cbv zeta in IH.
      destruct (get_range_loop now self1 years _) as [self2 r].
      cbn [fst snd length] in *.
      destruct Hc as (Hh & Hm & Hs).
      destruct r as [l|].
      * destruct IH as (IHh & IHm & IHs).
        split; [lia|]. split; [lia|]. congruence.
      * lia.
    + cbn [fst snd length]. lia.
Qed.

(** X11.  [get_range] counts each year once.  When it returns a list it has
    counted one hit for each year of [range(from_year, to_year + 1)], no
    miss, and has left the store as it was; when it returns [None] it has
    counted at most one miss and no more lookups than there are years. *)
Theorem get_range_accounting (now : Z → binary64) (self : SmartCache.t)
    (from_date to_date : date) :
  let self' := (get_range now self from_date to_date).1 in
  let years := Z.of_nat (length (years_spanned from_date to_date)) in
  match (get_range now self from_date to_date).2 with
  | Some _ =>
      _hits self' = _hits self + years
      ∧ _misses self' = _misses self ∧ _store self' = _store self
  | None =>
      _hits self <= _hits self' <= _hits self + years
      ∧ _misses self <= _misses self' <= _misses self + 1
      ∧ _hits self' + _misses self' - (_hits self + _misses self) <= years
  end.
Proof.
  unfold get_range, years_spanned.
  destruct (Z.eqb_spec (year from_date) (year to_date)) as [Heq|Hne].
  - rewrite <- Heq.
    replace (year from_date + 1 - year from_date) with 1 by lia.
    change (seqZ (year from_date) 1) with [year from_date].
    pose proof (get_counters (now (year from_date)) self (year from_date))
      as Hc.
    destruct (get (now (year from_date)) self (year from_date))
      as [self1 cached]. simpl in Hc.
    destruct cached as [[|h cached]|]; simpl in *.
    + lia.
    + destruct Hc as (Hh & Hm & Hs). split; [lia|]. split; [lia|done].
    + lia.
  - pose proof (get_range_loop_accounting now
                  (seqZ (year from_date) (year to_date + 1 - year from_date))
                  self []) as Hloop.
    cbv zeta in Hloop.
    destruct (get_range_loop now self _ []) as [self1 r]; simpl in *.
    by destruct r.
Qed.

(** X12.  What [get_range] returns.  It returns a list exactly when every
    year of [range(from_year, to_year + 1)] is stored, unexpired and cached
    with a list that is not empty, and the list is then the cached lists of
    those years, in year order, restricted to the holidays whose [date]
    string lies between the two formatted dates.  A range whose
    [from_date] is in a later year than its [to_date] spans no year and
    gives the empty list. *)
Theorem get_range_returns (now : Z → binary64) (self : SmartCache.t)
    (from_date to_date : date) :
  let live y := cached_unexpired (now y) (_store self) y in
  let years := years_spanned from_date to_date in
  (get_range now self from_date to_date).2 =
    (if forallb (λ y, negb (py_not (live y))) years
     then Some (List.filter
                  (in_range (format_date from_date) (format_date to_date))
                  (concat ((λ y, default [] (live y)) <$> years)))
     else None)
  ∧ (year to_date < year from_date →
     get_range now self from_date to_date = (self, Some [])).
Proof.
  split; [apply get_range_result|].
  intros Hlt. unfold get_range.
  destruct (Z.eqb_spec (year from_date) (year to_date)); [lia|].
  rewrite seqZ_nil by lia. done.
Qed.

Lemma prune_lookup now self key :
  _store (prune now self).1 !! key =
    match _store self !! key with
    | Some entry =>
        if float_gt now (CacheEntry.expires_at entry) then None
        else Some entry
    | None => None
    end.
Proof.
  unfold prune. simpl. rewrite lookup_foldl_delete.
  case_decide as Hin.
  - apply elem_of_to_remove in Hin as (entry & -> & Hf). simpl in Hf.
    by rewrite Hf.
  - destruct (_store self !! key) as [entry|] eqn:Hk; [|done].
    destruct (float_gt now (CacheEntry.expires_at entry)) eqn:Hf; [|done].
    exfalso. apply Hin. apply elem_of_to_remove. eauto.
Qed.

Lemma filter_nil_all_false {A : Type} (f : A → bool) (l : list A) :
  (∀ x, x ∈ l → f x = false) → List.filter f l = [].
Proof.
  induction l as [|x l IH]; intros H; simpl; [done|].
  rewrite (H x) by apply list_elem_of_here.
  apply IH. intros y Hy. apply H. by apply list_elem_of_further.
Qed.

(** X13.  [prune] is invisible to [get] and is idempotent: at the same clock
    reading every [get] returns after a [prune] what it would have returned
    before it, and a second [prune] removes nothing and changes nothing. *)
Theorem prune_transparent_idempotent (now : binary64) (self : SmartCache.t) :
  (∀ year, (get now (prune now self).1 year).2 = (get now self year).2)
  ∧ prune now (prune now self).1 = ((prune now self).1, 0).
Proof.
  split.
  - intros year. rewrite !get_result. unfold cached_unexpired.
    rewrite prune_lookup.
    destruct (_store self !! _get_year_key year) as [entry|]; [|done].
    by destruct (float_gt now (CacheEntry.expires_at entry)) eqn:Hf;
      [|rewrite Hf].
  - set (self1 := (prune now self).1).
    assert (Hnone :
      List.filter (λ kv : string * CacheEntry.t,
                     float_gt now (CacheEntry.expires_at kv.2))
        (map_to_list (_store self1)) = []).
    { apply filter_nil_all_false. intros [k entry] Hin. simpl.
      apply elem_of_map_to_list in Hin. subst self1.
      rewrite prune_lookup in Hin.
      destruct (_store self !! k) as [entry'|]; [|done].
      destruct (float_gt now (CacheEntry.expires_at entry')) eqn:Hf; [done|].
      by injection Hin as <-. }
    clearbody self1. unfold prune. rewrite Hnone. simpl.
    by destruct self1.
Qed.

(** X14.  From year 1000 on, the range filter of [get_range] is
    chronological on formatted dates: when the two dates of the range and
    the date [x] are of year 1000 or later, a holiday whose [date] is the
    formatted date [x] is kept exactly when [from_date <= x <= to_date]. *)
Theorem in_range_chronological (from_date to_date x : date) (h : Holiday.t) :
  valid_date from_date → valid_date to_date → valid_date x →
  1000 <= year from_date → 1000 <= year to_date → 1000 <= year x →
  Holiday.date h = format_date x →
  in_range (strftime_Ymd from_date) (strftime_Ymd to_date) h = true
  ↔ from_date <= x <= to_date.
Proof.
  intros Hf Ht Hx Hyf Hyt Hyx Hd. unfold in_range. rewrite Hd.
  change (strftime_Ymd from_date) with (format_date from_date).
  change (strftime_Ymd to_date) with (format_date to_date).
  rewrite andb_true_iff.
  unfold String.leb. rewrite !format_date_compare by done.
  destruct (Z.compare_spec from_date x), (Z.compare_spec x to_date);
    split; intros; try lia; try done; try (split; done);
    destruct H1; done.
Qed.

Lemma in_range_chronological_witness :
  let h := Holiday.mk "a" "Samiljeol" "2024-03-01" 2024 3 1 "Friday" public in
  in_range (strftime_Ymd (mkdate 2024 1 1)) (strftime_Ymd (mkdate 2024 12 31)) h
  = true ↔ mkdate 2024 1 1 <= mkdate 2024 3 1 <= mkdate 2024 12 31.
Proof.
  intros h.
  apply (in_range_chronological (mkdate 2024 1 1) (mkdate 2024 12 31)
           (mkdate 2024 3 1) h).
  - vm_compute. split; discriminate.
  - vm_compute. split; discriminate.
  - vm_compute. split; discriminate.
  - vm_compute. discriminate.
  - vm_compute. discriminate.
  - vm_compute. discriminate.
  - vm_compute. reflexivity.
Defined.

(** Before year 1000 the filter is not chronological: the range from
    0200-01-01 to 0201-12-31, formatted ["200-01-01"] and ["201-12-31"],
    keeps a holiday of 2000-06-01. *)
Example in_range_before_year_1000 :
  in_range (strftime_Ymd (mkdate 200 1 1)) (strftime_Ymd (mkdate 201 12 31))
    (Holiday.mk "a" "Memorial" "2000-06-01" 2000 6 1 "Thursday" public)
  = true.
Proof. vm_compute. reflexivity. Qed.

End cache_more_properties.
Lemma get_range_returns_witness :
  SmartCache.get_range (λ _, round_int 0) (SmartCache.__init__ None)
    (mkdate 2025 1 1) (mkdate 2024 12 31)
  = (SmartCache.__init__ None, Some []).
Proof.
  apply (proj2 (get_range_returns (λ _, round_int 0) (SmartCache.__init__ None)
                  (mkdate 2025 1 1) (mkdate 2024 12 31))).
  vm_compute. reflexivity.
Defined.

Section parse_date_properties.

Lemma digit_not_dash n : Ascii.eqb (digit n) "-" = false.
Proof.
  apply Ascii.eqb_neq. intros H.
  apply (f_equal (λ c, Z.of_N (N_of_ascii c))) in H.
  rewrite digit_code in H. simpl in H.
  pose proof (Z.mod_pos_bound n 10 ltac:(lia)). lia.
Qed.

Lemma digits_value_digit n s acc :
  digits_value (String (digit n) s) acc
  = digits_value s (10 * acc + n mod 10).
Proof.
  cbn [digits_value]. rewrite digit_code.
  pose proof (Z.mod_pos_bound n 10 ltac:(lia)).
  destruct (Z.leb_spec 48 (48 + n mod 10)), (Z.leb_spec (48 + n mod 10) 57);
    try lia.
  simpl. f_equal. lia.
Qed.

Lemma py_int_pad2 n : 0 <= n < 100 → py_int (pad2 n) = Some (Ok n).
Proof.
  intros Hn. unfold py_int, pad2. cbn [String.length Nat.ltb Nat.leb].
  rewrite !digits_value_digit. cbn [digits_value]. do 2 f_equal. Z.div_mod_to_equations. lia.
Qed.

Lemma py_int_strftime_Y n :
  0 <= n < 10000 → py_int (strftime_Y n) = Some (Ok n).
Proof.
  intros Hn. unfold strftime_Y, py_int, pad4, pad2.
  destruct (Z.ltb_spec n 10), (Z.ltb_spec n 100), (Z.ltb_spec n 1000);
    try lia; cbn [String.length Nat.ltb Nat.leb];
    rewrite !digits_value_digit; cbn [digits_value]; do 2 f_equal;
    Z.div_mod_to_equations; lia.
Qed.

Lemma str_split_strftime y m d :
  str_split "-" (strftime_Y y +:+ "-" +:+ pad2 m +:+ "-" +:+ pad2 d)
  = [strftime_Y y; pad2 m; pad2 d].
Proof.
  unfold strftime_Y, pad4, pad2.
  destruct (y <? 10), (y <? 100), (y <? 1000);
    rewrite !append_String, !append_empty;
    cbn [str_split]; rewrite !digit_not_dash;
    change (Ascii.eqb "-" "-") with true; cbv iota;
    cbn [str_split]; rewrite ?digit_not_dash; done.
Qed.

(** X21.  [parse_date] reads back what [format_date] writes: for every date
    [d], [parse_date(format_date(d))] returns [d]. *)
Theorem parse_date_format_date (d : date) :
  valid_date d → parse_date (format_date d) = Some (Ok d).
Proof.
  intros Hd. unfold parse_date, format_date, strftime_Ymd, year, month, day.
  pose proof (_ord2ymd_spec d Hd) as Sd.
  pose proof (_ord2ymd_day_in_month d Hd) as Dd.
  destruct (_ord2ymd d) as [[y m] dd]. simpl fst. simpl snd.
  destruct Sd as (Hord & Ry & Rm & Rd).
  rewrite str_split_strftime.
  rewrite py_int_strftime_Y, !py_int_pad2 by lia.
  unfold date_new. cbv zeta.
  repeat match goal with
    | |- context [?a <=? ?b] => destruct (Z.leb_spec a b); try lia
    end.
  simpl. by rewrite Hord.
Qed.

Lemma parse_date_format_date_witness :
  parse_date (format_date (mkdate 2024 2 29)) = Some (Ok (mkdate 2024 2 29)).
Proof.
  apply (parse_date_format_date (mkdate 2024 2 29)).
  vm_compute. split; discriminate.
Defined.

(** X22.  The validator of [Holiday.date] accepts the formatted string of a
    date exactly when its year is between 1900 and 2100.  It checks the day
    against 31 only: it accepts ["2024-02-31"], which [parse_date] refuses
    with [ValueError], and ["2024-1-1"], which no date is formatted as. *)
Theorem validate_date_format_format_date (d : date) :
  valid_date d →
  (validate_date_format (format_date d) = Some (Ok (format_date d))
   ↔ 1900 <= year d <= 2100)
  ∧ (validate_date_format (format_date d) = Some (Raise ValueError)
     ↔ ¬ 1900 <= year d <= 2100)
  ∧ validate_date_format "2024-02-31" = Some (Ok "2024-02-31")
  ∧ parse_date "2024-02-31" = Some (Raise ValueError)
  ∧ validate_date_format "2024-1-1" = Some (Ok "2024-1-1").
Proof.
  intros Hd.
  split; [|split; [|repeat split; vm_compute; reflexivity]];
    unfold validate_date_format, format_date, strftime_Ymd, year, month, day;
    pose proof (_ord2ymd_spec d Hd) as Sd;
    destruct (_ord2ymd d) as [[y m] dd]; simpl fst; simpl snd;
    destruct Sd as (Hord & Ry & Rm & Rd);
    rewrite str_split_strftime;
    rewrite py_int_strftime_Y, !py_int_pad2 by lia;
    destruct (Z.leb_spec 1900 y), (Z.leb_spec y 2100), (Z.leb_spec 1 m),
      (Z.leb_spec m 12), (Z.leb_spec 1 dd), (Z.leb_spec dd 31);
    simpl; split; first [done | lia | intros; lia | intros; done].
Qed.

Lemma validate_date_format_format_date_witness :
  validate_date_format (format_date (mkdate 1899 12 31))
  = Some (Raise ValueError) ↔ ¬ 1900 <= year (mkdate 1899 12 31) <= 2100.
Proof.
  apply (proj1 (proj2 (validate_date_format_format_date (mkdate 1899 12 31)
                         ltac:(vm_compute; split; discriminate)))).
Defined.

End parse_date_properties.

Section calculator_string_properties.

Import BusinessDayCalculator.

Lemma length_format_date d :
  1000 <= year d → String.length (format_date d) = 10%nat.
Proof.
  intros Hy. unfold format_date, strftime_Ymd.
  rewrite strftime_Y_pad4 by done. unfold pad4, pad2.
  rewrite !append_String, !append_empty. reflexivity.
Qed.

(** X23.  A holiday whose [date] string is not ten characters long, such
    as ["2024-1-1"], is never matched from year 1000 on: the calculator
    built with it answers [is_business_day] for every date of year 1000 or
    later as the calculator built without it. *)
Theorem noncanonical_holiday_inert (h : Holiday.t) (holidays : list Holiday.t)
    (d : date) :
  String.length (Holiday.date h) ≠ 10%nat → 1000 <= year d →
  is_business_day (__init__ (h :: holidays)) d
  = is_business_day (__init__ holidays) d.
Proof.
  intros Hlen Hy. unfold is_business_day.
  destruct (is_weekend d); [done|]. simpl.
  apply bool_decide_ext. rewrite elem_of_union, elem_of_singleton.
  split.
  - intros Hn Hin. apply Hn. by right.
  - intros Hn [Heq|Hin]; [|done].
    apply Hlen. rewrite <- Heq. by apply length_format_date.
Qed.

Lemma noncanonical_holiday_inert_witness :
  let h := Holiday.mk "a" "New Year" "2024-1-1" 2024 1 1 "Monday" public in
  is_business_day (__init__ [h]) (mkdate 2024 1 1)
  = is_business_day (__init__ []) (mkdate 2024 1 1).
Proof.
  intros h.
  apply (noncanonical_holiday_inert h [] (mkdate 2024 1 1)).
  - vm_compute. discriminate.
  - vm_compute. discriminate.
Defined.

Lemma business_days_between_sorted self :
  ∀ (n : nat) from_date to_date,
    Z.to_nat (to_date + 1 - from_date) = n →
    StronglySorted Z.lt (business_days_between self from_date to_date).
Proof.
  intros n. induction n as [|n IH]; intros from_date to_date Hn.
  - rewrite business_days_between_empty by lia. constructor.
  - rewrite business_days_between_cons by lia.
    specialize (IH (from_date + 1) to_date ltac:(lia)).
    destruct (is_business_day self from_date); [|done].
    simpl. constructor; [done|].
    apply Forall_forall. intros x Hx.
    apply elem_of_business_days_between in Hx. lia.
Qed.

(** X24.  For a range that ends before 9999-12-31,
    [get_business_days_in_range] returns the business days of the range and
    nothing else, each once and in increasing order, and
    [count_business_days] returns the length of that list. *)
Theorem get_business_days_in_range_sorted (fuel : nat)
    (self : BusinessDayCalculator.t) (from_date to_date : date) :
  valid_date from_date → from_date <= to_date → to_date < _MAXORDINAL →
  (Z.to_nat (to_date + 1 - from_date) < fuel)%nat →
  ∃ l,
    get_business_days_in_range fuel self from_date to_date = Some (Ok l)
    ∧ count_business_days fuel self from_date to_date
      = Some (Ok (Z.of_nat (length l)))
    ∧ StronglySorted Z.lt l
    ∧ ∀ d, d ∈ l ↔ from_date <= d <= to_date ∧ is_business_day self d = true.
Proof.
  intros Hv Hle Hmax Hf.
  destruct (count_business_days_spec fuel self from_date to_date Hv Hle Hmax Hf)
    as [Hcount Hrange].
  exists (business_days_between self from_date to_date).
  split; [done|]. split; [done|]. split.
  - by eapply business_days_between_sorted.
  - intros d. apply elem_of_business_days_between.
Qed.

Lemma get_business_days_in_range_sorted_witness :
  ∃ l,
    get_business_days_in_range 20 (__init__ []) (mkdate 2024 1 5)
      (mkdate 2024 1 12) = Some (Ok l)
    ∧ count_business_days 20 (__init__ []) (mkdate 2024 1 5) (mkdate 2024 1 12)
      = Some (Ok (Z.of_nat (length l)))
    ∧ StronglySorted Z.lt l
    ∧ ∀ d, d ∈ l ↔
           mkdate 2024 1 5 <= d <= mkdate 2024 1 12
           ∧ is_business_day (__init__ []) d = true.
Proof.
  apply (get_business_days_in_range_sorted 20 (__init__ [])
           (mkdate 2024 1 5) (mkdate 2024 1 12)).
  - vm_compute. split; discriminate.
  - vm_compute. discriminate.
  - vm_compute. reflexivity.
  - vm_compute. lia.
Defined.

End calculator_string_properties.

Section errors_properties.

(** X15.  [HudyError.from_response] keeps the status and the message, and
    marks the error retryable exactly for status 429 and for the statuses
    from 500 up; the code is [INTERNAL_ERROR] for every status other than
    400, 401, 403, 404 and 429.  Network and timeout errors are retryable,
    invalid responses are not. *)
Theorem from_response_spec (status : Z) (message : string) :
  let e := HudyError.from_response status message in
  HudyError.status_code e = Some status
  ∧ HudyError.message e = message
  ∧ (HudyError.retryable e = true ↔ status = 429 ∨ 500 <= status)
  ∧ (HudyError.code e = INTERNAL_ERROR ↔
     status ≠ 400 ∧ status ≠ 401 ∧ status ≠ 403 ∧ status ≠ 404
     ∧ status ≠ 429)
  ∧ HudyError.retryable (HudyError.network_error message) = true
  ∧ HudyError.retryable (HudyError.timeout message) = true
  ∧ HudyError.retryable (HudyError.invalid_response message) = false.
Proof.
  unfold HudyError.from_response.
  destruct (Z.eqb_spec status 401), (Z.eqb_spec status 403),
    (Z.eqb_spec status 404), (Z.eqb_spec status 429),
    (Z.eqb_spec status 400); simpl;
    repeat split; try done; try lia; try (intros; lia);
    try (intros [?|?]; lia);
    try (rewrite Z.leb_le; lia); try (rewrite Z.leb_le; intros [?|?]; lia).
Qed.

End errors_properties.

Section retry_properties.

Import HudyClient.

Context (F : Type) (mul min : F → F → F) (negative : F → bool)
  (script : nat → HudyError.t + list Holiday.t).

Let E : Env := scripted_env F mul min negative script.



End retry_properties.


Section client_properties.

Import HudyClient.

Context {E : Env}.

Lemma get_holidays_invalid_year (self : HudyClient.t E) (year : Z)
    (w : world E) :
  year < 1900 ∨ 2100 < year →
  get_holidays self year w = (self, w, Throw (Builtin ValueError)).
Proof.
  intros Hy. unfold get_holidays.
  destruct (Z.leb_spec 1900 year), (Z.leb_spec year 2100); simpl;
    first [done | lia].
Qed.

(** X17.  [get_holidays] serves a cached year without a request.  When the
    client has a cache in which [year], between 1900 and 2100, is stored,
    unexpired at the clock reading of the call and cached with a list that
    is not empty, the call returns that list, leaves the world as it is, so
    that no request was made, and counts one hit.  After any call that
    returned a list that is not empty, the cache holds that list for the
    year, so that a later call made before it expires is served this way. *)
Theorem get_holidays_cached (self : HudyClient.t E) (year : Z) (w : world E)
    (cache : SmartCache.t) :
  _cache self = Some cache → 1900 <= year <= 2100 →
  (∀ holidays,
     holidays ≠ [] →
     cached_unexpired (time_time E w) (SmartCache._store cache) year
       = Some holidays →
     get_holidays self year w =
       ({| _options := _options self;
           _cache := Some (SmartCache.get (time_time E w) cache year).1 |},
        w, Return holidays)
     ∧ SmartCache._hits (SmartCache.get (time_time E w) cache year).1
       = SmartCache._hits cache + 1)
  ∧ (∀ self1 w1 holidays,
       holidays ≠ [] →
       get_holidays self year w = (self1, w1, Return holidays) →
       ∃ cache1 entry,
         _cache self1 = Some cache1
         ∧ SmartCache._store cache1 !! SmartCache._get_year_key year
           = Some entry
         ∧ CacheEntry.data entry = holidays).
Proof.
  intros Hc Hy.
  assert (Hvalid : negb ((1900 <=? year) && (year <=? 2100)) = false).
  { destruct (Z.leb_spec 1900 year), (Z.leb_spec year 2100);
      simpl; first [done | lia]. }
  split.
  - intros holidays Hne Hlive. unfold get_holidays. rewrite Hvalid, Hc.
    pose proof (get_result (time_time E w) cache year) as Hres.
    pose proof (get_counters (time_time E w) cache year) as Hcount.
    destruct (SmartCache.get (time_time E w) cache year) as [cache1 cached].
    simpl in *. rewrite Hlive in Hres. subst cached.
    destruct holidays as [|h holidays]; [done|]. simpl.
    split; [done|]. by destruct Hcount as (-> & _).
  - intros self1 w1 holidays Hne. unfold get_holidays. rewrite Hvalid, Hc.
    pose proof (get_result (time_time E w) cache year) as Hres.
    pose proof (get_hit_store (time_time E w) cache year) as Hstore.
    destruct (SmartCache.get (time_time E w) cache year) as [cache1 cached].
    simpl in *.
    destruct (py_not cached) eqn:Hnot; simpl.
    + destruct (_request _ _ w) as [w' [data|e]]; [|intros [=]].
      rewrite set_unfold.
      destruct (float_of_int _) as [ttl|e]; [|intros [=]].
      intros [= <- <- <-].
      eexists _, _. split; [done|].
      split; [simpl; apply lookup_insert_eq|done].
    + intros [= <- <- <-].
      destruct cached as [[|h cached]|]; try done. simpl.
      specialize (Hstore _ eq_refl). symmetry in Hres.
      unfold cached_unexpired in Hres.
      destruct (SmartCache._store cache !! SmartCache._get_year_key year)
        as [entry|] eqn:Hk; [|done].
      destruct (float_gt _ _); [done|]. injection Hres as Hd.
      exists cache1, entry. split; [done|]. split; [|done].
      rewrite Hstore. done.
Qed.

(** X18.  [get_holidays] never serves an empty list from the cache.  When
    the year is stored and unexpired but cached with the empty list, the call
    counts a hit and then makes the request all the same: the world after the
    call is the world after [_request], and the result is its result,
    unless the request returned and [set] then raised.  That does not happen
    without an override of the time-to-live. *)
Theorem get_holidays_empty_refetched (self : HudyClient.t E) (year : Z)
    (w : world E) (cache : SmartCache.t) :
  _cache self = Some cache → 1900 <= year <= 2100 →
  cached_unexpired (time_time E w) (SmartCache._store cache) year = Some [] →
  let cache1 := (SmartCache.get (time_time E w) cache year).1 in
  let self1 := {| _options := _options self; _cache := Some cache1 |} in
  let url :=
    ClientOptions.base_url (_options self)
    +:+ "/v1/holidays?year=" +:+ pretty year in
  let w' := (_request self1 url w).1 in
  SmartCache._hits cache1 = SmartCache._hits cache + 1
  ∧ (get_holidays self year w).1.2 = w'
  ∧ (get_holidays self year w).2 =
      match (_request self1 url w).2 with
      | Throw e => Throw e
      | Return holidays =>
          match (SmartCache.set (time_time E w') (now_year E w') cache1 year
                   holidays).2 with
          | Ok _ => Return holidays
          | Raise e => Throw (Builtin e)
          end
      end
  ∧ (SmartCache._custom_ttl cache = None →
     (get_holidays self year w).2 = (_request self1 url w).2).
Proof.
  intros Hc Hy Hlive cache1 self1 url w'.
  assert (Hvalid : negb ((1900 <=? year) && (year <=? 2100)) = false).
  { destruct (Z.leb_spec 1900 year), (Z.leb_spec year 2100);
      simpl; first [done | lia]. }
  assert (Hres : (get_holidays self year w).1.2 = w'
    ∧ (get_holidays self year w).2 =
        match (_request self1 url w).2 with
        | Throw e => Throw e
        | Return holidays =>
            match (SmartCache.set (time_time E w') (now_year E w') cache1 year
                     holidays).2 with
            | Ok _ => Return holidays
            | Raise e => Throw (Builtin e)
            end
        end).
  { subst w' self1 cache1 url. unfold get_holidays. rewrite Hvalid, Hc.
    pose proof (get_result (time_time E w) cache year) as Hres.
    destruct (SmartCache.get (time_time E w) cache year) as [cache1 cached].
    simpl in *. rewrite Hlive in Hres. subst cached. simpl.
    destruct (_request _ _ w) as [w' [data|e]]; [|done]. simpl.
    destruct (SmartCache.set _ _ cache1 year data) as [cache2 [[]|e]]; done. }
  destruct Hres as [Hw Hr].
  pose proof (get_counters (time_time E w) cache year) as Hcount.
  rewrite (get_result (time_time E w) cache year), Hlive in Hcount.
  destruct Hcount as (Hhits & _).
  split; [done|]. split; [done|]. split; [done|].
  intros Hnone. rewrite Hr.
  destruct (_request self1 url w).2 as [data|e]; [|done].
  rewrite set_policy_Ok; [done|].
  subst cache1. by rewrite get_custom_ttl.
Qed.

End client_properties.
Lemma get_holidays_cached_witness :
  let h := Holiday.mk "a" "New Year" "2024-01-01" 2024 1 1 "Monday" public in
  let qmin (a b : Q) := if Qle_bool a b then a else b in
  let E :=
    scripted_env Q Qmult qmin (λ d, Qgt_bool 0 d)
      (λ _, inl (HudyError.network_error "connection reset")) in
  let options :=
    ClientOptions.mk "hd_live_k" "https://api.hudy.co.kr" 10%Q
      (CacheOptions.mk true None) (RetryOptions.mk true 3 1%Q 10%Q 2%Q) in
  let cache :=
    (SmartCache.set (round_int 0) 2024 (SmartCache.__init__ None) 2024 [h]).1 in
  let self := HudyClient.mk (E:=E) options (Some cache) in
  HudyClient.get_holidays self 2024 (O, [])
  = (HudyClient.mk (E:=E) options
       (Some (SmartCache.get (round_int 0) cache 2024).1),
     (O, []), Return [h])
  ∧ SmartCache._hits (SmartCache.get (round_int 0) cache 2024).1
    = SmartCache._hits cache + 1.
Proof.
  intros h qmin E options cache self.
  apply (proj1 (get_holidays_cached (E:=E) self 2024 (O, []) cache eq_refl
                  ltac:(lia)) [h]).
  - discriminate.
  - vm_compute. reflexivity.
Defined.

Lemma get_holidays_empty_refetched_witness :
  let h := Holiday.mk "a" "New Year" "2024-01-01" 2024 1 1 "Monday" public in
  let qmin (a b : Q) := if Qle_bool a b then a else b in
  let E := scripted_env Q Qmult qmin (λ d, Qgt_bool 0 d) (λ _, inr [h]) in
  let options :=
    ClientOptions.mk "hd_live_k" "https://api.hudy.co.kr" 10%Q
      (CacheOptions.mk true None) (RetryOptions.mk true 3 1%Q 10%Q 2%Q) in
  let cache :=
    (SmartCache.set (round_int 0) 2024 (SmartCache.__init__ None) 2024 []).1 in
  let self := HudyClient.mk (E:=E) options (Some cache) in
  let cache1 := (SmartCache.get (round_int 0) cache 2024).1 in
  let self1 := HudyClient.mk (E:=E) options (Some cache1) in
  let url := "https://api.hudy.co.kr" +:+ "/v1/holidays?year=" +:+ pretty 2024 in
  (HudyClient.get_holidays self 2024 (O, [])).2
  = (HudyClient._request self1 url (O, [])).2.
Proof.
  intros h qmin E options cache self.
  apply (get_holidays_empty_refetched (E:=E) self 2024 (O, []) cache eq_refl).
  - lia.
  - vm_compute. reflexivity.
  - reflexivity.
Defined.

Section year_properties.

(** A date lies after the last day of the year before its own and not after
    the last day of its year. *)
Lemma year_bounds n :
  valid_date n →
  _days_before_year (year n) < n <= _days_before_year (year n + 1).
Proof.
  intros Hn. unfold year.
  pose proof (_ord2ymd_spec n Hn) as Sn.
  pose proof (_ord2ymd_day_in_month n Hn) as Dn.
  destruct (_ord2ymd n) as [[y m] d]. simpl.
  destruct Sn as (<- & Ry & Rm & Rd).
  pose proof (_days_before_month_year y m Rm) as [H0 H1].
  rewrite _days_before_year_succ. unfold _ymd2ord.
  destruct (_is_leap y); lia.
Qed.

Lemma _days_before_year_mono y y' :
  y <= y' → _days_before_year y <= _days_before_year y'.
Proof.
  intros H. destruct (decide (y = y')) as [->|Hne]; [lia|].
  pose proof (_days_before_year_lt y y' ltac:(lia)) as Hlt.
  rewrite _days_before_year_succ in Hlt. destruct (_is_leap y); lia.
Qed.

(** 366 days after any date the year is a later one. *)
Lemma year_after_366 d :
  valid_date d → valid_date (d + 366) → year d < year (d + 366).
Proof.
  intros Hd Hd'.
  pose proof (year_bounds d Hd) as [Hlo Hhi].
  pose proof (year_bounds (d + 366) Hd') as [Hlo' Hhi'].
  destruct (Z.lt_ge_cases (year d) (year (d + 366))) as [|Hge]; [done|].
  exfalso.
  pose proof (_days_before_year_mono (year (d + 366) + 1) (year d + 1)
                ltac:(lia)) as Hm.
  rewrite (_days_before_year_succ (year d)) in Hm.
  destruct (_is_leap (year d)); lia.
Qed.

(** The dates of a year are the ordinals between its first and last day. *)
Lemma year_le_iff n y :
  valid_date n → (year n <= y ↔ n <= _days_before_year (y + 1)).
Proof.
  intros Hn. pose proof (year_bounds n Hn) as [Hlo Hhi]. split.
  - intros Hy.
    pose proof (_days_before_year_mono (year n + 1) (y + 1) ltac:(lia)). lia.
  - intros Hle. destruct (Z.le_gt_cases (year n) y) as [|Hgt]; [done|].
    exfalso.
    pose proof (_days_before_year_mono (y + 1) (year n) ltac:(lia)). lia.
Qed.

(** Later dates are of later or equal years. *)
Lemma year_mono a b :
  valid_date a → valid_date b → a <= b → year a <= year b.
Proof.
  intros Ha Hb Hab.
  destruct (Z.le_gt_cases (year a) (year b)) as [|Hgt]; [done|].
  exfalso. pose proof (year_bounds a Ha) as [Hlo _].
  pose proof (proj1 (year_le_iff b (year a - 1) Hb) ltac:(lia)) as Hle.
  replace (year a - 1 + 1) with (year a) in Hle by lia. lia.
Qed.

End year_properties.

Section client_business_day_properties.

Import HudyClient.

Context {E : Env}.

Lemma get_next_business_day_loop_fetches (self : HudyClient.t E) (y : Z)
    (holidays : list Holiday.t) :
  ∀ (n : nat) (check_date : date) (w : world E),
    valid_date check_date → valid_date (check_date + Z.of_nat n) →
    year check_date <= y → y < year (check_date + Z.of_nat n) →
    get_next_business_day_loop n self y holidays check_date w =
      let '(self, w, r) := get_holidays self (y + 1) w in
      match r with
      | Throw e => (self, w, Throw e)
      | Return next_year_holidays =>
          (self, w, Return (holidays ++ next_year_holidays))
      end.
Proof.
  intros n. induction n as [|n IH]; intros check_date w Hv Hvn Hle Hlt.
  - rewrite Z.add_0_r in Hlt. lia.
  - cbn [get_next_business_day_loop].
    assert (Hv1 : valid_date (check_date + 1)).
    { unfold valid_date in *. lia. }
    replace (add_timedelta_days check_date 1) with (add_days check_date 1)
      by done.
    destruct (add_days_total check_date 1) as [[_ ->]|[Hno _]]; [|done].
    destruct (Z.ltb_spec y (year (check_date + 1))) as [Hnext|Hsame]; [done|].
    apply IH; try done.
    + by replace (check_date + 1 + Z.of_nat n)
        with (check_date + Z.of_nat (S n)) by lia.
    + by replace (check_date + 1 + Z.of_nat n)
        with (check_date + Z.of_nat (S n)) by lia.
Qed.

(** X19.  [HudyClient.get_next_business_day] always asks for the holidays
    of the following year as well, and [get_holidays] refuses the years
    outside 1900..2100.  So for every date of the year 2100 the method
    returns no date: it raises what the fetch of year 2100 raised, or else,
    when that fetch returned, [ValueError] for the year 2101, whatever the
    holidays and however near the next business day is. *)
Theorem get_next_business_day_year_2100 (fuel : nat) (self : HudyClient.t E)
    (from_date : date) (w : world E) :
  valid_date from_date → year from_date = 2100 →
  ∃ self' w' e,
    get_next_business_day fuel self from_date w = Some (self', w', Throw e)
    ∧ (self', w') = (get_holidays self 2100 w).1
    ∧ match (get_holidays self 2100 w).2 with
      | Return holidays => e = Builtin ValueError
      | Throw e0 => e = e0
      end.
Proof.
  intros Hv Hy. unfold get_next_business_day. rewrite Hy.
  destruct (get_holidays self 2100 w) as [[self1 w1] [holidays|e]] eqn:Hfirst.
  2:{ by exists self1, w1, e. }
  assert (Hy' : from_date <= _days_before_year 2101).
  { apply (year_le_iff from_date 2100 Hv). lia. }
  assert (Hv366 : valid_date (from_date + 366)).
  { assert (Hc : _days_before_year 2101 = 767009) by reflexivity.
    rewrite Hc in Hy'. unfold valid_date, _MAXORDINAL in *. lia. }
  rewrite (get_next_business_day_loop_fetches self1 2100 holidays 366
             from_date w1 Hv Hv366 ltac:(lia)).
  2:{ rewrite <- Hy. by apply year_after_366. }
  rewrite get_holidays_invalid_year by lia.
  by exists self1, w1, (Builtin ValueError).
Qed.

Lemma get_holidays_by_range_loop_ok (years : list Z) :
  ∀ (self : HudyClient.t E) all_holidays w self' w' l,
    get_holidays_by_range_loop self years all_holidays w
      = (self', w', Return l) →
    ∃ more, l = all_holidays ++ more.
Proof.
  induction years as [|year years IH]; intros self all_holidays w self' w' l.
  - simpl. intros [= <- <- <-]. exists []. by rewrite app_nil_r.
  - cbn [get_holidays_by_range_loop].
    destruct (get_holidays self year w) as [[self1 w1] [hs|e]]; [|done].
    intros Hloop. apply IH in Hloop as [more ->].
    exists (hs ++ more). by rewrite app_assoc.
Qed.

(** X20.  [get_holidays_by_range] refuses a range whose [from_date] is
    after its [to_date] with [ValueError], before it touches the cache or
    the network, and every holiday it returns has its [date] string between
    the two formatted dates. *)
Theorem get_holidays_by_range_spec (self : HudyClient.t E)
    (from_date to_date : date) (w : world E) :
  (to_date < from_date →
   get_holidays_by_range self from_date to_date w
   = (self, w, Throw (Builtin ValueError)))
  ∧ (∀ self' w' l,
       get_holidays_by_range self from_date to_date w = (self', w', Return l) →
       from_date <= to_date
       ∧ ∀ h, h ∈ l →
              String.leb (format_date from_date) (Holiday.date h) = true
              ∧ String.leb (Holiday.date h) (format_date to_date) = true).
Proof.
  unfold get_holidays_by_range. split.
  - intros Hlt. by destruct (Z.ltb_spec to_date from_date); [|lia].
  - intros self' w' l.
    destruct (Z.ltb_spec to_date from_date) as [|Hle]; [done|].
    assert (Hfilter : ∀ l0 h,
              h ∈ List.filter
                    (SmartCache.in_range (strftime_Ymd from_date)
                       (strftime_Ymd to_date)) l0 →
              String.leb (format_date from_date) (Holiday.date h) = true
              ∧ String.leb (Holiday.date h) (format_date to_date) = true).
    { intros l0 h Hin. apply list_elem_of_In, filter_In in Hin as [_ Hin].
      unfold SmartCache.in_range in Hin. by apply andb_true_iff in Hin. }
    destruct (year from_date =? year to_date).
    + destruct (get_holidays self (year from_date) w)
        as [[self1 w1] [hs|e]]; [|done].
      intros [= <- <- <-]. split; [lia|]. apply Hfilter.
    + destruct (get_holidays_by_range_loop self _ [] w)
        as [[self1 w1] [hs|e]]; [|done].
      intros [= <- <- <-]. split; [lia|]. apply Hfilter.
Qed.

End client_business_day_properties.
Lemma get_next_business_day_year_2100_witness :
  let qmin (a b : Q) := if Qle_bool a b then a else b in
  let E := scripted_env Q Qmult qmin (λ d, Qgt_bool 0 d) (λ _, inr []) in
  let options :=
    ClientOptions.mk "hd_live_k" "https://api.hudy.co.kr" 10%Q
      (CacheOptions.mk false None) (RetryOptions.mk true 3 1%Q 10%Q 2%Q) in
  let self := HudyClient.mk (E:=E) options None in
  ∃ self' w' e,
    HudyClient.get_next_business_day 10 self (mkdate 2100 6 15) (O, [])
    = Some (self', w', Throw e)
    ∧ (self', w') = (HudyClient.get_holidays self 2100 (O, [])).1
    ∧ match (HudyClient.get_holidays self 2100 (O, [])).2 with
      | Return holidays => e = Builtin ValueError
      | Throw e0 => e = e0
      end.
Proof.
  intros qmin E options self.
  apply (get_next_business_day_year_2100 (E:=E) 10 self (mkdate 2100 6 15)
           (O, [])).
  - vm_compute. split; discriminate.
  - vm_compute. reflexivity.
Defined.

Lemma get_holidays_by_range_spec_witness :
  let qmin (a b : Q) := if Qle_bool a b then a else b in
  let E := scripted_env Q Qmult qmin (λ d, Qgt_bool 0 d) (λ _, inr []) in
  let options :=
    ClientOptions.mk "hd_live_k" "https://api.hudy.co.kr" 10%Q
      (CacheOptions.mk false None) (RetryOptions.mk true 3 1%Q 10%Q 2%Q) in
  let self := HudyClient.mk (E:=E) options None in
  HudyClient.get_holidays_by_range self (mkdate 2024 3 1) (mkdate 2024 1 1)
    (O, [])
  = (self, (O, []), Throw (Builtin ValueError)).
Proof.
  intros qmin E options self.
  apply (proj1 (get_holidays_by_range_spec (E:=E) self (mkdate 2024 3 1)
                  (mkdate 2024 1 1) (O, []))).
  vm_compute. reflexivity.
Defined.

Section client_composition_properties.

Context {E : Env}.

Lemma holiday_set_existsb (holidays : list Holiday.t) (s : string) :
  bool_decide (s ∉ BusinessDayCalculator._holiday_set
                     (BusinessDayCalculator.__init__ holidays))
  = negb (existsb (λ h, String.eqb (Holiday.date h) s) holidays).
Proof.
  simpl. destruct (existsb _ holidays) eqn:Hex; simpl.
  - apply bool_decide_eq_false. intros Hn. apply Hn.
    apply existsb_exists in Hex as (h & Hin & Heq).
    apply String.eqb_eq in Heq. subst s.
    apply elem_of_list_to_set, list_elem_of_fmap.
    exists h. split; [done|]. by apply list_elem_of_In.
  - apply bool_decide_eq_true. intros Hin.
    apply elem_of_list_to_set, list_elem_of_fmap in Hin as (h & -> & Hin).
    apply not_true_iff_false in Hex. apply Hex.
    apply existsb_exists. exists h. split; [by apply list_elem_of_In|].
    apply String.eqb_refl.
Qed.

(** X25.  The client's [is_business_day] and [is_holiday] agree.  Both
    fetch the holidays of the year of the date in the same way, so from the
    same client and world they leave the same client and world, raise the
    same exception when the fetch raises, and otherwise a date is a business
    day exactly when it is neither a Saturday or Sunday nor a holiday. *)
Theorem is_business_day_is_holiday (self : HudyClient.t E) (check_date : date)
    (w : world E) :
  HudyClient.is_business_day self check_date w =
    let '(self', w', r) := HudyClient.is_holiday self check_date w in
    (self', w',
     match r with
     | Return holiday => Return (negb (is_weekend check_date) && negb holiday)
     | Throw e => Throw e
     end).
Proof.
  unfold HudyClient.is_business_day, HudyClient.is_holiday.
  destruct (HudyClient.get_holidays self (year check_date) w)
    as [[self' w'] [holidays|e]]; [|done].
  do 2 f_equal. unfold BusinessDayCalculator.is_business_day.
  destruct (is_weekend check_date); [done|]. cbv zeta.
  rewrite holiday_set_existsb. done.
Qed.

Lemma count_business_days_loop_agree (self1 self2 : BusinessDayCalculator.t)
    (from_date to_date : date) :
  (∀ d, from_date <= d <= to_date →
        BusinessDayCalculator.is_business_day self1 d
        = BusinessDayCalculator.is_business_day self2 d) →
  ∀ fuel current count,
    from_date <= current →
    BusinessDayCalculator.count_business_days_loop fuel self1 to_date current
      count
    = BusinessDayCalculator.count_business_days_loop fuel self2 to_date current
        count.
Proof.
  intros Hagree fuel. induction fuel as [|fuel IH]; intros current count Hc.
  - done.
  - cbn [BusinessDayCalculator.count_business_days_loop].
    destruct (Z.leb_spec current to_date) as [Hle|Hgt]; [|done].
    rewrite (Hagree current) by lia.
    destruct (add_days current 1) as [next|e] eqn:Hnext; [|done].
    apply add_days_Ok in Hnext as [-> _]. apply IH. lia.
Qed.

Lemma filter_in_range_is_business_day (holidays : list Holiday.t)
    (from_date to_date d : date) :
  valid_date from_date → valid_date to_date → 1000 <= year from_date →
  from_date <= d <= to_date →
  BusinessDayCalculator.is_business_day
    (BusinessDayCalculator.__init__
       (List.filter
          (SmartCache.in_range (strftime_Ymd from_date) (strftime_Ymd to_date))
          holidays)) d
  = BusinessDayCalculator.is_business_day
      (BusinessDayCalculator.__init__ holidays) d.
Proof.
  intros Hf Ht Hyf Hd. unfold BusinessDayCalculator.is_business_day.
  destruct (is_weekend d); [done|]. cbv zeta.
  rewrite !holiday_set_existsb. f_equal.
  assert (Hv : valid_date d) by (unfold valid_date in *; lia).
  assert (Hyd : 1000 <= year d).
  { pose proof (year_mono from_date d Hf Hv ltac:(lia)). lia. }
  assert (Hyt : 1000 <= year to_date).
  { pose proof (year_mono d to_date Hv Ht ltac:(lia)). lia. }
  induction holidays as [|h holidays IH]; [done|].
  cbn [List.filter existsb].
  destruct (String.eqb_spec (Holiday.date h) (format_date d)) as [Heq|Hne].
  - assert (Hin : SmartCache.in_range (strftime_Ymd from_date)
                    (strftime_Ymd to_date) h = true).
    { unfold SmartCache.in_range. rewrite Heq.
      change (strftime_Ymd from_date) with (format_date from_date).
      change (strftime_Ymd to_date) with (format_date to_date).
      unfold String.leb. rewrite !format_date_compare by done.
      destruct (Z.compare_spec from_date d), (Z.compare_spec d to_date);
        first [done | lia]. }
    rewrite Hin. cbn [existsb]. rewrite Heq, String.eqb_refl. done.
  - destruct (SmartCache.in_range _ _ h); [|by rewrite IH].
    cbn [existsb]. rewrite IH.
    by destruct (String.eqb_spec (Holiday.date h) (format_date d)).
Qed.

(** X26.  [get_business_days] counts against the holidays of the range
    only, and from year 1000 on that loses nothing: for a range that starts
    in year 1000 or later, the count of business days between the two dates
    is the same with the holidays restricted to the range as with all of
    them.  So for two dates of one year the method returns the count made
    with all the fetched holidays of that year, or raises what the fetch
    raised (it raises [ValueError] for the years before 1900); and it
    refuses a range whose [from_date] is after its [to_date] with
    [ValueError] before any fetch. *)
Theorem get_business_days_spec (fuel : nat) (self : HudyClient.t E)
    (from_date to_date : date) (w : world E) :
  valid_date from_date → valid_date to_date →
  (1000 <= year from_date →
   ∀ holidays,
     BusinessDayCalculator.count_business_days fuel
       (BusinessDayCalculator.__init__
          (List.filter
             (SmartCache.in_range (strftime_Ymd from_date)
                (strftime_Ymd to_date)) holidays)) from_date to_date
     = BusinessDayCalculator.count_business_days fuel
         (BusinessDayCalculator.__init__ holidays) from_date to_date)
  ∧ (to_date < from_date →
     HudyClient.get_business_days fuel self from_date to_date w
     = Some (self, w, Throw (Builtin ValueError)))
  ∧ (from_date <= to_date → year from_date = year to_date →
     HudyClient.get_business_days fuel self from_date to_date w =
       let '(self', w', r) :=
         HudyClient.get_holidays self (year from_date) w in
       match r with
       | Throw e => Some (self', w', Throw e)
       | Return holidays =>
           match BusinessDayCalculator.count_business_days fuel
                   (BusinessDayCalculator.__init__ holidays)
                   from_date to_date with
           | None => None
           | Some (Ok c) => Some (self', w', Return c)
           | Some (Raise e) => Some (self', w', Throw (Builtin e))
           end
       end).
Proof.
  intros Hf Ht.
  assert (Hfilter : 1000 <= year from_date → ∀ holidays,
     BusinessDayCalculator.count_business_days fuel
       (BusinessDayCalculator.__init__
          (List.filter
             (SmartCache.in_range (strftime_Ymd from_date)
                (strftime_Ymd to_date)) holidays)) from_date to_date
     = BusinessDayCalculator.count_business_days fuel
         (BusinessDayCalculator.__init__ holidays) from_date to_date).
  { intros Hyf holidays. unfold BusinessDayCalculator.count_business_days.
    destruct (to_date <? from_date); [done|].
    apply (count_business_days_loop_agree _ _ from_date); [|lia].
    intros d Hd. by apply filter_in_range_is_business_day. }
  split; [done|]. split.
  - intros Hlt. unfold HudyClient.get_business_days.
    by destruct (Z.ltb_spec to_date from_date); [|lia].
  - intros Hle Hyear.
    unfold HudyClient.get_business_days, HudyClient.get_holidays_by_range.
    destruct (Z.ltb_spec to_date from_date); [lia|].
    rewrite <- Hyear, Z.eqb_refl.
    destruct (Z.le_gt_cases 1000 (year from_date)) as [Hyf|Hyf].
    + destruct (HudyClient.get_holidays self (year from_date) w)
        as [[self' w'] [holidays|e]]; [|done].
      by rewrite Hfilter.
    + by rewrite get_holidays_invalid_year by lia.
Qed.

Lemma _request_with_retry_loop_options (self1 self2 : HudyClient.t E)
    (url : string) :
  HudyClient._options self1 = HudyClient._options self2 →
  ∀ attempts last_error delay w,
    HudyClient._request_with_retry_loop self1 url attempts last_error delay w
    = HudyClient._request_with_retry_loop self2 url attempts last_error delay
        w.
Proof.
  intros Ho attempts.
  induction attempts as [|attempt attempts IH]; intros last_error delay w.
  - done.
  - cbn [HudyClient._request_with_retry_loop]. rewrite Ho.
    destruct (_execute_request E url w) as [w1 [e|data]]; [|done].
    destruct (negb (HudyError.retryable e)); [done|].
    destruct (attempt <? _); [|apply IH].
    destruct (sleep E delay w1); [apply IH|done].
Qed.

Lemma _request_options (self1 self2 : HudyClient.t E) (url : string)
    (w : world E) :
  HudyClient._options self1 = HudyClient._options self2 →
  HudyClient._request self1 url w = HudyClient._request self2 url w.
Proof.
  intros Ho. unfold HudyClient._request, HudyClient._request_with_retry.
  rewrite Ho. destruct (RetryOptions.enabled _); [|done].
  by apply _request_with_retry_loop_options.
Qed.

(** X27.  After [clear_cache] the statistics are all zero and the next
    [get_holidays] of a year between 1900 and 2100 goes to the network: its
    world is the one [_request] leaves and its result the one of [_request],
    unless the request returned and the override of the time-to-live has no
    float, when [set] raises [OverflowError]; and when it returns a list the
    statistics then show no hit, one miss and the one entry of that year. *)
Theorem clear_cache_then_get_holidays (self : HudyClient.t E)
    (cache : SmartCache.t) (year : Z) (w : world E) :
  HudyClient._cache self = Some cache → 1900 <= year <= 2100 →
  let self0 := HudyClient.clear_cache self in
  let url :=
    ClientOptions.base_url (HudyClient._options self)
    +:+ "/v1/holidays?year=" +:+ pretty year in
  let w' := (HudyClient._request self url w).1 in
  HudyClient.get_cache_stats self0 = (0, 0, 0, [])
  ∧ (HudyClient.get_holidays self0 year w).1.2 = w'
  ∧ (HudyClient.get_holidays self0 year w).2 =
      match (HudyClient._request self url w).2 with
      | Throw e => Throw e
      | Return holidays =>
          match float_of_int
                  (SmartCache._get_ttl (now_year E w') cache year) with
          | Ok _ => Return holidays
          | Raise _ => Throw (Builtin OverflowError)
          end
      end
  ∧ (SmartCache._custom_ttl cache = None →
     (HudyClient.get_holidays self0 year w).2
     = (HudyClient._request self url w).2)
  ∧ ∀ holidays,
      (HudyClient.get_holidays self0 year w).2 = Return holidays →
      ∃ expires_at,
        HudyClient.get_cache_stats (HudyClient.get_holidays self0 year w).1.1
        = (0, 1, 1, [(SmartCache._get_year_key year, expires_at)]).
Proof.
  intros Hc Hy self0 url w'.
  assert (Hvalid : negb ((1900 <=? year) && (year <=? 2100)) = false).
  { destruct (Z.leb_spec 1900 year), (Z.leb_spec year 2100);
      simpl; first [done | lia]. }
  subst self0 url w'. unfold HudyClient.clear_cache. rewrite Hc.
  split; [done|].
  unfold HudyClient.get_holidays. rewrite Hvalid.
  cbn [HudyClient._cache HudyClient._options].
  unfold SmartCache.get, SmartCache.clear. cbn [SmartCache._store].
  rewrite lookup_empty. cbn [py_not negb].
  set (self1 := HudyClient.mk _ _).
  rewrite (_request_options self1 self) by done.
  destruct (HudyClient._request self _ w) as [w1 [holidays|e]];
    cbn [fst snd]; [|by repeat split].
  subst self1. cbn [HudyClient._cache HudyClient._options].
  rewrite set_unfold.
  change (SmartCache._get_ttl (now_year E w1) _ year)
    with (SmartCache._get_ttl (now_year E w1) cache year).
  destruct (float_of_int (SmartCache._get_ttl (now_year E w1) cache year))
    as [ttl|e] eqn:Hf; cbn [fst snd].
  - split; [done|]. split; [done|]. split; [done|].
    intros holidays' _.
    unfold HudyClient.get_cache_stats. cbn [HudyClient._cache].
    unfold SmartCache.get_stats.
    cbn [SmartCache._store SmartCache._hits SmartCache._misses].
    rewrite insert_empty, map_size_singleton, map_to_list_singleton.
    eexists. reflexivity.
  - apply float_of_int_Raise in Hf as Hover. subst e.
    split; [done|]. split; [done|]. split; [|done].
    intros Hnone.
    destruct (float_of_int_policy (now_year E w1) cache year Hnone)
      as [ttl Hok].
    congruence.
Qed.

(** X28.  A client built with the cache disabled keeps no state: every
    [get_holidays] of a year between 1900 and 2100 makes the request and
    returns its outcome with the client unchanged, the statistics stay zero,
    and [clear_cache] and [prune_cache] do nothing. *)
Theorem client_without_cache (options : ClientOptions.t (float E)) (year : Z)
    (w : world E) :
  CacheOptions.enabled (ClientOptions.cache options) = false →
  1900 <= year <= 2100 →
  let self := HudyClient.__init__ options in
  let url := ClientOptions.base_url options +:+ "/v1/holidays?year="
             +:+ pretty year in
  HudyClient.get_holidays self year w =
    (self, (HudyClient._request self url w).1,
     (HudyClient._request self url w).2)
  ∧ HudyClient.get_cache_stats self = (0, 0, 0, [])
  ∧ HudyClient.clear_cache self = self
  ∧ HudyClient.prune_cache self w = (self, 0).
Proof.
  intros Hoff Hy self url.
  assert (Hvalid : negb ((1900 <=? year) && (year <=? 2100)) = false).
  { destruct (Z.leb_spec 1900 year), (Z.leb_spec year 2100);
      simpl; first [done | lia]. }
  subst self url. unfold HudyClient.__init__. rewrite Hoff.
  repeat split.
  unfold HudyClient.get_holidays. rewrite Hvalid.
  cbn [HudyClient._cache HudyClient._options py_not negb].
  by destruct (HudyClient._request _ _ w) as [w1 [holidays|e]].
Qed.

End client_composition_properties.

Lemma get_business_days_spec_witness :
  let qmin (a b : Q) := if Qle_bool a b then a else b in
  let E := scripted_env Q Qmult qmin (λ d, Qgt_bool 0 d) (λ _, inr []) in
  let options :=
    ClientOptions.mk "hd_live_k" "https://api.hudy.co.kr" 10%Q
      (CacheOptions.mk false None) (RetryOptions.mk true 3 1%Q 10%Q 2%Q) in
  let self := HudyClient.mk (E:=E) options None in
  HudyClient.get_business_days 10 self (mkdate 2024 3 1) (mkdate 2024 1 1)
    (O, [])
  = Some (self, (O, []), Throw (Builtin ValueError)).
Proof.
  intros qmin E options self.
  apply (proj1 (proj2 (get_business_days_spec (E:=E) 10 self (mkdate 2024 3 1)
                         (mkdate 2024 1 1) (O, [])
                         ltac:(vm_compute; split; discriminate)
                         ltac:(vm_compute; split; discriminate)))).
  vm_compute. reflexivity.
Defined.

Lemma clear_cache_then_get_holidays_witness :
  let h := Holiday.mk "a" "New Year" "2024-01-01" 2024 1 1 "Monday" public in
  let qmin (a b : Q) := if Qle_bool a b then a else b in
  let E := scripted_env Q Qmult qmin (λ d, Qgt_bool 0 d) (λ _, inr [h]) in
  let options :=
    ClientOptions.mk "hd_live_k" "https://api.hudy.co.kr" 10%Q
      (CacheOptions.mk true None) (RetryOptions.mk true 3 1%Q 10%Q 2%Q) in
  let cache :=
    (SmartCache.set (round_int 0) 2024 (SmartCache.__init__ None) 2024 [h]).1 in
  let self := HudyClient.mk (E:=E) options (Some cache) in
  HudyClient.get_cache_stats (HudyClient.clear_cache self) = (0, 0, 0, []).
Proof.
  intros h qmin E options cache self.
  apply (proj1 (clear_cache_then_get_holidays (E:=E) self cache 2024 (O, [])
                  eq_refl ltac:(lia))).
Defined.

Lemma client_without_cache_witness :
  let qmin (a b : Q) := if Qle_bool a b then a else b in
  let E := scripted_env Q Qmult qmin (λ d, Qgt_bool 0 d) (λ _, inr []) in
  let options : ClientOptions.t (float E) :=
    ClientOptions.mk "hd_live_k" "https://api.hudy.co.kr" 10%Q
      (CacheOptions.mk false None) (RetryOptions.mk true 3 1%Q 10%Q 2%Q) in
  HudyClient.prune_cache (HudyClient.__init__ options) (O, [])
  = (HudyClient.__init__ options, 0).
Proof.
  intros qmin E options.
  apply (proj2 (proj2 (proj2 (client_without_cache (E:=E) options 2024 (O, [])
                                eq_refl ltac:(lia))))).
Defined.
